(** * Agent-Memory: session-memory compaction and query disambiguation

    A shallow embedding of [src/schemas.py], [src/database.py],
    [src/utils.py], [src/agents.py], [src/graph.py] and of the chat handler
    of [app.py], followed by the properties of the compaction pipeline and
    of the response policy.

    Conventions of the embedding.
    - Python [int] is [Z]; [len] results are [nat] and are injected with
      [Z.of_nat] where the source does arithmetic on them.
    - A [datetime] is the [Z] number of microseconds it denotes.  The store
      keeps [isoformat()] text and SQLite compares it bytewise, which orders
      the texts as the instants are ordered.
    - A Python [str] is a [string], one element per character: the texts
      are taken in the range of one-byte characters, where [len] and slices
      count what [String.length] and [substring] count.
    - The SQLite file is the record [Database]; the text-generation service,
      [datetime.now()], the tokenizer, [json.loads], [str.strip],
      [str.upper] and storage faults are parameters of the development. *)

From Stdlib Require Import List ZArith String Ascii Bool Lia Arith DecimalString Permutation.
Import ListNotations.

Set Warnings "-register-all".

Local Open Scope string_scope.
Local Open Scope list_scope.

(** ** Python string helpers *)

Definition nl : string := String (ascii_of_nat 10) EmptyString.

(** Truth value of a [str]: every string but the empty one. *)
Definition str_truthy (s : string) : bool := negb (String.eqb s "").

(** [sep.join(parts)] *)
Fixpoint join (sep : string) (parts : list string) : string :=
  match parts with
  | [] => ""
  | [p] => p
  | p :: rest => (p ++ sep ++ join sep rest)%string
  end.

(** [s.startswith(p)] *)
Definition startswith (p s : string) : bool := String.prefix p s.

(** [s.replace(old, "")] for a non-empty [old]: the occurrences of [old] are
    removed from left to right, without overlap.  [skip] counts the
    characters of the current occurrence still to be dropped. *)
Fixpoint remove_occurrences (old s : string) (skip : nat) : string :=
  match s with
  | EmptyString => EmptyString
  | String c rest =>
      match skip with
      | S k => remove_occurrences old rest k
      | O =>
          if String.prefix old s
          then remove_occurrences old rest (String.length old - 1)
          else String c (remove_occurrences old rest 0)
      end
  end.

Definition replace_with_empty (old s : string) : string :=
  remove_occurrences old s 0.

(** [str(n)] for a natural number. *)
Definition str_of_nat (n : nat) : string := NilEmpty.string_of_uint (Nat.to_uint n).

(** [[f"{i+1}. {x}" for i, x in enumerate(xs)]], with [i] starting at [start]. *)
Fixpoint enumerate_from (start : nat) (xs : list string) : list string :=
  match xs with
  | [] => []
  | x :: rest =>
      (str_of_nat (start + 1) ++ ". " ++ x)%string :: enumerate_from (S start) rest
  end.

Definition numbered_lines (xs : list string) : string := join nl (enumerate_from 0 xs).

(** "The enumerated clarifying questions", in the words of the
    specification and written out on its own: the questions numbered in
    decimal from [i] on, each as its number, a full stop, a space and its
    text, one per line.  The response agent is compared with it below. *)
Fixpoint spec_enumerated (i : nat) (questions : list string) : string :=
  match questions with
  | [] => EmptyString
  | q :: rest =>
      let line := (NilEmpty.string_of_uint (Nat.to_uint i) ++ ". " ++ q)%string in
      match rest with
      | [] => line
      | _ :: _ =>
          (line ++ String (ascii_of_nat 10) EmptyString ++ spec_enumerated (S i) rest)%string
      end
  end.

(** ** Schemas ([src/schemas.py]) *)

Record UserProfile := {
  preferences : list string;
  constraints : list string
}.

Record SessionSummary := {
  user_profile : UserProfile;
  key_facts : list string;
  decisions : list string;
  open_questions : list string;
  todos : list string
}.

Record MessageRange := {
  from_index : Z;
  to_index : Z
}.

Record SessionMemoryOutput := {
  session_summary : SessionSummary;
  message_range_summarized : MessageRange;
  timestamp : Z
}.

Record QueryUnderstanding := {
  original_query : string;
  is_ambiguous : bool;
  rewritten_query : option string;
  possible_interpretations : list string;
  needed_context_from_memory : list string;
  clarifying_questions : list string;
  final_augmented_context : string
}.

(** The dictionary [app.py] stores under ["query_analysis"] with a user
    message: six fields of the query understanding, the original query not
    among them. *)
Record QueryAnalysisMetadata := {
  meta_is_ambiguous : bool;
  meta_rewritten_query : option string;
  meta_possible_interpretations : list string;
  meta_needed_context_from_memory : list string;
  meta_clarifying_questions : list string;
  meta_final_augmented_context : string
}.

(** The two dictionaries [app.py] attaches to messages.  An empty dictionary
    is stored as NULL by [save_message] ([if message.metadata:]), which is
    the [None] of the [metadata] field below. *)
Inductive Metadata :=
| QueryAnalysisMeta (qa : QueryAnalysisMetadata)
| SummaryMeta (s : SessionSummary).

Record Message := {
  role : string;
  content : string;
  msg_timestamp : Z;
  token_count : option Z;
  metadata : option Metadata
}.

(** The summary every parse failure falls back to. *)
Definition empty_summary : SessionSummary :=
  {| user_profile := {| preferences := []; constraints := [] |};
     key_facts := []; decisions := []; open_questions := []; todos := [] |}.

(** [MessageRange(from_index=f, to_index=t)]: both fields are declared
    [Field(ge=0)], a negative value is a validation error. *)
Definition validate_MessageRange (f t : Z) : option MessageRange :=
  if ((0 <=? f) && (0 <=? t))%Z
  then Some {| from_index := f; to_index := t |}
  else None.

(** ** Parsed JSON values, and the model constructors applied to them *)

Inductive json :=
| JNull
| JBool (b : bool)
| JNum (literal : string)
| JStr (s : string)
| JArr (items : list json)
| JObj (fields : list (string * json)).

Fixpoint dict_get (k : string) (d : list (string * json)) : option json :=
  match d with
  | [] => None
  | (k', v) :: rest => if String.eqb k k' then Some v else dict_get k rest
  end.

(** [d[k] = v] *)
Fixpoint dict_set (k : string) (v : json) (d : list (string * json)) : list (string * json) :=
  match d with
  | [] => [(k, v)]
  | (k', v') :: rest =>
      if String.eqb k k' then (k, v) :: rest else (k', v') :: dict_set k v rest
  end.

(** A value for a [List[str]] field. *)
Fixpoint all_strings (items : list json) : option (list string) :=
  match items with
  | [] => Some []
  | JStr s :: rest =>
      match all_strings rest with
      | Some l => Some (s :: l)
      | None => None
      end
  | _ :: _ => None
  end.

Definition validate_str_list (v : json) : option (list string) :=
  match v with
  | JArr items => all_strings items
  | _ => None
  end.

(** [List[str] = Field(default_factory=list)] *)
Definition field_str_list (k : string) (d : list (string * json)) : option (list string) :=
  match dict_get k d with
  | None => Some []
  | Some v => validate_str_list v
  end.

(** [str = Field(...)], required *)
Definition field_str_required (k : string) (d : list (string * json)) : option string :=
  match dict_get k d with
  | Some (JStr s) => Some s
  | _ => None
  end.

(** [str = Field(default="")] *)
Definition field_str_default (k : string) (d : list (string * json)) : option string :=
  match dict_get k d with
  | None => Some ""
  | Some (JStr s) => Some s
  | Some _ => None
  end.

(** [Optional[str] = Field(None)] *)
Definition field_str_optional (k : string) (d : list (string * json)) : option (option string) :=
  match dict_get k d with
  | None | Some JNull => Some None
  | Some (JStr s) => Some (Some s)
  | Some _ => None
  end.

Definition validate_UserProfile (v : json) : option UserProfile :=
  match v with
  | JObj d =>
      match field_str_list "preferences" d, field_str_list "constraints" d with
      | Some p, Some c => Some {| preferences := p; constraints := c |}
      | _, _ => None
      end
  | _ => None
  end.

(** The constructor [SessionSummary] applied to the keywords of [d];
    [user_profile] has no default. *)
Definition validate_SessionSummary (d : list (string * json)) : option SessionSummary :=
  match dict_get "user_profile" d with
  | None => None
  | Some up =>
      match validate_UserProfile up,
            field_str_list "key_facts" d, field_str_list "decisions" d,
            field_str_list "open_questions" d, field_str_list "todos" d with
      | Some u, Some kf, Some de, Some oq, Some td =>
          Some {| user_profile := u; key_facts := kf; decisions := de;
                  open_questions := oq; todos := td |}
      | _, _, _, _, _ => None
      end
  end.

(** The sanitising step of [query_agent]:
    [if d.get(k) is None: d[k] = []]. *)
Definition none_to_empty_list (k : string) (d : list (string * json)) : list (string * json) :=
  match dict_get k d with
  | None | Some JNull => dict_set k (JArr []) d
  | Some _ => d
  end.

(** ** The store ([src/database.py]): tables and SQL statements *)

Record MessageRow := {
  m_id : Z;
  m_session_id : string;
  m_role : string;
  m_content : string;
  m_timestamp : Z;
  m_token_count : option Z;
  m_metadata : option Metadata;
  is_summarized : bool
}.

(** [summary_json] holds [model_dump_json()] of the summary; it is read back
    through [json.loads] and the [SessionSummary] constructor, so the column
    is modelled by the summary itself. *)
Record SummaryRow := {
  s_id : Z;
  s_session_id : string;
  summary_json : SessionSummary;
  from_message_index : Z;
  to_message_index : Z;
  s_timestamp : Z
}.

Record QueryAnalysisRow := {
  qa_session_id : string;
  qa_understanding : QueryUnderstanding
}.

(** Rows are kept in rowid order; the two counters are the AUTOINCREMENT
    sequences. *)
Record Database := {
  messages_table : list MessageRow;
  summaries_table : list SummaryRow;
  query_analysis_table : list QueryAnalysisRow;
  next_message_id : Z;
  next_summary_id : Z
}.

Definition empty_database : Database :=
  {| messages_table := []; summaries_table := []; query_analysis_table := [];
     next_message_id := 1; next_summary_id := 1 |}.

(** [ORDER BY timestamp ASC] over rows listed in rowid order.  SQL leaves
    the order of rows with equal timestamps open; they are kept in rowid
    order here.  The statements below that depend on the order assume
    timestamps that differ. *)
Fixpoint insert_by {A} (key : A -> Z) (x : A) (l : list A) : list A :=
  match l with
  | [] => [x]
  | y :: rest => if (key x <=? key y)%Z then x :: l else y :: insert_by key x rest
  end.

Fixpoint order_by {A} (key : A -> Z) (l : list A) : list A :=
  match l with
  | [] => []
  | x :: rest => insert_by key x (order_by key rest)
  end.

(** [ORDER BY timestamp DESC] *)
Definition order_by_desc {A} (key : A -> Z) (l : list A) : list A :=
  order_by (fun x => (- key x)%Z) l.

(** [LIMIT lim OFFSET off]: a negative limit is no limit, a negative offset
    is offset 0.  SQLite takes both as signed 64-bit integers and refuses the
    statement for a value beyond them ([get_messages] writes the limit into
    the text, [get_recent_messages] binds it): the definition gives the rows
    for values of at most 63 bits, which is what the statements about limits
    assume; the ranges of the summarizer are differences of list lengths. *)
Definition limit_offset {A} (lim off : Z) (l : list A) : list A :=
  let l' := skipn (Z.to_nat off) l in
  if (lim <? 0)%Z then l' else firstn (Z.to_nat lim) l'.

Definition in_session (sid : string) (r : MessageRow) : bool :=
  String.eqb (m_session_id r) sid.

(** [SELECT ... FROM messages WHERE session_id = ? ORDER BY timestamp ASC] *)
Definition session_messages (sid : string) (db : Database) : list MessageRow :=
  order_by m_timestamp (filter (in_session sid) (messages_table db)).

(** The query text built by [get_messages]; [if limit:] skips [None] and 0. *)
Definition select_messages (sid : string) (limit : option Z) (exclude_summarized : bool)
    (db : Database) : list MessageRow :=
  let rows :=
    order_by m_timestamp
      (filter (fun r => in_session sid r && (negb exclude_summarized || negb (is_summarized r)))
              (messages_table db)) in
  match limit with
  | None => rows
  | Some n => if (n =? 0)%Z then rows else limit_offset n 0 rows
  end.

(** [SELECT ... ORDER BY timestamp DESC LIMIT n], then [reversed(rows)]: the
    last [n] rows of the ascending order (rows with equal timestamps taken
    in reverse rowid order by the descending scan). *)
Definition select_recent_messages (sid : string) (n : Z) (db : Database) : list MessageRow :=
  rev (limit_offset n 0 (rev (session_messages sid db))).

Definition row_to_message (r : MessageRow) : Message :=
  {| role := m_role r; content := m_content r; msg_timestamp := m_timestamp r;
     token_count := m_token_count r; metadata := m_metadata r |}.

(** [INSERT INTO messages ...]; [is_summarized] defaults to 0. *)
Definition insert_message (sid : string) (m : Message) (db : Database) : Database :=
  {| messages_table :=
       messages_table db ++
       [{| m_id := next_message_id db; m_session_id := sid; m_role := role m;
           m_content := content m; m_timestamp := msg_timestamp m;
           m_token_count := token_count m; m_metadata := metadata m;
           is_summarized := false |}];
     summaries_table := summaries_table db;
     query_analysis_table := query_analysis_table db;
     next_message_id := (next_message_id db + 1)%Z;
     next_summary_id := next_summary_id db |}.

(** The ids chosen by
    [SELECT id FROM messages WHERE session_id = ? ORDER BY timestamp ASC LIMIT ? OFFSET ?]
    with [LIMIT to - from + 1 OFFSET from]. *)
Definition range_ids (sid : string) (from to : Z) (db : Database) : list Z :=
  map m_id (limit_offset (to - from + 1) from (session_messages sid db)).

Definition mem_id (i : Z) (ids : list Z) : bool := existsb (Z.eqb i) ids.

Definition set_summarized (r : MessageRow) : MessageRow :=
  {| m_id := m_id r; m_session_id := m_session_id r; m_role := m_role r;
     m_content := m_content r; m_timestamp := m_timestamp r;
     m_token_count := m_token_count r; m_metadata := m_metadata r;
     is_summarized := true |}.

(** What the UPDATE below does to one row. *)
Definition mark_row (sid : string) (ids : list Z) (r : MessageRow) : MessageRow :=
  if in_session sid r && mem_id (m_id r) ids then set_summarized r else r.

(** [UPDATE messages SET is_summarized = 1 WHERE session_id = ? AND id IN (...)] *)
Definition update_summarized (sid : string) (from to : Z) (db : Database) : Database :=
  let ids := range_ids sid from to db in
  {| messages_table := map (mark_row sid ids) (messages_table db);
     summaries_table := summaries_table db;
     query_analysis_table := query_analysis_table db;
     next_message_id := next_message_id db;
     next_summary_id := next_summary_id db |}.

Definition summary_row (id : Z) (sid : string) (s : SessionMemoryOutput) : SummaryRow :=
  {| s_id := id; s_session_id := sid; summary_json := session_summary s;
     from_message_index := from_index (message_range_summarized s);
     to_message_index := to_index (message_range_summarized s);
     s_timestamp := timestamp s |}.

(** [INSERT INTO session_summaries ...] *)
Definition insert_summary (sid : string) (s : SessionMemoryOutput) (db : Database) : Database :=
  {| messages_table := messages_table db;
     summaries_table := summaries_table db ++ [summary_row (next_summary_id db) sid s];
     query_analysis_table := query_analysis_table db;
     next_message_id := next_message_id db;
     next_summary_id := (next_summary_id db + 1)%Z |}.

Definition summary_in_session (sid : string) (r : SummaryRow) : bool :=
  String.eqb (s_session_id r) sid.

(** The [SessionMemoryOutput] the readers build from a row.  They build
    the range with [MessageRange(from_index=..., to_index=...)], which
    refuses a negative index; the rows of a store the application reaches
    hold ranges that have passed this validation when they were saved, so
    that it is left out here ([reachable_ranges_valid] below). *)
Definition row_to_summary (r : SummaryRow) : SessionMemoryOutput :=
  {| session_summary := summary_json r;
     message_range_summarized :=
       {| from_index := from_message_index r; to_index := to_message_index r |};
     timestamp := s_timestamp r |}.

(** [SELECT ... FROM session_summaries WHERE session_id = ? ORDER BY timestamp ASC].
    The rows of a session are found through the index
    [idx_summaries_session] on [(session_id, timestamp DESC)], read backwards
    for the ascending order: rows with equal timestamps come in reverse
    rowid order. *)
Definition select_all_summaries (sid : string) (db : Database) : list SummaryRow :=
  rev (order_by_desc s_timestamp (filter (summary_in_session sid) (summaries_table db))).

(** [... ORDER BY timestamp DESC LIMIT 1], [fetchone()]: the row with the
    greatest timestamp (the first inserted one, should several share it:
    the same index, read forwards). *)
Definition select_latest_summary (sid : string) (db : Database) : option SummaryRow :=
  hd_error (order_by_desc s_timestamp (filter (summary_in_session sid) (summaries_table db))).

(** The three [DELETE FROM ... WHERE session_id = ?] of [clear_session]. *)
Definition delete_messages (sid : string) (db : Database) : Database :=
  {| messages_table := filter (fun r => negb (in_session sid r)) (messages_table db);
     summaries_table := summaries_table db;
     query_analysis_table := query_analysis_table db;
     next_message_id := next_message_id db;
     next_summary_id := next_summary_id db |}.

Definition delete_summaries (sid : string) (db : Database) : Database :=
  {| messages_table := messages_table db;
     summaries_table := filter (fun r => negb (summary_in_session sid r)) (summaries_table db);
     query_analysis_table := query_analysis_table db;
     next_message_id := next_message_id db;
     next_summary_id := next_summary_id db |}.

Definition delete_query_analysis (sid : string) (db : Database) : Database :=
  {| messages_table := messages_table db;
     summaries_table := summaries_table db;
     query_analysis_table :=
       filter (fun r => negb (String.eqb (qa_session_id r) sid)) (query_analysis_table db);
     next_message_id := next_message_id db;
     next_summary_id := next_summary_id db |}.

(** ** The pipeline state ([GraphState] of [src/graph.py]) *)

Record GraphState := {
  session_id : string;
  user_query : string;
  messages : list Message;
  total_tokens : Z;
  needs_summarization : bool;
  state_session_summary : option SessionMemoryOutput;
  query_understanding : option QueryUnderstanding;
  final_response : string
}.

Definition set_context (msgs : list Message) (tokens : Z) (needs : bool) (st : GraphState)
    : GraphState :=
  {| session_id := session_id st; user_query := user_query st;
     messages := msgs; total_tokens := tokens; needs_summarization := needs;
     state_session_summary := state_session_summary st;
     query_understanding := query_understanding st;
     final_response := final_response st |}.

Definition set_session_summary (out : SessionMemoryOutput) (st : GraphState) : GraphState :=
  {| session_id := session_id st; user_query := user_query st;
     messages := messages st; total_tokens := total_tokens st;
     needs_summarization := false;
     state_session_summary := Some out;
     query_understanding := query_understanding st;
     final_response := final_response st |}.

Definition set_query_understanding (qu : QueryUnderstanding) (st : GraphState) : GraphState :=
  {| session_id := session_id st; user_query := user_query st;
     messages := messages st; total_tokens := total_tokens st;
     needs_summarization := needs_summarization st;
     state_session_summary := state_session_summary st;
     query_understanding := Some qu;
     final_response := final_response st |}.

Definition set_final_response (text : string) (st : GraphState) : GraphState :=
  {| session_id := session_id st; user_query := user_query st;
     messages := messages st; total_tokens := total_tokens st;
     needs_summarization := needs_summarization st;
     state_session_summary := state_session_summary st;
     query_understanding := query_understanding st;
     final_response := text |}.

(** ** Effects: the generation service, the clock and the store *)

(** A call to the generation service.  The prompts of [src/agents.py] are
    fixed texts with holes; a request records which prompt it is and what
    fills the holes. *)
Inductive llm_request :=
| SummarizePrompt (previous_summary : option SessionMemoryOutput) (conversation_text : string)
| QueryPrompt (recent_context : string) (summary : option SessionMemoryOutput) (query : string)
| ResponsePrompt (context effective_query : string) (interpretations_text : option string).

(** What [invoke] does: it returns a message with a [content], or raises. *)
Inductive llm_reply :=
| Content (text : string)
| ServiceError.

Inductive exn :=
| GenerationServiceError
| StorageError
| ValidationError.

Inductive result (A : Type) :=
| Ok (a : A)
| Raise (e : exn).

Arguments Ok {A} a.
Arguments Raise {A} e.

(** Between two uses of a connection, [w_db] is the committed content of
    the SQLite file: what a reader on another connection, or the process
    after a crash, finds.  While a connection is in use it is the view of
    that connection, which the commit publishes and a rollback discards
    (see [with_connection]).  The other fields record the calls made so
    far. *)
Record World := {
  w_db : Database;
  w_llm_calls : list llm_request;
  w_clock_reads : nat;
  w_sql_ops : nat
}.

Definition initial_world : World :=
  {| w_db := empty_database; w_llm_calls := []; w_clock_reads := 0; w_sql_ops := 0 |}.

Definition with_db (db : Database) (w : World) : World :=
  {| w_db := db; w_llm_calls := w_llm_calls w;
     w_clock_reads := w_clock_reads w; w_sql_ops := w_sql_ops w |}.

Definition count_sql_op (w : World) : World :=
  {| w_db := w_db w; w_llm_calls := w_llm_calls w;
     w_clock_reads := w_clock_reads w; w_sql_ops := S (w_sql_ops w) |}.

Definition count_clock_read (w : World) : World :=
  {| w_db := w_db w; w_llm_calls := w_llm_calls w;
     w_clock_reads := S (w_clock_reads w); w_sql_ops := w_sql_ops w |}.

Definition log_llm_call (req : llm_request) (w : World) : World :=
  {| w_db := w_db w; w_llm_calls := w_llm_calls w ++ [req];
     w_clock_reads := w_clock_reads w; w_sql_ops := w_sql_ops w |}.

(** The world after [n] more SQL operations that left the store as it was. *)
Definition skip_sql_ops (n : nat) (w : World) : World :=
  {| w_db := w_db w; w_llm_calls := w_llm_calls w;
     w_clock_reads := w_clock_reads w; w_sql_ops := n + w_sql_ops w |}.

(** Computations that read and write the world and may raise. *)
Definition M (A : Type) : Type := World -> result A * World.

Definition ret {A} (a : A) : M A := fun w => (Ok a, w).

Definition raise {A} (e : exn) : M A := fun w => (Raise e, w).

Definition bind {A B} (m : M A) (k : A -> M B) : M B :=
  fun w =>
    match m w with
    | (Ok a, w') => k a w'
    | (Raise e, w') => (Raise e, w')
    end.

Notation "x <- m ;; k" := (bind m (fun x => k))
  (at level 61, m at next level, right associativity).

(** ** More of the store: aggregates ([src/database.py]) *)

(** The WHERE clause shared by [get_messages] and [count_total_tokens]. *)
Definition selected (sid : string) (exclude_summarized : bool) (r : MessageRow) : bool :=
  in_session sid r && (negb exclude_summarized || negb (is_summarized r)).

(** The value SUM adds for a row: a NULL [token_count] is skipped. *)
Definition token_count_or_zero (r : MessageRow) : Z :=
  match m_token_count r with
  | Some n => n
  | None => 0%Z
  end.

(** [SELECT COALESCE(SUM(token_count), 0) FROM messages WHERE session_id = ?]
    with [AND is_summarized = 0] when asked. *)
Definition select_total_tokens (sid : string) (exclude_summarized : bool) (db : Database) : Z :=
  fold_right Z.add 0%Z
    (map token_count_or_zero (filter (selected sid exclude_summarized) (messages_table db))).

(** [SELECT COUNT( * ) FROM messages WHERE session_id = ?] *)
Definition select_message_count (sid : string) (db : Database) : nat :=
  List.length (filter (in_session sid) (messages_table db)).

(** [SELECT COUNT( * ) FROM session_summaries WHERE session_id = ?] *)
Definition select_summary_count (sid : string) (db : Database) : nat :=
  List.length (filter (summary_in_session sid) (summaries_table db)).

(** The dictionary [get_session_stats] returns. *)
Record SessionStats := {
  message_count : nat;
  summary_count : nat;
  stats_total_tokens : Z
}.

(** ** What [model_dump] makes of a summary ([src/schemas.py]) *)

Definition str_list_json (l : list string) : json := JArr (map JStr l).

(** The fields of [UserProfile] and of [SessionSummary], by name, as
    [save_summary] serialises them with [model_dump_json()]. *)
Definition dump_UserProfile (u : UserProfile) : json :=
  JObj [("preferences", str_list_json (preferences u));
        ("constraints", str_list_json (constraints u))].

Definition dump_SessionSummary (s : SessionSummary) : list (string * json) :=
  [("user_profile", dump_UserProfile (user_profile s));
   ("key_facts", str_list_json (key_facts s));
   ("decisions", str_list_json (decisions s));
   ("open_questions", str_list_json (open_questions s));
   ("todos", str_list_json (todos s))].

(** ** Sample collaborators and a sample store, for the examples *)

Definition sample_count_tokens (s : string) : nat := String.length s.

Definition sample_strip (s : string) : string := s.

Definition sample_upper (s : string) : string := s.

(** A decoder that knows one text. *)
Definition sample_json_loads (s : string) : option json :=
  if String.eqb s "{}" then Some (JObj []) else None.

Definition sample_lax_bool (v : json) : option bool := None.

(** A service that always answers [text]. *)
Definition always_answers (text : string) (n : nat) (req : llm_request) : llm_reply :=
  Content text.

(** A service that answers its first [k] calls and fails afterwards. *)
Definition answers_first (k : nat) (text : string) (n : nat) (req : llm_request) : llm_reply :=
  if (n <? k)%nat then Content text else ServiceError.

Definition sample_clock (n : nat) : Z := Z.of_nat n.

(** A wall clock that is set back once, after its fifth reading. *)
Definition clock_set_back (n : nat) : Z :=
  if (n <? 5)%nat then (1000 + Z.of_nat n)%Z else Z.of_nat n.

Definition never_fails (n : nat) : bool := false.

(** Session ["s"] with one exchange, nothing archived. *)
Definition sample_store : Database :=
  {| messages_table :=
       [ {| m_id := 1; m_session_id := "s"; m_role := "user"; m_content := "hello";
            m_timestamp := 0; m_token_count := Some 13%Z; m_metadata := None;
            is_summarized := false |};
         {| m_id := 2; m_session_id := "s"; m_role := "assistant"; m_content := "hi there";
            m_timestamp := 1; m_token_count := Some 21%Z; m_metadata := None;
            is_summarized := false |} ];
     summaries_table := [];
     query_analysis_table := [];
     next_message_id := 3;
     next_summary_id := 1 |}.

Definition sample_world : World :=
  {| w_db := sample_store; w_llm_calls := []; w_clock_reads := 2; w_sql_ops := 0 |}.

(** Session ["s"] after a compaction of its first exchange and one more
    exchange: a summary of the range 0 to 1, and two live messages. *)
Definition sample_compacted_store : Database :=
  {| messages_table :=
       [ {| m_id := 1; m_session_id := "s"; m_role := "user"; m_content := "hello";
            m_timestamp := 0; m_token_count := Some 13%Z; m_metadata := None;
            is_summarized := true |};
         {| m_id := 2; m_session_id := "s"; m_role := "assistant"; m_content := "hi there";
            m_timestamp := 1; m_token_count := Some 21%Z; m_metadata := None;
            is_summarized := true |};
         {| m_id := 3; m_session_id := "s"; m_role := "user"; m_content := "and now?";
            m_timestamp := 3; m_token_count := Some 16%Z; m_metadata := None;
            is_summarized := false |};
         {| m_id := 4; m_session_id := "s"; m_role := "assistant"; m_content := "now this";
            m_timestamp := 4; m_token_count := Some 21%Z; m_metadata := None;
            is_summarized := false |} ];
     summaries_table :=
       [ {| s_id := 1; s_session_id := "s"; summary_json := empty_summary;
            from_message_index := 0; to_message_index := 1; s_timestamp := 2 |} ];
     query_analysis_table := [];
     next_message_id := 5;
     next_summary_id := 2 |}.

Definition sample_compacted_world : World :=
  {| w_db := sample_compacted_store; w_llm_calls := []; w_clock_reads := 5; w_sql_ops := 0 |}.

(** The state the context agent hands to the summarizer in [sample_world]. *)
Definition sample_loaded_state : GraphState :=
  {| session_id := "s"; user_query := "and now?";
     messages :=
       [ {| role := "user"; content := "hello"; msg_timestamp := 0;
            token_count := Some 13%Z; metadata := None |};
         {| role := "assistant"; content := "hi there"; msg_timestamp := 1;
            token_count := Some 21%Z; metadata := None |} ];
     total_tokens := 34; needs_summarization := true;
     state_session_summary := None; query_understanding := None;
     final_response := "" |}.

(** An understanding that asks for a clarification. *)
Definition sample_unclear : QueryUnderstanding :=
  {| original_query := "asdkjh"; is_ambiguous := true; rewritten_query := None;
     possible_interpretations := []; needed_context_from_memory := [];
     clarifying_questions := ["What do you mean?"; "Which project?"];
     final_augmented_context := "" |}.

(** A reply of the query agent's request in which two lists are null and one
    is missing, and a decoder that knows its text. *)
Definition sample_query_reply : list (string * json) :=
  [ ("original_query", JStr "and now?"); ("is_ambiguous", JBool false);
    ("possible_interpretations", JNull); ("clarifying_questions", JNull) ].

Definition sample_reply_loads (s : string) : option json :=
  if String.eqb s "reply" then Some (JObj sample_query_reply) else None.

Section Pipeline.

(** [TokenCounter.count_tokens]: [len(self.encoding.encode(text))]. *)
Variable count_tokens : string -> nat.
(** [str.strip] and [str.upper]. *)
Variable py_strip : string -> string.
Variable py_upper : string -> string.
(** [json.loads]; [None] is [JSONDecodeError]. *)
Variable json_loads : string -> option json.
(** What the [bool] field of a model accepts besides [true] and [false]. *)
Variable lax_bool : json -> option bool.
(** The reply of the generation service to its [n]-th call. *)
Variable llm : nat -> llm_request -> llm_reply.
(** The value of the [n]-th [datetime.now()]. *)
Variable clock : nat -> Z.
(** Whether the [n]-th statement or commit sent to SQLite fails. *)
Variable storage_fails : nat -> bool.
(** [Agents.token_threshold] *)
Variable token_threshold : Z.

Definition now : M Z :=
  fun w => (Ok (clock (w_clock_reads w)), count_clock_read w).

(** [self.llm_structured.invoke([...])] and [llm_normal.invoke([...])],
    then [response.content]. *)
Definition llm_invoke (req : llm_request) : M string :=
  fun w =>
    match llm (List.length (w_llm_calls w)) req with
    | Content text => (Ok text, log_llm_call req w)
    | ServiceError => (Raise GenerationServiceError, log_llm_call req w)
    end.

(** [cursor.execute(...)]: the statement changes the connection's view of
    the store by [effect] and yields [answer] (rows, or [lastrowid]). *)
Definition sql {A} (effect : Database -> Database) (answer : Database -> A) : M A :=
  fun w =>
    if storage_fails (w_sql_ops w)
    then (Raise StorageError, count_sql_op w)
    else (Ok (answer (w_db w)), with_db (effect (w_db w)) (count_sql_op w)).

(** [with self._get_connection() as conn:] runs [body] on a connection,
    commits when it returns and rolls back when it, or the commit,
    raises. *)
Definition with_connection {A} (body : M A) : M A :=
  fun w =>
    match body w with
    | (Ok a, w') =>
        if storage_fails (w_sql_ops w')
        then (Raise StorageError, with_db (w_db w) (count_sql_op w'))
        else (Ok a, count_sql_op w')
    | (Raise e, w') => (Raise e, with_db (w_db w) w')
    end.

(** *** [Database] methods *)

Definition save_message (sid : string) (m : Message) : M Z :=
  with_connection (sql (insert_message sid m) next_message_id).

Definition get_messages (sid : string) (limit : option Z) (exclude_summarized : bool)
    : M (list Message) :=
  with_connection
    (rows <- sql (fun db => db) (select_messages sid limit exclude_summarized);;
     ret (map row_to_message rows)).

Definition get_recent_messages (sid : string) (n : Z) : M (list Message) :=
  with_connection
    (rows <- sql (fun db => db) (select_recent_messages sid n);;
     ret (map row_to_message rows)).

Definition mark_messages_as_summarized (sid : string) (from to : Z) : M unit :=
  with_connection (sql (update_summarized sid from to) (fun _ => tt)).

Definition save_summary (sid : string) (summary : SessionMemoryOutput) : M Z :=
  with_connection
    (summary_id <- sql (insert_summary sid summary) next_summary_id;;
     _ <- sql (update_summarized sid
                 (from_index (message_range_summarized summary))
                 (to_index (message_range_summarized summary)))
              (fun _ => tt);;
     ret summary_id).

Definition get_latest_summary (sid : string) : M (option SessionMemoryOutput) :=
  with_connection
    (row <- sql (fun db => db) (select_latest_summary sid);;
     ret (option_map row_to_summary row)).

Definition get_all_summaries (sid : string) : M (list SessionMemoryOutput) :=
  with_connection
    (rows <- sql (fun db => db) (select_all_summaries sid);;
     ret (map row_to_summary rows)).

Definition clear_session (sid : string) : M unit :=
  with_connection
    (_ <- sql (delete_messages sid) (fun _ => tt);;
     _ <- sql (delete_summaries sid) (fun _ => tt);;
     sql (delete_query_analysis sid) (fun _ => tt)).

Definition delete_session (sid : string) : M unit := clear_session sid.

(** *** [TokenCounter] ([src/utils.py]) *)

Definition count_message_tokens (m : Message) : Z :=
  (Z.of_nat (count_tokens (content m)) + Z.of_nat (count_tokens (role m)) + 4)%Z.

(** [sum(count_message_tokens(msg) for msg in messages)] *)
Definition count_messages_tokens (msgs : list Message) : Z :=
  fold_left (fun acc m => (acc + count_message_tokens m)%Z) msgs 0%Z.

(** *** Parsing the replies of the generation service *)

(** The first lines of both [try] blocks: strip, then drop a fence. *)
Definition strip_fences (response_content : string) : string :=
  let content := py_strip response_content in
  if startswith "```json" content
  then py_strip (replace_with_empty "```" (replace_with_empty "```json" content))
  else if startswith "```" content
  then py_strip (replace_with_empty "```" content)
  else content.

(** The [try] block of [summarizer_agent]; [None] stands for either
    [except] clause being taken. *)
Definition parse_session_summary (response_content : string) : option SessionSummary :=
  match json_loads (strip_fences response_content) with
  | Some (JObj d) => validate_SessionSummary d
  | _ => None
  end.

Definition validate_bool (v : json) : option bool :=
  match v with
  | JBool b => Some b
  | _ => lax_bool v
  end.

Definition validate_QueryUnderstanding (d : list (string * json)) : option QueryUnderstanding :=
  match field_str_required "original_query" d,
        match dict_get "is_ambiguous" d with Some v => validate_bool v | None => None end,
        field_str_optional "rewritten_query" d,
        field_str_list "possible_interpretations" d,
        field_str_list "needed_context_from_memory" d,
        field_str_list "clarifying_questions" d,
        field_str_default "final_augmented_context" d with
  | Some oq, Some amb, Some rq, Some pi, Some nc, Some cq, Some ctx =>
      Some {| original_query := oq; is_ambiguous := amb; rewritten_query := rq;
              possible_interpretations := pi; needed_context_from_memory := nc;
              clarifying_questions := cq; final_augmented_context := ctx |}
  | _, _, _, _, _, _, _ => None
  end.

(** The [try] block of [query_agent]. *)
Definition parse_query_understanding (response_content : string) : option QueryUnderstanding :=
  match json_loads (strip_fences response_content) with
  | Some (JObj d) =>
      validate_QueryUnderstanding
        (none_to_empty_list "clarifying_questions"
           (none_to_empty_list "needed_context_from_memory"
              (none_to_empty_list "possible_interpretations" d)))
  | _ => None
  end.

(** The fallback of both [except] clauses of [query_agent]. *)
Definition fallback_understanding (query recent_context : string) : QueryUnderstanding :=
  {| original_query := query; is_ambiguous := false; rewritten_query := None;
     possible_interpretations := []; needed_context_from_memory := [];
     clarifying_questions := []; final_augmented_context := recent_context |}.

(** ["\n".join([f"{msg.role.upper()}: {msg.content}" for msg in msgs])] *)
Definition transcript (msgs : list Message) : string :=
  join nl (map (fun m => (py_upper (role m) ++ ": " ++ content m)%string) msgs).

(** *** Agents ([src/agents.py]) *)

Definition context_agent (st : GraphState) : M GraphState :=
  msgs <- get_messages (session_id st) None true;;
  let total := count_messages_tokens msgs in
  let needs := (token_threshold <? total)%Z in
  ret (set_context msgs total needs st).

Definition summarizer_agent (st : GraphState) : M GraphState :=
  let sid := session_id st in
  let msgs := messages st in
  match msgs with
  | [] => ret st
  | _ :: _ =>
      previous_summary <- get_latest_summary sid;;
      response <- llm_invoke (SummarizePrompt previous_summary (transcript msgs));;
      let summary :=
        match parse_session_summary response with
        | Some s => s
        | None => empty_summary
        end in
      all_messages <- get_messages sid None false;;
      let total_messages_in_db := Z.of_nat (List.length all_messages) in
      let unsummarized_messages_count := Z.of_nat (List.length msgs) in
      let from := (total_messages_in_db - unsummarized_messages_count)%Z in
      let to := (total_messages_in_db - 1)%Z in
      match validate_MessageRange from to with
      | None => raise ValidationError
      | Some range =>
          ts <- now;;
          let summary_output :=
            {| session_summary := summary;
               message_range_summarized := range;
               timestamp := ts |} in
          _ <- save_summary sid summary_output;;
          _ <- mark_messages_as_summarized sid from to;;
          ret (set_session_summary summary_output st)
      end
  end.

(** The text of the recent window, as [query_agent] builds it. *)
Definition recent_context_of (recent_messages : list Message) : string :=
  let text := transcript recent_messages in
  if str_truthy text then text else "No previous conversation.".

Definition query_agent (st : GraphState) : M GraphState :=
  let sid := session_id st in
  let query := user_query st in
  if str_truthy query then
    recent_messages <- get_recent_messages sid 10;;
    let recent_context := recent_context_of recent_messages in
    summary <- get_latest_summary sid;;
    response <- llm_invoke (QueryPrompt recent_context summary query);;
    let understanding :=
      match parse_query_understanding response with
      | Some qu => qu
      | None => fallback_understanding query recent_context
      end in
    ret (set_query_understanding understanding st)
  else ret st.

(** The condition of the hard stop. *)
Definition hard_stop (qu : QueryUnderstanding) : bool :=
  is_ambiguous qu
  && negb (match rewritten_query qu with Some s => str_truthy s | None => false end)
  && match clarifying_questions qu with [] => false | _ :: _ => true end.

Definition clarification_header : string := ("I need some clarification:" ++ nl ++ nl)%string.

Definition response_agent (st : GraphState) : M GraphState :=
  match query_understanding st with
  | None => ret (set_final_response "I need a query to respond to." st)
  | Some qu =>
      if hard_stop qu then
        let questions := numbered_lines (clarifying_questions qu) in
        ret (set_final_response (clarification_header ++ questions)%string st)
      else
        let effective_query :=
          match rewritten_query qu with
          | Some s => if str_truthy s then s else original_query qu
          | None => original_query qu
          end in
        let context := final_augmented_context qu in
        let has_multiple_interpretations :=
          (1 <? List.length (possible_interpretations qu))%nat in
        let interpretations_text :=
          if has_multiple_interpretations
          then Some (numbered_lines (possible_interpretations qu))
          else None in
        response <- llm_invoke (ResponsePrompt context effective_query interpretations_text);;
        ret (set_final_response response st)
  end.

(** *** The graph ([src/graph.py]) *)

Definition initial_state (sid query : string) : GraphState :=
  {| session_id := sid; user_query := query; messages := [];
     total_tokens := 0; needs_summarization := false;
     state_session_summary := None; query_understanding := None;
     final_response := "" |}.

Definition should_summarize (st : GraphState) : bool := needs_summarization st.

(** [ConversationGraph.run]: context, then the summarizer when the
    conditional edge selects it, then query and response. *)
Definition run (sid query : string) : M GraphState :=
  st1 <- context_agent (initial_state sid query);;
  st2 <- (if should_summarize st1 then summarizer_agent st1 else ret st1);;
  st3 <- query_agent st2;;
  response_agent st3.

(** *** The chat handler ([app.py]) *)

(** [text[:200] + "..." if len(text) > 200 else text].  Python counts
    characters; a [string] counts its elements, one per character for the
    one-byte characters the embedding has. *)
Definition truncate_context (text : string) : string :=
  if (200 <? String.length text)%nat
  then (String.substring 0 200 text ++ "...")%string
  else text.

Definition user_metadata_of (result : GraphState) : option Metadata :=
  match query_understanding result with
  | Some qu =>
      Some (QueryAnalysisMeta
              {| meta_is_ambiguous := is_ambiguous qu;
                 meta_rewritten_query := rewritten_query qu;
                 meta_possible_interpretations := possible_interpretations qu;
                 meta_needed_context_from_memory := needed_context_from_memory qu;
                 meta_clarifying_questions := clarifying_questions qu;
                 meta_final_augmented_context :=
                   truncate_context (final_augmented_context qu) |})
  | None => None
  end.

Definition assistant_metadata_of (result : GraphState) : option Metadata :=
  match state_session_summary result with
  | Some out => Some (SummaryMeta (session_summary out))
  | None => None
  end.

Definition new_message (r c : string) (ts : Z) (md : option Metadata) : Message :=
  let m := {| role := r; content := c; msg_timestamp := ts;
              token_count := Some 0%Z; metadata := md |} in
  {| role := r; content := c; msg_timestamp := ts;
     token_count := Some (count_message_tokens m); metadata := md |}.

(** [if prompt := st.chat_input(...)]: the pipeline runs first, then the
    user message and the assistant message are stored. *)
Definition on_chat_input (sid prompt : string) : M unit :=
  if str_truthy prompt then
    result <- run sid prompt;;
    ts_user <- now;;
    _ <- save_message sid (new_message "user" prompt ts_user (user_metadata_of result));;
    ts_assistant <- now;;
    _ <- save_message sid
           (new_message "assistant" (final_response result) ts_assistant
              (assistant_metadata_of result));;
    ret tt
  else ret tt.

(** What a user of the application can do to the store. *)
Inductive event :=
| ChatInput (sid prompt : string)
| ClearSession (sid : string)
| DeleteSession (sid : string).

Definition handle_event (e : event) : M unit :=
  match e with
  | ChatInput sid prompt => on_chat_input sid prompt
  | ClearSession sid => clear_session sid
  | DeleteSession sid => delete_session sid
  end.

(** The events are handled one after the other; an exception ends the
    handling of its event and leaves the world as it is then. *)
Fixpoint run_events (events : list event) (w : World) : World :=
  match events with
  | [] => w
  | e :: rest => run_events rest (snd (handle_event e w))
  end.

(** *** Predicates used by the statements below *)

(** [sum] of a list of integers. *)
Definition Zsum (l : list Z) : Z := fold_right Z.add 0%Z l.

(** Storage that never fails, and a service that always answers. *)
Definition storage_healthy : Prop := forall n, storage_fails n = false.

Definition service_answers : Prop := forall n req, llm n req <> ServiceError.

(** A clock whose successive readings strictly increase. *)
Definition clock_increasing : Prop := forall i j, (i < j)%nat -> (clock i < clock j)%Z.

(** Consecutive rows cover consecutive ranges. *)
Fixpoint contiguous (rows : list SummaryRow) : Prop :=
  match rows with
  | r1 :: ((r2 :: _) as rest) =>
      from_message_index r2 = (to_message_index r1 + 1)%Z /\ contiguous rest
  | _ => True
  end.

(** The index after the range of the last row; 0 when there is none. *)
Fixpoint next_from (rows : list SummaryRow) : Z :=
  match rows with
  | [] => 0%Z
  | [r] => (to_message_index r + 1)%Z
  | _ :: rest => next_from rest
  end.

Fixpoint nondecreasing (l : list Z) : Prop :=
  match l with
  | [] => True
  | x :: rest => Forall (Z.le x) rest /\ nondecreasing rest
  end.

Fixpoint strictly_increasing (l : list Z) : Prop :=
  match l with
  | [] => True
  | x :: rest => Forall (Z.lt x) rest /\ strictly_increasing rest
  end.

(** A range that starts at 0 or later and does not end before it starts. *)
Definition range_ok (r : SummaryRow) : Prop :=
  (0 <= from_message_index r <= to_message_index r)%Z.

(** The rows of one session: summaries chained, each over a proper range,
    and the archived messages are the first [next_from] ones. *)
Definition session_ok (sid : string) (db : Database) : Prop :=
  let sums := filter (summary_in_session sid) (summaries_table db) in
  let flags := map is_summarized (filter (in_session sid) (messages_table db)) in
  contiguous sums /\
  Forall range_ok sums /\
  exists a b, flags = repeat true a ++ repeat false b /\ Z.of_nat a = next_from sums.

(** The invariant of the store: both tables are in timestamp order, no two
    summaries share a timestamp, every timestamp was read from the clock
    before its [k]-th reading, and every session is [session_ok]. *)
Definition store_inv (db : Database) (k : nat) : Prop :=
  nondecreasing (map m_timestamp (messages_table db)) /\
  Forall (fun r => (m_timestamp r < clock k)%Z) (messages_table db) /\
  strictly_increasing (map s_timestamp (summaries_table db)) /\
  Forall (fun r => (s_timestamp r < clock k)%Z) (summaries_table db) /\
  forall sid, session_ok sid db.

(** The ids in use are distinct and below the next id to be given. *)
Definition ids_fresh (db : Database) : Prop :=
  NoDup (map m_id (messages_table db)) /\
  Forall (fun r => (m_id r < next_message_id db)%Z) (messages_table db).

(** What the rest of the world can see change: the committed store, and how
    many times the clock has been read. *)
Definition view (w : World) : Database * nat := (w_db w, w_clock_reads w).

(** The changes the application makes to the store.  A message is stored
    with the reading of the clock taken just before; a compaction stores a
    summary, stamped likewise, of the range from (stored) - (merged) to
    (stored) - 1 and sets the flags of that range; a session is deleted; or
    the clock alone is read. *)
Inductive store_step : Database * nat -> Database * nat -> Prop :=
| step_tick db k :
    store_step (db, k) (db, S k)
| step_message db k sid m :
    msg_timestamp m = clock k ->
    store_step (db, k) (insert_message sid m db, S k)
| step_compaction db k sid out :
    let stored := Z.of_nat (List.length (filter (in_session sid) (messages_table db))) in
    let merged := Z.of_nat (List.length (select_messages sid None true db)) in
    (1 <= merged)%Z ->
    from_index (message_range_summarized out) = (stored - merged)%Z ->
    to_index (message_range_summarized out) = (stored - 1)%Z ->
    timestamp out = clock k ->
    store_step (db, k)
      (update_summarized sid (from_index (message_range_summarized out))
         (to_index (message_range_summarized out)) (insert_summary sid out db),
       S k)
| step_clear db k sid :
    store_step (db, k)
      (delete_query_analysis sid (delete_summaries sid (delete_messages sid db)), k).

Inductive store_steps : Database * nat -> Database * nat -> Prop :=
| steps_refl v : store_steps v v
| steps_step v1 v2 v3 : store_steps v1 v2 -> store_step v2 v3 -> store_steps v1 v3.

(** The outcome of [m] started in [w]: [Q] when it returns, [E] when it
    raises. *)
Definition outcome {A} (m : M A) (w : World)
    (Q : A -> World -> Prop) (E : exn -> World -> Prop) : Prop :=
  match m w with
  | (Ok a, w') => Q a w'
  | (Raise e, w') => E e w'
  end.

(** [w'] has the store and the clock of [w]. *)
Definition same_store (w w' : World) : Prop :=
  w_db w' = w_db w /\ w_clock_reads w' = w_clock_reads w.



Definition unique_ids (db : Database) : Prop := NoDup (map m_id (messages_table db)).

(** The first two nodes of the graph: the trigger check and, when it asks
    for it, the compaction. *)
Definition compaction_stages (sid query : string) : M GraphState :=
  st1 <- context_agent (initial_state sid query);;
  if should_summarize st1 then summarizer_agent st1 else ret st1.

(** "The hard stop produces a response consisting solely of the enumerated
    clarifying questions; no generation call is made." *)
Definition hard_stop_answers_with_questions_only : Prop :=
  forall st qu w,
    query_understanding st = Some qu ->
    is_ambiguous qu = true ->
    (rewritten_query qu = None \/ rewritten_query qu = Some "") ->
    clarifying_questions qu <> [] ->
    exists st',
      response_agent st w = (Ok st', w) /\
      final_response st' = spec_enumerated 1 (clarifying_questions qu).

(** "For any session, consecutive summaries' ranges satisfy
    summary[i+1].from_index == summary[i].to_index + 1", for the summaries
    of a session as [get_all_summaries] lists them, in every store the
    application reaches by handling events one after the other. *)
Definition consecutive_summaries_contiguous : Prop :=
  forall events sid i s1 s2,
    let rows := select_all_summaries sid (w_db (run_events events initial_world)) in
    nth_error rows i = Some s1 ->
    nth_error rows (S i) = Some s2 ->
    from_message_index s2 = (to_message_index s1 + 1)%Z.

(** "A turn in which a call to the generation service raises writes no
    summary record and no archive flag." *)
Definition failed_generation_writes_nothing : Prop :=
  forall sid query w,
    fst (run sid query w) = Raise GenerationServiceError ->
    w_db (snd (run sid query w)) = w_db w.

(** *** More [Database] methods, and the sidebar of [app.py] *)

Definition count_total_tokens (sid : string) (exclude_summarized : bool) : M Z :=
  with_connection (sql (fun db => db) (select_total_tokens sid exclude_summarized)).

(** [get_session_stats] counts on its own connection and, before that
    connection is closed, calls [count_total_tokens], which opens one more. *)
Definition get_session_stats (sid : string) : M SessionStats :=
  with_connection
    (messages_n <- sql (fun db => db) (select_message_count sid);;
     summaries_n <- sql (fun db => db) (select_summary_count sid);;
     tokens <- count_total_tokens sid false;;
     ret {| message_count := messages_n; summary_count := summaries_n;
            stats_total_tokens := tokens |}).

(** The sidebar: the tokens of the current context and whether the warning
    "Summary on next message!" is shown.  Between the two the sidebar draws
    a progress bar of [min(current_tokens / threshold, 1.0)], which needs a
    threshold above 0; the definition follows the sidebar for such a
    threshold. *)
Definition sidebar_context (sid : string) : M (Z * bool) :=
  current_msgs <- get_messages sid None true;;
  let current_tokens := count_messages_tokens current_msgs in
  ret (current_tokens, (token_threshold <? current_tokens)%Z).

(** The session an event of the application is about. *)
Definition event_session (e : event) : string :=
  match e with
  | ChatInput sid _ => sid
  | ClearSession sid => sid
  | DeleteSession sid => sid
  end.

(** ** The helpers on small inputs *)

Example join_two_lines : join nl ["a"; "b"] = ("a" ++ nl ++ "b")%string.
Proof. reflexivity. Qed.

Example fence_removed :
  replace_with_empty "```" (replace_with_empty "```json" "```json{}```") = "{}".
Proof. reflexivity. Qed.

Example occurrences_do_not_overlap : replace_with_empty "aa" "aaa" = "a".
Proof. reflexivity. Qed.

Example two_numbered_lines :
  numbered_lines ["What?"; "Which?"] = ("1. What?" ++ nl ++ "2. Which?")%string.
Proof. reflexivity. Qed.

Example order_by_keeps_ties_in_place :
  order_by fst [(2%Z, "a"); (1%Z, "b"); (2%Z, "c"); (1%Z, "d")]
  = [(1%Z, "b"); (1%Z, "d"); (2%Z, "a"); (2%Z, "c")].
Proof. reflexivity. Qed.

Example limit_offset_window : limit_offset 2 1 [10; 20; 30; 40] = [20; 30].
Proof. reflexivity. Qed.

Example negative_limit_is_no_limit : limit_offset (-1) 1 [10; 20; 30; 40] = [20; 30; 40].
Proof. reflexivity. Qed.

Example negative_index_is_refused : validate_MessageRange (-1) 3 = None.
Proof. reflexivity. Qed.

Example profile_alone_is_a_summary :
  validate_SessionSummary [("user_profile", JObj [])] = Some empty_summary.
Proof. reflexivity. Qed.

Example profile_is_required : validate_SessionSummary [("key_facts", JArr [])] = None.
Proof. reflexivity. Qed.

Example facts_must_be_strings :
  validate_SessionSummary [("user_profile", JObj []); ("key_facts", JArr [JNum "1"])] = None.
Proof. reflexivity. Qed.

Example first_row_archived :
  map is_summarized (messages_table (update_summarized "s" 0 0 sample_store)) = [true; false].
Proof. reflexivity. Qed.

Example whole_log_of_sample_store :
  map m_id (select_messages "s" None false sample_store) = [1%Z; 2%Z].
Proof. reflexivity. Qed.

(** ** Lists, ordering and SQL statements *)

Lemma insert_by_length {A} (key : A -> Z) (x : A) (l : list A) :
  List.length (insert_by key x l) = S (List.length l).
Proof.
  induction l as [|y l IH]; simpl; [reflexivity|].
  destruct (key x <=? key y)%Z; simpl; [reflexivity|now rewrite IH].
Qed.

Lemma order_by_length {A} (key : A -> Z) (l : list A) :
  List.length (order_by key l) = List.length l.
Proof.
  induction l as [|x l IH]; simpl; [reflexivity|].
  now rewrite insert_by_length, IH.
Qed.

Lemma insert_by_In {A} (key : A -> Z) (x y : A) (l : list A) :
  In y (insert_by key x l) <-> y = x \/ In y l.
Proof.
  induction l as [|z l IH]; simpl.
  - intuition congruence.
  - destruct (key x <=? key z)%Z; simpl; [intuition congruence|].
    rewrite IH. intuition congruence.
Qed.

Lemma order_by_In {A} (key : A -> Z) (y : A) (l : list A) :
  In y (order_by key l) <-> In y l.
Proof.
  induction l as [|x l IH]; simpl; [tauto|].
  rewrite insert_by_In, IH. intuition congruence.
Qed.

(** A list already in order is returned as it is. *)
Lemma order_by_sorted {A} (key : A -> Z) (l : list A) :
  nondecreasing (map key l) -> order_by key l = l.
Proof.
  induction l as [|x l IH]; simpl; [reflexivity|].
  intros [Hx Hl]. rewrite (IH Hl).
  destruct l as [|y l]; simpl; [reflexivity|].
  simpl in Hx. inversion Hx as [|? ? Hxy _]; subst.
  apply Z.leb_le in Hxy. now rewrite Hxy.
Qed.

Lemma insert_by_map {A} (key : A -> Z) (g : A -> A) (x : A) (l : list A) :
  (forall a, key (g a) = key a) ->
  insert_by key (g x) (map g l) = map g (insert_by key x l).
Proof.
  intros Hg. induction l as [|y l IH]; simpl; [reflexivity|].
  rewrite !Hg. destruct (key x <=? key y)%Z; simpl; [reflexivity|now rewrite IH].
Qed.

(** Ordering commutes with an update that keeps the key. *)
Lemma order_by_map {A} (key : A -> Z) (g : A -> A) (l : list A) :
  (forall a, key (g a) = key a) ->
  order_by key (map g l) = map g (order_by key l).
Proof.
  intros Hg. induction l as [|x l IH]; simpl; [reflexivity|].
  now rewrite IH, insert_by_map.
Qed.

Lemma filter_map_commute {A} (p : A -> bool) (g : A -> A) (l : list A) :
  (forall a, p (g a) = p a) -> filter p (map g l) = map g (filter p l).
Proof.
  intros Hg. induction l as [|x l IH]; simpl; [reflexivity|].
  rewrite Hg. destruct (p x); simpl; now rewrite IH.
Qed.

Lemma nondecreasing_filter {A} (key : A -> Z) (p : A -> bool) (l : list A) :
  nondecreasing (map key l) -> nondecreasing (map key (filter p l)).
Proof.
  induction l as [|x l IH]; simpl; [tauto|].
  intros [Hx Hl]. destruct (p x); simpl; [|now apply IH].
  split; [|now apply IH].
  rewrite Forall_forall in *. intros t Ht.
  apply Hx. rewrite in_map_iff in *. destruct Ht as [r [Hr Hin]].
  exists r. split; [assumption|]. now apply filter_In in Hin.
Qed.

Lemma nondecreasing_snoc (l : list Z) (x : Z) :
  nondecreasing l -> Forall (fun y => (y <= x)%Z) l -> nondecreasing (l ++ [x]).
Proof.
  induction l as [|y l IH]; simpl.
  - intros _ _. split; [constructor|exact I].
  - intros [Hy Hl] Hall. inversion Hall as [|? ? Hyx Hall']; subst.
    split; [|now apply IH].
    apply Forall_app. split; [assumption|]. constructor; [assumption|constructor].
Qed.

Lemma strictly_increasing_filter {A} (key : A -> Z) (p : A -> bool) (l : list A) :
  strictly_increasing (map key l) -> strictly_increasing (map key (filter p l)).
Proof.
  induction l as [|x l IH]; simpl; [trivial|].
  intros [Hx Hl]. destruct (p x); simpl; [|now apply IH].
  split; [|now apply IH].
  rewrite Forall_forall in *. intros t Ht.
  apply Hx. rewrite in_map_iff in *. destruct Ht as [r [Hr Hin]].
  exists r. split; [assumption|]. now apply filter_In in Hin.
Qed.

Lemma strictly_increasing_snoc (l : list Z) (x : Z) :
  strictly_increasing l -> Forall (fun y => (y < x)%Z) l -> strictly_increasing (l ++ [x]).
Proof.
  induction l as [|y l IH]; simpl.
  - intros _ _. split; [constructor|exact I].
  - intros [Hy Hl] Hall. inversion Hall as [|? ? Hyx Hall']; subst.
    split; [|now apply IH].
    apply Forall_app. split; [assumption|]. constructor; [assumption|constructor].
Qed.

(** A row whose key is above all the others is placed last. *)
Lemma insert_by_last {A} (key : A -> Z) (a : A) (s : list A) :
  Forall (fun y => (key y < key a)%Z) s -> insert_by key a s = s ++ [a].
Proof.
  induction s as [|y s IH]; intros H; [reflexivity|].
  inversion H as [|? ? Hy Hs]; subst. cbn [insert_by].
  replace (key a <=? key y)%Z with false by (symmetry; apply Z.leb_gt; assumption).
  now rewrite (IH Hs).
Qed.

(** Rows in strictly increasing order of a key are reversed by the
    descending order, and given back by the index read backwards. *)
Lemma order_by_desc_increasing {A} (key : A -> Z) (l : list A) :
  strictly_increasing (map key l) -> order_by_desc key l = rev l.
Proof.
  unfold order_by_desc. induction l as [|x l IH]; [reflexivity|].
  cbn [map strictly_increasing]. intros [Hx Hl]. cbn [order_by rev].
  rewrite (IH Hl). apply insert_by_last.
  rewrite Forall_forall. intros y Hy. apply in_rev in Hy.
  rewrite Forall_forall in Hx.
  specialize (Hx (key y) (in_map key _ _ Hy)). lia.
Qed.

Lemma Zsum_fold_left {A} (f : A -> Z) (l : list A) (acc : Z) :
  fold_left (fun a x => (a + f x)%Z) l acc = (acc + Zsum (map f l))%Z.
Proof.
  revert acc. induction l as [|x l IH]; intros acc; simpl.
  - unfold Zsum. simpl. lia.
  - rewrite IH. unfold Zsum. simpl. lia.
Qed.

Lemma count_messages_tokens_sum (msgs : list Message) :
  count_messages_tokens msgs = Zsum (map count_message_tokens msgs).
Proof.
  unfold count_messages_tokens. now rewrite Zsum_fold_left.
Qed.

(** ** The store methods when storage is healthy *)

Section Healthy.

Hypothesis healthy : storage_healthy.

(** Every statement and every commit goes through. *)
Ltac no_fault := repeat (rewrite healthy; simpl).

Lemma get_messages_healthy sid limit exclude w :
  get_messages sid limit exclude w =
  (Ok (map row_to_message (select_messages sid limit exclude (w_db w))),
   skip_sql_ops 2 w).
Proof.
  unfold get_messages, with_connection, bind, sql, ret.
  no_fault. reflexivity.
Qed.

Lemma get_recent_messages_healthy sid n w :
  get_recent_messages sid n w =
  (Ok (map row_to_message (select_recent_messages sid n (w_db w))), skip_sql_ops 2 w).
Proof.
  unfold get_recent_messages, with_connection, bind, sql, ret.
  no_fault. reflexivity.
Qed.

Lemma get_latest_summary_healthy sid w :
  get_latest_summary sid w =
  (Ok (option_map row_to_summary (select_latest_summary sid (w_db w))), skip_sql_ops 2 w).
Proof.
  unfold get_latest_summary, with_connection, bind, sql, ret.
  no_fault. reflexivity.
Qed.

Lemma save_summary_healthy sid s w :
  save_summary sid s w =
  (Ok (next_summary_id (w_db w)),
   with_db (update_summarized sid (from_index (message_range_summarized s))
              (to_index (message_range_summarized s))
              (insert_summary sid s (w_db w)))
           (skip_sql_ops 3 w)).
Proof.
  unfold save_summary, with_connection, bind, sql, ret.
  no_fault. reflexivity.
Qed.

Lemma mark_messages_as_summarized_healthy sid from to w :
  mark_messages_as_summarized sid from to w =
  (Ok tt, with_db (update_summarized sid from to (w_db w)) (skip_sql_ops 2 w)).
Proof.
  unfold mark_messages_as_summarized, with_connection, bind, sql, ret.
  no_fault. reflexivity.
Qed.

Lemma save_message_healthy sid m w :
  save_message sid m w =
  (Ok (next_message_id (w_db w)), with_db (insert_message sid m (w_db w)) (skip_sql_ops 2 w)).
Proof.
  unfold save_message, with_connection, bind, sql, ret.
  no_fault. reflexivity.
Qed.

Lemma context_agent_healthy st w :
  context_agent st w =
  (Ok (let msgs := map row_to_message (select_messages (session_id st) None true (w_db w)) in
       set_context msgs (count_messages_tokens msgs)
         (token_threshold <? count_messages_tokens msgs)%Z st),
   skip_sql_ops 2 w).
Proof.
  unfold context_agent, bind. rewrite get_messages_healthy. reflexivity.
Qed.

End Healthy.

(** The rows selected with [exclude_summarized] are the rows of the session
    whose flag is not set. *)
Lemma select_unsummarized_In sid db r :
  In r (select_messages sid None true db) <->
  In r (messages_table db) /\ m_session_id r = sid /\ is_summarized r = false.
Proof.
  unfold select_messages. rewrite order_by_In, filter_In. unfold in_session. simpl.
  rewrite andb_true_iff, String.eqb_eq, negb_true_iff. reflexivity.
Qed.

(** ** The UPDATE that archives a range *)

Lemma mark_row_id sid ids r : m_id (mark_row sid ids r) = m_id r.
Proof. unfold mark_row. now destruct (in_session sid r && mem_id (m_id r) ids). Qed.

Lemma mark_row_timestamp sid ids r : m_timestamp (mark_row sid ids r) = m_timestamp r.
Proof. unfold mark_row. now destruct (in_session sid r && mem_id (m_id r) ids). Qed.

Lemma mark_row_in_session sid ids s r : in_session s (mark_row sid ids r) = in_session s r.
Proof. unfold mark_row. now destruct (in_session sid r && mem_id (m_id r) ids). Qed.

Lemma mark_row_message sid ids r : row_to_message (mark_row sid ids r) = row_to_message r.
Proof. unfold mark_row. now destruct (in_session sid r && mem_id (m_id r) ids). Qed.

Lemma mark_row_idempotent sid ids r :
  mark_row sid ids (mark_row sid ids r) = mark_row sid ids r.
Proof.
  unfold mark_row at 2. destruct (in_session sid r && mem_id (m_id r) ids) eqn:H.
  - unfold mark_row. now destruct (_ && _).
  - unfold mark_row. now rewrite H.
Qed.

(** A row of another session is left as it is. *)
Lemma mark_row_other sid ids r : in_session sid r = false -> mark_row sid ids r = r.
Proof. unfold mark_row. now intros ->. Qed.

Lemma mark_row_flag sid ids r :
  is_summarized (mark_row sid ids r)
  = is_summarized r || (in_session sid r && mem_id (m_id r) ids).
Proof.
  unfold mark_row. destruct (in_session sid r && mem_id (m_id r) ids); simpl.
  - now rewrite orb_true_r.
  - now rewrite orb_false_r.
Qed.

Lemma limit_offset_map {A B} (g : A -> B) lim off (l : list A) :
  limit_offset lim off (map g l) = map g (limit_offset lim off l).
Proof.
  unfold limit_offset. rewrite skipn_map.
  destruct (lim <? 0)%Z; [reflexivity|]. now rewrite firstn_map.
Qed.

(** The log of a session after the UPDATE: the same rows in the same
    order, each one marked or not. *)
Lemma session_messages_update s sid from to db :
  session_messages s (update_summarized sid from to db)
  = map (mark_row sid (range_ids sid from to db)) (session_messages s db).
Proof.
  unfold session_messages, update_summarized. cbn [messages_table].
  rewrite filter_map_commute by (intros; apply mark_row_in_session).
  apply order_by_map. intros; apply mark_row_timestamp.
Qed.

Lemma range_ids_update s from' to' sid from to db :
  range_ids s from' to' (update_summarized sid from to db) = range_ids s from' to' db.
Proof.
  unfold range_ids. rewrite session_messages_update, limit_offset_map, map_map.
  apply map_ext. intros; apply mark_row_id.
Qed.

(** Setting the flags of a range a second time changes nothing. *)
Lemma update_summarized_idempotent sid from to db :
  update_summarized sid from to (update_summarized sid from to db)
  = update_summarized sid from to db.
Proof.
  unfold update_summarized at 1. rewrite range_ids_update.
  unfold update_summarized. cbn [messages_table summaries_table query_analysis_table
                                 next_message_id next_summary_id].
  rewrite map_map. f_equal. apply map_ext. intros; apply mark_row_idempotent.
Qed.


Lemma insert_by_perm {A} (key : A -> Z) (x : A) (l : list A) :
  Permutation (insert_by key x l) (x :: l).
Proof.
  induction l as [|y l IH]; simpl; [reflexivity|].
  destruct (key x <=? key y)%Z; [reflexivity|].
  rewrite IH. apply perm_swap.
Qed.

Lemma order_by_perm {A} (key : A -> Z) (l : list A) : Permutation (order_by key l) l.
Proof.
  induction l as [|x l IH]; simpl; [reflexivity|].
  rewrite insert_by_perm. now constructor.
Qed.

Lemma Zsum_perm (l l' : list Z) : Permutation l l' -> Zsum l = Zsum l'.
Proof.
  unfold Zsum. induction 1; simpl; lia.
Qed.

Lemma NoDup_map_filter {A B} (g : A -> B) (p : A -> bool) (l : list A) :
  NoDup (map g l) -> NoDup (map g (filter p l)).
Proof.
  induction l as [|x l IH]; simpl; [trivial|].
  intros H. inversion H as [|? ? Hx Hl]; subst.
  destruct (p x); simpl; [|now apply IH].
  constructor; [|now apply IH].
  intros Hin. apply Hx. rewrite in_map_iff in *.
  destruct Hin as [y [Hy Hin]]. exists y. split; [assumption|].
  now apply filter_In in Hin.
Qed.


Lemma mem_id_In i ids : mem_id i ids = true <-> In i ids.
Proof.
  unfold mem_id. rewrite existsb_exists. split.
  - intros [x [Hx Heq]]. apply Z.eqb_eq in Heq. now subst.
  - intros H. exists i. split; [assumption|apply Z.eqb_refl].
Qed.

(** The rows selected by [LIMIT to - from + 1 OFFSET from] are the rows at
    the positions [from] to [to]. *)
Lemma limit_offset_nth {A} (l : list A) (from to : Z) (i : nat) (x : A) :
  (0 <= from)%Z -> (from <= to + 1)%Z ->
  nth_error (limit_offset (to - from + 1) from l) i = Some x <->
  nth_error l (Z.to_nat from + i) = Some x /\ (from + Z.of_nat i <= to)%Z.
Proof.
  intros Hfrom Hto. unfold limit_offset.
  replace (to - from + 1 <? 0)%Z with false by (symmetry; apply Z.ltb_ge; lia).
  rewrite nth_error_firstn, nth_error_skipn.
  destruct (Nat.ltb i (Z.to_nat (to - from + 1))) eqn:Hlt.
  - apply Nat.ltb_lt in Hlt. split; [intros H; split; [assumption|lia]|].
    intros [H _]. exact H.
  - apply Nat.ltb_ge in Hlt. split; [discriminate|]. intros [_ H]. lia.
Qed.



Lemma Zsum_filter {A} (f : A -> Z) (p : A -> bool) (l : list A) :
  Zsum (map f (filter p l)) = Zsum (map (fun x => if p x then f x else 0%Z) l).
Proof.
  unfold Zsum. induction l as [|x l IH]; simpl; [reflexivity|].
  destruct (p x); simpl; lia.
Qed.

(** The live token count, as a sum over the whole table in which a row of
    another session, or an archived row, counts for 0. *)
Lemma live_tokens_over_table sid db :
  count_messages_tokens (map row_to_message (select_messages sid None true db))
  = Zsum (map (fun r => if in_session sid r && negb (is_summarized r)
                        then count_message_tokens (row_to_message r) else 0%Z)
              (messages_table db)).
Proof.
  rewrite count_messages_tokens_sum, map_map. unfold select_messages.
  rewrite (Zsum_perm _ _ (Permutation_map _ (order_by_perm _ _))).
  rewrite Zsum_filter. reflexivity.
Qed.

(** ** The agents when storage is healthy *)

Lemma select_all_length sid db :
  List.length (select_messages sid None false db)
  = List.length (filter (in_session sid) (messages_table db)).
Proof.
  unfold select_messages. rewrite order_by_length. f_equal.
  apply filter_ext. intros r. cbn [negb orb]. apply andb_true_r.
Qed.

Lemma select_unsummarized_length sid db :
  List.length (select_messages sid None true db)
  = List.length (filter (fun r => negb (is_summarized r))
                        (filter (in_session sid) (messages_table db))).
Proof.
  unfold select_messages. rewrite order_by_length. f_equal.
  induction (messages_table db) as [|r l IH]; [reflexivity|].
  cbn [filter negb orb]. cbn [filter negb orb] in IH.
  destruct (in_session sid r); cbn [andb filter]; [|assumption].
  destruct (is_summarized r); cbn [negb]; [assumption|now rewrite IH].
Qed.

Lemma filter_length_le {A} (p : A -> bool) (l : list A) :
  (List.length (filter p l) <= List.length l)%nat.
Proof.
  induction l as [|x l IH]; simpl; [lia|]. destruct (p x); simpl; lia.
Qed.

(** The summarizer on a non-empty list of messages, when the service
    answers [text] and the computed range is valid. *)
Lemma summarizer_agent_healthy st w text :
  storage_healthy ->
  let sid := session_id st in
  let req := SummarizePrompt (option_map row_to_summary (select_latest_summary sid (w_db w)))
               (transcript (messages st)) in
  let total := Z.of_nat (List.length (filter (in_session sid) (messages_table (w_db w)))) in
  let from := (total - Z.of_nat (List.length (messages st)))%Z in
  let to := (total - 1)%Z in
  let out := {| session_summary :=
                  match parse_session_summary text with
                  | Some s => s
                  | None => empty_summary
                  end;
                message_range_summarized := {| from_index := from; to_index := to |};
                timestamp := clock (w_clock_reads w) |} in
  messages st <> [] ->
  llm (List.length (w_llm_calls w)) req = Content text ->
  (0 <= from)%Z -> (0 <= to)%Z ->
  exists w',
    summarizer_agent st w = (Ok (set_session_summary out st), w') /\
    w_db w' = update_summarized sid from to (insert_summary sid out (w_db w)) /\
    w_llm_calls w' = w_llm_calls w ++ [req] /\
    w_clock_reads w' = S (w_clock_reads w).
Proof.
  intros healthy sid req total from to out Hne Hllm Hfrom Hto.
  unfold summarizer_agent. destruct (messages st) as [|m ms] eqn:Hmsgs; [congruence|].
  fold sid. unfold bind.
  rewrite (get_latest_summary_healthy healthy).
  unfold llm_invoke. cbn [w_llm_calls w_db skip_sql_ops].
  fold req. fold req in Hllm. rewrite Hllm.
  rewrite (get_messages_healthy healthy).
  cbn [w_db skip_sql_ops log_llm_call].
  rewrite length_map, select_all_length.
  fold total. fold from to.
  unfold validate_MessageRange.
  replace (0 <=? from)%Z with true by (symmetry; apply Z.leb_le; assumption).
  replace (0 <=? to)%Z with true by (symmetry; apply Z.leb_le; assumption).
  cbn [andb]. unfold now. cbn [w_clock_reads skip_sql_ops log_llm_call].
  fold out.
  rewrite (save_summary_healthy healthy).
  rewrite (mark_messages_as_summarized_healthy healthy).
  unfold ret. eexists. split; [reflexivity|].
  cbn [w_db w_llm_calls w_clock_reads with_db skip_sql_ops count_clock_read log_llm_call
       message_range_summarized from_index to_index].
  split; [|split; reflexivity].
  rewrite update_summarized_idempotent. reflexivity.
Qed.

(** With no faults in sight the query agent and the response agent return
    whenever the service answers; neither writes to the store. *)
Lemma query_agent_healthy st w :
  storage_healthy -> service_answers ->
  exists st' w',
    query_agent st w = (Ok st', w') /\ w_db w' = w_db w /\
    state_session_summary st' = state_session_summary st.
Proof.
  intros healthy answers. unfold query_agent.
  destruct (str_truthy (user_query st)); [|unfold ret; eauto].
  unfold bind. rewrite (get_recent_messages_healthy healthy).
  rewrite (get_latest_summary_healthy healthy).
  unfold llm_invoke.
  match goal with |- context [llm ?n ?r] => destruct (llm n r) eqn:Hllm end.
  - unfold ret. eexists. eexists. split; [reflexivity|]. split; reflexivity.
  - exfalso. eapply answers. eassumption.
Qed.

Lemma response_agent_healthy st w :
  service_answers ->
  exists st' w',
    response_agent st w = (Ok st', w') /\ w_db w' = w_db w /\
    state_session_summary st' = state_session_summary st.
Proof.
  intros answers. unfold response_agent.
  destruct (query_understanding st) as [qu|]; [|unfold ret; eauto].
  destruct (hard_stop qu); [unfold ret; eauto|].
  unfold bind, llm_invoke.
  match goal with |- context [llm ?n ?r] => destruct (llm n r) eqn:Hllm end.
  - unfold ret. eexists. eexists. split; [reflexivity|]. split; reflexivity.
  - exfalso. eapply answers. eassumption.
Qed.


(** ** The graph *)

Lemma run_stages sid query w :
  run sid query w
  = (st2 <- compaction_stages sid query;; st3 <- query_agent st2;; response_agent st3) w.
Proof.
  unfold run, compaction_stages, bind.
  destruct (context_agent (initial_state sid query) w) as [[st1|e] w1]; [|reflexivity].
  reflexivity.
Qed.

Lemma context_agent_fields st w st' w' :
  context_agent st w = (Ok st', w') ->
  session_id st' = session_id st /\ user_query st' = user_query st /\
  query_understanding st' = query_understanding st.
Proof.
  unfold context_agent, bind, ret.
  destruct (get_messages (session_id st) None true w) as [[msgs|e] w1]; [|discriminate].
  intros H. injection H as <- _. repeat split.
Qed.

Lemma summarizer_agent_fields st w st' w' :
  summarizer_agent st w = (Ok st', w') ->
  session_id st' = session_id st /\ user_query st' = user_query st /\
  query_understanding st' = query_understanding st.
Proof.
  unfold summarizer_agent, bind, ret, raise.
  destruct (messages st) as [|m ms].
  { intros H. injection H as <- _. repeat split. }
  destruct (get_latest_summary (session_id st) w) as [[prev|e] w1]; [|discriminate].
  destruct (llm_invoke _ w1) as [[response|e] w2]; [|discriminate].
  destruct (get_messages (session_id st) None false w2) as [[all|e] w3]; [|discriminate].
  destruct (validate_MessageRange _ _) as [range|]; [|discriminate].
  destruct (now w3) as [[ts|e] w4]; [|discriminate].
  destruct (save_summary _ _ w4) as [[id|e] w5]; [|discriminate].
  destruct (mark_messages_as_summarized _ _ _ w5) as [[u|e] w6]; [|discriminate].
  intros H. injection H as <- _. repeat split.
Qed.

Lemma compaction_stages_fields sid query w st2 w2 :
  compaction_stages sid query w = (Ok st2, w2) ->
  session_id st2 = sid /\ user_query st2 = query /\ query_understanding st2 = None.
Proof.
  unfold compaction_stages, bind.
  destruct (context_agent (initial_state sid query) w) as [[st1|e] w1] eqn:H1; [|discriminate].
  apply context_agent_fields in H1. cbn [initial_state session_id user_query query_understanding] in H1.
  destruct H1 as [Hs [Hq Hu]].
  destruct (should_summarize st1).
  - intros H. apply summarizer_agent_fields in H. intuition congruence.
  - unfold ret. intros H. injection H as <- _. auto.
Qed.

Lemma str_truthy_false s : str_truthy s = false <-> s = "".
Proof.
  unfold str_truthy. rewrite negb_false_iff. apply String.eqb_eq.
Qed.

Lemma hard_stop_true qu :
  hard_stop qu = true <->
  is_ambiguous qu = true /\
  (rewritten_query qu = None \/ rewritten_query qu = Some "") /\
  clarifying_questions qu <> [].
Proof.
  unfold hard_stop. rewrite !andb_true_iff, negb_true_iff.
  destruct (rewritten_query qu) as [s|]; destruct (clarifying_questions qu) as [|q qs];
    try rewrite str_truthy_false.
  - split; [intros [_ H]; discriminate H|intros [_ [_ H]]; now elim H].
  - split.
    + intros [[Ha ->] _]. split; [exact Ha|]. split; [now right|discriminate].
    + intros [Ha [[H|H] _]]; [discriminate H|]. injection H as ->. now repeat split.
  - split; [intros [_ H]; discriminate H|intros [_ [_ H]]; now elim H].
  - split.
    + intros [[Ha _] _]. split; [exact Ha|]. split; [now left|discriminate].
    + intros [Ha _]. now repeat split.
Qed.

(** The lines the response agent builds are the enumeration of the
    specification. *)
Lemma enumerate_from_enumerated (k : nat) (xs : list string) :
  join nl (enumerate_from k xs) = spec_enumerated (S k) xs.
Proof.
  revert k. induction xs as [|q rest IH]; intros k; [reflexivity|].
  destruct rest as [|q2 rest'].
  - cbn [enumerate_from join spec_enumerated]. rewrite Nat.add_1_r. reflexivity.
  - change (join nl (enumerate_from k (q :: q2 :: rest')))
      with ((str_of_nat (k + 1) ++ ". " ++ q) ++ nl
            ++ join nl (enumerate_from (S k) (q2 :: rest')))%string.
    rewrite IH, Nat.add_1_r. reflexivity.
Qed.

Lemma hard_stop_text (xs : list string) :
  (clarification_header ++ numbered_lines xs)%string
  = ("I need some clarification:" ++ String (ascii_of_nat 10) EmptyString
     ++ String (ascii_of_nat 10) EmptyString ++ spec_enumerated 1 xs)%string.
Proof.
  unfold numbered_lines. rewrite enumerate_from_enumerated. reflexivity.
Qed.

(** ** Store methods under arbitrary storage faults *)

(** Case analysis on every fault a store method can meet. *)
Ltac fault_cases :=
  repeat match goal with
         | |- context [storage_fails ?n] =>
             destruct (storage_fails n);
             cbn [w_db w_clock_reads with_db count_sql_op w_sql_ops]
         end.

Lemma same_store_refl w : same_store w w.
Proof. split; reflexivity. Qed.

Lemma same_store_trans w1 w2 w3 : same_store w1 w2 -> same_store w2 w3 -> same_store w1 w3.
Proof. unfold same_store. intuition congruence. Qed.

Lemma get_messages_outcome sid limit exclude w :
  outcome (get_messages sid limit exclude) w
    (fun msgs w' =>
       same_store w w' /\
       msgs = map row_to_message (select_messages sid limit exclude (w_db w)))
    (fun _ w' => same_store w w').
Proof.
  unfold outcome, get_messages, with_connection, bind, sql, ret, same_store.
  fault_cases; auto.
Qed.

Lemma get_recent_messages_outcome sid n w :
  outcome (get_recent_messages sid n) w (fun _ w' => same_store w w') (fun _ w' => same_store w w').
Proof.
  unfold outcome, get_recent_messages, with_connection, bind, sql, ret, same_store.
  fault_cases; auto.
Qed.

Lemma get_latest_summary_outcome sid w :
  outcome (get_latest_summary sid) w (fun _ w' => same_store w w') (fun _ w' => same_store w w').
Proof.
  unfold outcome, get_latest_summary, with_connection, bind, sql, ret, same_store.
  fault_cases; auto.
Qed.

Lemma llm_invoke_outcome req w :
  outcome (llm_invoke req) w (fun _ w' => same_store w w') (fun _ w' => same_store w w').
Proof.
  unfold outcome, llm_invoke, same_store.
  destruct (llm _ req); cbn [w_db w_clock_reads log_llm_call]; auto.
Qed.

Lemma save_message_outcome sid m w :
  outcome (save_message sid m) w
    (fun _ w' => w_db w' = insert_message sid m (w_db w)
                 /\ w_clock_reads w' = w_clock_reads w)
    (fun _ w' => same_store w w').
Proof.
  unfold outcome, save_message, with_connection, sql, same_store.
  fault_cases; auto.
Qed.

Lemma save_summary_outcome sid s w :
  outcome (save_summary sid s) w
    (fun _ w' =>
       w_db w' = update_summarized sid (from_index (message_range_summarized s))
                   (to_index (message_range_summarized s)) (insert_summary sid s (w_db w))
       /\ w_clock_reads w' = w_clock_reads w)
    (fun _ w' => same_store w w').
Proof.
  unfold outcome, save_summary, with_connection, bind, sql, ret, same_store.
  fault_cases; auto.
Qed.

Lemma mark_messages_as_summarized_outcome sid from to w :
  outcome (mark_messages_as_summarized sid from to) w
    (fun _ w' => w_db w' = update_summarized sid from to (w_db w)
                 /\ w_clock_reads w' = w_clock_reads w)
    (fun _ w' => same_store w w').
Proof.
  unfold outcome, mark_messages_as_summarized, with_connection, sql, same_store.
  fault_cases; auto.
Qed.

Lemma clear_session_outcome sid w :
  outcome (clear_session sid) w
    (fun _ w' =>
       w_db w' = delete_query_analysis sid (delete_summaries sid (delete_messages sid (w_db w)))
       /\ w_clock_reads w' = w_clock_reads w)
    (fun _ w' => same_store w w').
Proof.
  unfold outcome, clear_session, with_connection, bind, sql, same_store.
  fault_cases; auto.
Qed.

Lemma context_agent_outcome st w :
  outcome (context_agent st) w
    (fun st' w' =>
       same_store w w' /\ session_id st' = session_id st /\
       messages st' = map row_to_message (select_messages (session_id st) None true (w_db w)))
    (fun _ w' => same_store w w').
Proof.
  pose proof (get_messages_outcome (session_id st) None true w) as H.
  unfold outcome, context_agent, bind, ret in *.
  destruct (get_messages (session_id st) None true w) as [[msgs|e] w1]; [|assumption].
  destruct H as [Hs ->]. cbn [session_id messages set_context]. auto.
Qed.

Lemma query_agent_same_store st w : same_store w (snd (query_agent st w)).
Proof.
  unfold query_agent. destruct (str_truthy (user_query st)); [|apply same_store_refl].
  unfold bind.
  pose proof (get_recent_messages_outcome (session_id st) 10 w) as H1. unfold outcome in H1.
  destruct (get_recent_messages (session_id st) 10 w) as [[recent|e] w1]; [|exact H1].
  pose proof (get_latest_summary_outcome (session_id st) w1) as H2. unfold outcome in H2.
  destruct (get_latest_summary (session_id st) w1) as [[summary|e] w2];
    [|eapply same_store_trans; eassumption].
  match goal with |- context [llm_invoke ?r w2] =>
    pose proof (llm_invoke_outcome r w2) as H3; unfold outcome in H3;
    destruct (llm_invoke r w2) as [[response|e] w3]
  end; cbn [snd ret]; eauto using same_store_trans.
Qed.

Lemma response_agent_same_store st w : same_store w (snd (response_agent st w)).
Proof.
  unfold response_agent.
  destruct (query_understanding st) as [qu|]; [|apply same_store_refl].
  destruct (hard_stop qu); [apply same_store_refl|].
  unfold bind.
  match goal with |- context [llm_invoke ?r w] =>
    pose proof (llm_invoke_outcome r w) as H3; unfold outcome in H3;
    destruct (llm_invoke r w) as [[response|e] w3]
  end; cbn [snd ret]; assumption.
Qed.

(** ** The steps of the application *)

Lemma store_steps_trans v1 v2 v3 :
  store_steps v1 v2 -> store_steps v2 v3 -> store_steps v1 v3.
Proof.
  intros H12 H23. induction H23 as [|v2 v3 v4 _ IH Hstep]; [assumption|].
  eapply steps_step; [apply IH; assumption|exact Hstep].
Qed.

Lemma store_steps_one v1 v2 : store_step v1 v2 -> store_steps v1 v2.
Proof. intros H. eapply steps_step; [apply steps_refl|exact H]. Qed.

Lemma same_store_view w w' : same_store w w' -> view w' = view w.
Proof. unfold same_store, view. intros [-> ->]. reflexivity. Qed.

Lemma same_store_steps w w' : same_store w w' -> store_steps (view w) (view w').
Proof. intros H. rewrite (same_store_view w w' H). apply steps_refl. Qed.

(** The summarizer, run on the messages the context agent loaded, either
    leaves the store as it is, or reads the clock, or makes a compaction
    step. *)
Lemma summarizer_agent_steps st w :
  messages st = map row_to_message (select_messages (session_id st) None true (w_db w)) ->
  store_steps (view w) (view (snd (summarizer_agent st w))).
Proof.
  intros Hmsgs. unfold summarizer_agent.
  destruct (messages st) as [|m ms] eqn:Hst; [apply steps_refl|].
  rewrite <- Hst. unfold bind.
  pose proof (get_latest_summary_outcome (session_id st) w) as H1. unfold outcome in H1.
  destruct (get_latest_summary (session_id st) w) as [[prev|e] w1];
    [|now apply same_store_steps].
  match goal with |- context [llm_invoke ?r w1] =>
    pose proof (llm_invoke_outcome r w1) as H2; unfold outcome in H2;
    destruct (llm_invoke r w1) as [[response|e] w2]
  end;
    [|apply same_store_steps; apply (same_store_trans w w1); assumption].
  assert (Hw2 : same_store w w2) by (apply (same_store_trans w w1); assumption).
  pose proof (get_messages_outcome (session_id st) None false w2) as H3. unfold outcome in H3.
  destruct (get_messages (session_id st) None false w2) as [[all|e] w3];
    [|apply same_store_steps; apply (same_store_trans w w2); assumption].
  destruct H3 as [H3 Hall].
  assert (Hw3 : same_store w w3) by (apply (same_store_trans w w2); assumption).
  assert (Hdb2 : w_db w2 = w_db w) by (destruct Hw2; assumption).
  set (from := (Z.of_nat (List.length all) - Z.of_nat (List.length (messages st)))%Z).
  set (to := (Z.of_nat (List.length all) - 1)%Z).
  unfold validate_MessageRange.
  destruct ((0 <=? from)%Z && (0 <=? to)%Z);
    [|unfold raise; cbn [snd]; now apply same_store_steps].
  destruct Hw3 as [Hdb3 Hk3].
  unfold now.
  set (out := {| session_summary := _; message_range_summarized := _; timestamp := _ |}).
  set (w4 := count_clock_read w3).
  pose proof (save_summary_outcome (session_id st) out w4) as H5. unfold outcome in H5.
  destruct (save_summary (session_id st) out w4) as [[id|e] w5].
  2: { cbn [snd]. destruct H5 as [Hdb5 Hk5]. apply store_steps_one.
       unfold view. rewrite Hdb5, Hk5.
       cbn [w4 w_db w_clock_reads count_clock_read]. rewrite Hdb3, Hk3.
       apply step_tick. }
  destruct H5 as [Hdb5 Hk5].
  cbn [w4 w_db w_clock_reads count_clock_read] in Hdb5, Hk5.
  rewrite Hdb3 in Hdb5. rewrite Hk3 in Hk5.
  assert (Hstep : store_steps (view w) (view w5)).
  { apply store_steps_one. unfold view. rewrite Hdb5, Hk5. apply step_compaction.
    - rewrite <- (length_map row_to_message), <- Hmsgs. cbn [List.length]. lia.
    - cbn [out message_range_summarized from_index]. unfold from.
      rewrite Hall, length_map, select_all_length, Hdb2, Hst.
      rewrite Hmsgs at 1. now rewrite length_map.
    - cbn [out message_range_summarized to_index]. unfold to.
      now rewrite Hall, length_map, select_all_length, Hdb2.
    - cbn [out timestamp]. now rewrite Hk3. }
  pose proof (mark_messages_as_summarized_outcome (session_id st) from to w5) as H6.
  unfold outcome in H6.
  destruct (mark_messages_as_summarized (session_id st) from to w5) as [[u|e] w6];
    unfold ret; cbn [snd].
  - destruct H6 as [Hdb6 Hk6].
    replace (view w6) with (view w5); [exact Hstep|].
    unfold view. rewrite Hdb6, Hk6. f_equal.
    rewrite Hdb5. cbn [out message_range_summarized from_index to_index].
    symmetry. apply update_summarized_idempotent.
  - eapply store_steps_trans; [exact Hstep|now apply same_store_steps].
Qed.

Lemma run_steps sid query w : store_steps (view w) (view (snd (run sid query w))).
Proof.
  unfold run, bind.
  pose proof (context_agent_outcome (initial_state sid query) w) as H1. unfold outcome in H1.
  destruct (context_agent (initial_state sid query) w) as [[st1|e] w1];
    [|now apply same_store_steps].
  destruct H1 as [Hs1 [Hsid Hmsgs]].
  assert (H2 : store_steps (view w)
                 (view (snd ((if should_summarize st1 then summarizer_agent st1 else ret st1) w1)))).
  { eapply store_steps_trans; [apply same_store_steps; exact Hs1|].
    destruct (should_summarize st1); [|apply steps_refl].
    apply summarizer_agent_steps. destruct Hs1 as [-> _]. now rewrite Hsid. }
  destruct ((if should_summarize st1 then summarizer_agent st1 else ret st1) w1)
    as [[st2|e] w2]; [|exact H2].
  cbn [snd] in H2.
  pose proof (query_agent_same_store st2 w2) as H3.
  destruct (query_agent st2 w2) as [[st3|e] w3]; cbn [snd] in *;
    [|eapply store_steps_trans; [exact H2|now apply same_store_steps]].
  eapply store_steps_trans; [exact H2|].
  apply same_store_steps. apply (same_store_trans w2 w3); [assumption|].
  apply response_agent_same_store.
Qed.

(** Reading the clock and storing a message stamped with the reading. *)
Lemma save_new_message_steps sid r c md w :
  store_steps (view w) (view (snd ((ts <- now;; save_message sid (new_message r c ts md)) w))).
Proof.
  unfold bind, now.
  set (w1 := count_clock_read w).
  set (m := new_message r c (clock (w_clock_reads w)) md).
  pose proof (save_message_outcome sid m w1) as H. unfold outcome in H.
  destruct (save_message sid m w1) as [[id|e] w2]; cbn [snd];
    destruct H as [Hdb Hk]; apply store_steps_one; unfold view; rewrite Hdb, Hk;
    cbn [w1 w_db w_clock_reads count_clock_read].
  - apply step_message. reflexivity.
  - apply step_tick.
Qed.

Lemma on_chat_input_steps sid prompt w :
  store_steps (view w) (view (snd (on_chat_input sid prompt w))).
Proof.
  unfold on_chat_input.
  destruct (str_truthy prompt); [|apply steps_refl].
  unfold bind at 1.
  pose proof (run_steps sid prompt w) as H1.
  destruct (run sid prompt w) as [[result|e] w1]; cbn [snd] in H1; [|exact H1].
  pose proof (save_new_message_steps sid "user" prompt (user_metadata_of result) w1) as H2.
  unfold bind in *. unfold now in *.
  destruct (save_message sid _ (count_clock_read w1)) as [[id|e] w2]; cbn [snd] in H2;
    [|eapply store_steps_trans; eassumption].
  pose proof (save_new_message_steps sid "assistant" (final_response result)
                (assistant_metadata_of result) w2) as H3.
  unfold bind in H3. unfold now in H3.
  destruct (save_message sid _ (count_clock_read w2)) as [[id2|e] w3]; cbn [snd] in H3;
    unfold ret; cbn [snd];
    (eapply store_steps_trans; [eapply store_steps_trans; [exact H1|exact H2]|exact H3]).
Qed.

Lemma clear_session_steps sid w : store_steps (view w) (view (snd (clear_session sid w))).
Proof.
  pose proof (clear_session_outcome sid w) as H. unfold outcome in H.
  destruct (clear_session sid w) as [[u|e] w1]; cbn [snd].
  - destruct H as [Hdb Hk]. apply store_steps_one. unfold view. rewrite Hdb, Hk.
    apply step_clear.
  - now apply same_store_steps.
Qed.

(** Every store the application reaches is reached by steps. *)
Lemma run_events_steps events w : store_steps (view w) (view (run_events events w)).
Proof.
  revert w. induction events as [|e events IH]; intros w; [apply steps_refl|].
  cbn [run_events]. eapply store_steps_trans; [|apply IH].
  destruct e as [sid prompt|sid|sid]; cbn [handle_event].
  - apply on_chat_input_steps.
  - apply clear_session_steps.
  - apply clear_session_steps.
Qed.

(** ** Row ids *)

Lemma ids_fresh_step v v' : store_step v v' -> ids_fresh (fst v) -> ids_fresh (fst v').
Proof.
  intros Hstep. destruct Hstep as [db k|db k sid m Hts|db k sid out stored merged _ _ _ _|db k sid];
    cbn [fst]; intros [Hnd Hlt]; unfold ids_fresh.
  - split; assumption.
  - cbn [insert_message messages_table next_message_id]. split.
    + rewrite map_app. cbn [map m_id].
      eapply Permutation_NoDup; [apply Permutation_cons_append|].
      constructor; [|assumption].
      intros Hin. rewrite in_map_iff in Hin. destruct Hin as [r [Hr Hin]].
      rewrite Forall_forall in Hlt. specialize (Hlt r Hin). lia.
    + apply Forall_app. split.
      * eapply Forall_impl; [|exact Hlt]. cbv beta. intros; lia.
      * constructor; [|constructor]. cbn [m_id]. lia.
  - cbn [update_summarized insert_summary messages_table next_message_id]. split.
    + rewrite map_map. erewrite map_ext; [exact Hnd|]. intros r. apply mark_row_id.
    + rewrite Forall_map. eapply Forall_impl; [|exact Hlt].
      cbv beta. intros r Hr. now rewrite mark_row_id.
  - cbn [delete_query_analysis delete_summaries delete_messages messages_table
         next_message_id]. split.
    + now apply NoDup_map_filter.
    + rewrite Forall_forall in *. intros r Hr. apply Hlt. now apply filter_In in Hr.
Qed.

Lemma ids_fresh_steps v v' : store_steps v v' -> ids_fresh (fst v) -> ids_fresh (fst v').
Proof.
  induction 1 as [|v1 v2 v3 _ IH Hstep]; [trivial|].
  intros H. eapply ids_fresh_step; [exact Hstep|]. now apply IH.
Qed.

(** The rows of every store the application reaches from the empty store
    have distinct ids. *)
Lemma reachable_unique_ids events : unique_ids (w_db (run_events events initial_world)).
Proof.
  apply (ids_fresh_steps _ _ (run_events_steps events initial_world)).
  split; constructor.
Qed.

(** ** The invariant of the store *)

Lemma map_all_true {A} (f : A -> bool) (l : list A) :
  (forall x, In x l -> f x = true) -> map f l = repeat true (List.length l).
Proof.
  induction l as [|x l IH]; intros H; simpl; [reflexivity|].
  rewrite (H x) by (left; reflexivity). f_equal. apply IH. intros y Hy. apply H. now right.
Qed.

Lemma filter_negb_length {A} (f : A -> bool) (l : list A) :
  List.length (filter (fun x => negb (f x)) l) = List.length (filter negb (map f l)).
Proof.
  induction l as [|x l IH]; simpl; [reflexivity|].
  destruct (f x); simpl; now rewrite IH.
Qed.

Lemma filter_negb_flags (a b : nat) :
  filter negb (repeat true a ++ repeat false b) = repeat false b.
Proof.
  rewrite filter_app.
  replace (filter negb (repeat true a)) with (@nil bool)
    by (induction a; simpl; auto).
  simpl. induction b; simpl; [reflexivity|]. now f_equal.
Qed.

Lemma contiguous_snoc (l : list SummaryRow) (r : SummaryRow) :
  contiguous l -> from_message_index r = next_from l -> contiguous (l ++ [r]).
Proof.
  induction l as [|x l IH]; [intros; exact I|].
  destruct l as [|y l].
  - intros _ H. simpl in *. auto.
  - intros [Hxy Hl] H. split; [exact Hxy|]. apply IH; assumption.
Qed.

Lemma next_from_snoc (l : list SummaryRow) (r : SummaryRow) :
  next_from (l ++ [r]) = (to_message_index r + 1)%Z.
Proof.
  induction l as [|x l IH]; [reflexivity|].
  destruct l as [|y l]; [reflexivity|]. exact IH.
Qed.

Lemma filter_disjoint {A} (p q : A -> bool) (l : list A) :
  (forall x, p x = true -> q x = false) ->
  filter p (filter (fun x => negb (q x)) l) = filter p l.
Proof.
  intros H. induction l as [|x l IH]; simpl; [reflexivity|].
  destruct (q x) eqn:Hq; simpl.
  - destruct (p x) eqn:Hp; [|assumption]. apply H in Hp. congruence.
  - destruct (p x); now rewrite IH.
Qed.

Lemma filter_none {A} (p : A -> bool) (l : list A) :
  filter p (filter (fun x => negb (p x)) l) = [].
Proof.
  induction l as [|x l IH]; simpl; [reflexivity|].
  destruct (p x) eqn:Hp; simpl; [assumption|]. now rewrite Hp.
Qed.

Lemma in_session_other s sid r : s <> sid -> in_session s r = true -> in_session sid r = false.
Proof.
  unfold in_session. intros Hne H. apply String.eqb_eq in H. apply String.eqb_neq. congruence.
Qed.

Lemma summary_in_session_other s sid r :
  s <> sid -> summary_in_session s r = true -> summary_in_session sid r = false.
Proof.
  unfold summary_in_session. intros Hne H. apply String.eqb_eq in H.
  apply String.eqb_neq. congruence.
Qed.

Section Contiguity.

Hypothesis increasing : clock_increasing.

Lemma clock_le i j : (i <= j)%nat -> (clock i <= clock j)%Z.
Proof.
  intros H. destruct (Nat.eq_dec i j) as [->|Hne]; [lia|].
  apply Z.lt_le_incl, increasing. lia.
Qed.

Lemma store_inv_later db k k' : (k <= k')%nat -> store_inv db k -> store_inv db k'.
Proof.
  intros Hk (Hm & Hmb & Hs & Hsb & Hok). pose proof (clock_le k k' Hk) as Hc.
  unfold store_inv. split; [assumption|]. split.
  { eapply Forall_impl; [|exact Hmb]. cbv beta. intros; lia. }
  split; [assumption|]. split; [|assumption].
  eapply Forall_impl; [|exact Hsb]. cbv beta. intros; lia.
Qed.

Lemma store_inv_empty : store_inv empty_database 0.
Proof.
  unfold store_inv. cbn [empty_database messages_table summaries_table map].
  split; [exact I|]. split; [constructor|]. split; [exact I|]. split; [constructor|].
  intros s. split; [exact I|]. split; [constructor|].
  exists 0%nat, 0%nat. split; reflexivity.
Qed.

(** Storing a message stamped with the current reading of the clock. *)
Lemma store_inv_insert_message db k sid m :
  store_inv db k -> msg_timestamp m = clock k ->
  store_inv (insert_message sid m db) (S k).
Proof.
  intros (Hm & Hmb & Hs & Hsb & Hok) Hts.
  assert (Hlt : (clock k < clock (S k))%Z) by (apply increasing; lia).
  unfold store_inv, insert_message. cbn [messages_table summaries_table].
  split; [|split; [|split; [|split]]].
  - rewrite map_app. apply nondecreasing_snoc; [assumption|].
    rewrite Forall_map. cbn [m_timestamp]. rewrite Hts.
    eapply Forall_impl; [|exact Hmb]. cbv beta. intros; lia.
  - apply Forall_app. split.
    + eapply Forall_impl; [|exact Hmb]. cbv beta. intros; lia.
    + constructor; [|constructor]. cbn [m_timestamp]. lia.
  - assumption.
  - eapply Forall_impl; [|exact Hsb]. cbv beta. intros; lia.
  - intros s. destruct (Hok s) as [Hc [Hr [a [b [Hflags Ha]]]]].
    unfold session_ok. cbn [messages_table summaries_table].
    split; [assumption|]. split; [assumption|].
    rewrite filter_app, map_app. cbn [filter]. unfold in_session at 2.
    cbn [m_session_id].
    destruct (String.eqb sid s).
    + exists a, (S b). split; [|assumption].
      cbn [map is_summarized]. rewrite Hflags, <- app_assoc. f_equal.
      change [false] with (repeat false 1). rewrite <- repeat_app. f_equal. lia.
    + exists a, b. split; [|assumption]. cbn [map]. now rewrite app_nil_r.
Qed.

(** Deleting a session. *)
Lemma store_inv_clear db k sid :
  store_inv db k ->
  store_inv (delete_query_analysis sid (delete_summaries sid (delete_messages sid db))) k.
Proof.
  intros (Hm & Hmb & Hs & Hsb & Hok).
  unfold store_inv, delete_query_analysis, delete_summaries, delete_messages.
  cbn [messages_table summaries_table].
  split; [|split; [|split; [|split]]].
  - now apply nondecreasing_filter.
  - rewrite Forall_forall in *. intros r Hr. apply Hmb. now apply filter_In in Hr.
  - now apply strictly_increasing_filter.
  - rewrite Forall_forall in *. intros r Hr. apply Hsb. now apply filter_In in Hr.
  - intros s. unfold session_ok. cbn [messages_table summaries_table].
    destruct (String.eqb_spec s sid) as [->|Hne].
    + rewrite (filter_none (summary_in_session sid)), (filter_none (in_session sid)).
      split; [exact I|]. split; [constructor|].
      exists 0%nat, 0%nat. split; reflexivity.
    + rewrite (filter_disjoint (summary_in_session s) (summary_in_session sid))
        by (intros r; apply summary_in_session_other; assumption).
      rewrite (filter_disjoint (in_session s) (in_session sid))
        by (intros r; apply in_session_other; assumption).
      apply Hok.
Qed.

(** A compaction of everything that is not archived yet: the summary row
    is appended with the range from (stored) - (merged) to (stored) - 1
    and the flags of that range are set. *)
Lemma store_inv_compaction db k sid (out : SessionMemoryOutput) :
  store_inv db k ->
  let stored := Z.of_nat (List.length (filter (in_session sid) (messages_table db))) in
  let merged := Z.of_nat (List.length (select_messages sid None true db)) in
  (1 <= merged)%Z ->
  from_index (message_range_summarized out) = (stored - merged)%Z ->
  to_index (message_range_summarized out) = (stored - 1)%Z ->
  timestamp out = clock k ->
  store_inv (update_summarized sid (from_index (message_range_summarized out))
               (to_index (message_range_summarized out)) (insert_summary sid out db))
            (S k).
Proof.
  intros (Hm & Hmb & Hs & Hsb & Hok) stored merged Hmerged Hfrom Hto Hts.
  assert (Hlt : (clock k < clock (S k))%Z) by (apply increasing; lia).
  destruct (Hok sid) as [Hc [Hr [a [b [Hflags Ha]]]]].
  set (L := filter (in_session sid) (messages_table db)) in *.
  assert (Hlen : List.length L = (a + b)%nat).
  { rewrite <- (length_map is_summarized L), Hflags, length_app, !repeat_length.
    reflexivity. }
  assert (Hb : merged = Z.of_nat b).
  { unfold merged. rewrite select_unsummarized_length. fold L.
    rewrite filter_negb_length, Hflags, filter_negb_flags, repeat_length. reflexivity. }
  assert (Hstored : stored = Z.of_nat (a + b)) by (unfold stored; now rewrite Hlen).
  rewrite Hfrom, Hto.
  replace (stored - merged)%Z with (Z.of_nat a) by lia.
  set (to := (stored - 1)%Z).
  set (db1 := insert_summary sid out db).
  assert (HL : session_messages sid db1 = L).
  { unfold session_messages. apply order_by_sorted. now apply nondecreasing_filter. }
  assert (Hall : forall r, In r L ->
            is_summarized (mark_row sid (range_ids sid (Z.of_nat a) to db1) r) = true).
  { intros r Hin. rewrite mark_row_flag.
    assert (Hsess : in_session sid r = true) by (unfold L in Hin; now apply filter_In in Hin).
    rewrite Hsess. cbn [andb].
    destruct (In_nth_error _ _ Hin) as [i Hi].
    destruct (Nat.lt_ge_cases i a) as [Hia|Hia].
    - assert (Hflag : nth_error (map is_summarized L) i = Some (is_summarized r))
        by (rewrite nth_error_map, Hi; reflexivity).
      rewrite Hflags, nth_error_app1 in Hflag by (rewrite repeat_length; assumption).
      rewrite nth_error_repeat in Hflag by assumption.
      injection Hflag as <-. reflexivity.
    - apply orb_true_iff. right. apply mem_id_In. unfold range_ids. rewrite HL.
      apply in_map. apply (nth_error_In _ (i - a)).
      apply limit_offset_nth; [lia|unfold to; lia|].
      rewrite Nat2Z.id. replace (a + (i - a))%nat with i by lia.
      split; [assumption|].
      assert (i < List.length L)%nat by (apply nth_error_Some; congruence).
      unfold to. lia. }
  unfold store_inv, update_summarized. cbn [messages_table summaries_table db1 insert_summary].
  split; [|split; [|split; [|split]]].
  - rewrite map_map.
    erewrite map_ext; [exact Hm|]. intros r. apply mark_row_timestamp.
  - rewrite Forall_map. eapply Forall_impl; [|exact Hmb].
    cbv beta. intros r Hrow. rewrite mark_row_timestamp. lia.
  - rewrite map_app. apply strictly_increasing_snoc; [assumption|].
    rewrite Forall_map. cbn [map s_timestamp summary_row]. rewrite Hts.
    exact Hsb.
  - apply Forall_app. split.
    + eapply Forall_impl; [|exact Hsb]. cbv beta. intros; lia.
    + constructor; [|constructor]. cbn [s_timestamp summary_row]. lia.
  - intros s. unfold session_ok. cbn [messages_table summaries_table].
    rewrite filter_app. cbn [filter].
    change (summary_in_session s (summary_row (next_summary_id db) sid out))
      with (String.eqb sid s).
    rewrite filter_map_commute by (intros; apply mark_row_in_session).
    destruct (String.eqb_spec sid s) as [<-|Hne].
    + fold L. split; [|split].
      * apply contiguous_snoc; [assumption|].
        cbn [from_message_index summary_row]. rewrite Hfrom. lia.
      * apply Forall_app. split; [assumption|]. constructor; [|constructor].
        unfold range_ok. cbn [from_message_index to_message_index summary_row].
        rewrite Hfrom, Hto. lia.
      * exists (a + b)%nat, 0%nat. split.
        -- rewrite map_map, (map_all_true _ L Hall), Hlen. cbn [repeat].
           now rewrite app_nil_r.
        -- rewrite next_from_snoc. cbn [to_message_index summary_row].
           rewrite Hto. lia.
    + rewrite app_nil_r.
      rewrite (map_ext_in _ (fun r => r)), map_id; [apply Hok|].
      intros r Hrow. apply mark_row_other. apply filter_In in Hrow.
      eapply in_session_other; [|apply Hrow]. congruence.
Qed.

Lemma store_step_inv v v' :
  store_step v v' -> store_inv (fst v) (snd v) -> store_inv (fst v') (snd v').
Proof.
  intros Hstep.
  destruct Hstep as [db k|db k sid m Hts|db k sid out stored merged H1 H2 H3 H4|db k sid];
    cbn [fst snd]; intros Hinv.
  - apply (store_inv_later db k); [lia|assumption].
  - now apply store_inv_insert_message.
  - now apply store_inv_compaction.
  - now apply store_inv_clear.
Qed.

Lemma store_steps_inv v v' :
  store_steps v v' -> store_inv (fst v) (snd v) -> store_inv (fst v') (snd v').
Proof.
  induction 1 as [|v1 v2 v3 _ IH Hstep]; [trivial|].
  intros H. eapply store_step_inv; [exact Hstep|]. now apply IH.
Qed.

(** Every store the application reaches from the empty store satisfies the
    invariant. *)
Lemma reachable_store_inv events :
  let w := run_events events initial_world in
  store_inv (w_db w) (w_clock_reads w).
Proof.
  apply (store_steps_inv _ _ (run_events_steps events initial_world)).
  apply store_inv_empty.
Qed.

(** In a store that satisfies the invariant, the summaries of a session,
    in the order [get_all_summaries] lists them, are chained, each over a
    proper range. *)
Lemma store_inv_contiguous db k sid :
  store_inv db k ->
  contiguous (select_all_summaries sid db) /\ Forall range_ok (select_all_summaries sid db).
Proof.
  intros (_ & _ & Hs & _ & Hok). unfold select_all_summaries.
  rewrite order_by_desc_increasing by now apply strictly_increasing_filter.
  rewrite rev_involutive. split; apply Hok.
Qed.

End Contiguity.

Lemma contiguous_nth (l : list SummaryRow) (i : nat) (s1 s2 : SummaryRow) :
  contiguous l ->
  nth_error l i = Some s1 -> nth_error l (S i) = Some s2 ->
  from_message_index s2 = (to_message_index s1 + 1)%Z.
Proof.
  revert i. induction l as [|x l IH]; intros i Hc H1 H2; [destruct i; discriminate|].
  destruct l as [|y l]; [destruct i; cbn in H2; [discriminate|destruct i; discriminate]|].
  destruct Hc as [Hxy Hc]. destruct i as [|i].
  - cbn in H1, H2. injection H1 as <-. injection H2 as <-. exact Hxy.
  - apply (IH i Hc); assumption.
Qed.

Lemma get_all_summaries_outcome sid w :
  outcome (get_all_summaries sid) w
    (fun sums _ => sums = map row_to_summary (select_all_summaries sid (w_db w)))
    (fun _ _ => True).
Proof.
  unfold outcome, get_all_summaries, with_connection, bind, sql, ret.
  destruct (storage_fails (w_sql_ops w)); cbn [w_db with_db count_sql_op w_sql_ops];
    [exact I|].
  destruct (storage_fails (S (w_sql_ops w))); [exact I|reflexivity].
Qed.

(** ** Properties of the pipeline *)

(** C1. The context agent computes the live token count as the sum, over
    the messages of the session that are not archived, of the tokens of the
    content, the tokens of the role and 4; it asks for a compaction exactly
    when that sum is strictly greater than the threshold, so that a sum
    equal to the threshold does not trigger it. *)
Theorem compaction_trigger_threshold (st : GraphState) (w : World) :
  storage_healthy ->
  let live_tokens :=
    Zsum (map (fun r => (Z.of_nat (count_tokens (m_content r))
                         + Z.of_nat (count_tokens (m_role r)) + 4)%Z)
              (select_messages (session_id st) None true (w_db w))) in
  exists st' w',
    context_agent st w = (Ok st', w') /\
    w_db w' = w_db w /\
    messages st' = map row_to_message (select_messages (session_id st) None true (w_db w)) /\
    total_tokens st' = live_tokens /\
    (needs_summarization st' = true <-> (live_tokens > token_threshold)%Z) /\
    (should_summarize st' = true <-> (live_tokens > token_threshold)%Z) /\
    (live_tokens = token_threshold -> needs_summarization st' = false).
Proof.
  intros healthy live_tokens.
  rewrite (context_agent_healthy healthy).
  eexists. eexists. split; [reflexivity|].
  assert (Hsum : count_messages_tokens
                   (map row_to_message (select_messages (session_id st) None true (w_db w)))
                 = live_tokens).
  { rewrite count_messages_tokens_sum, map_map. reflexivity. }
  unfold should_summarize, set_context.
  cbn [messages total_tokens needs_summarization w_db skip_sql_ops]. rewrite Hsum.
  repeat split; try (rewrite Z.ltb_lt; lia).
  intros ->. apply Z.ltb_irrefl.
Qed.


(** C8. Checking the trigger twice in a row is idempotent: the context
    agent leaves the store as it is, a second check on the state it returned
    returns that state again, only rows whose flag is not set are counted
    (an archived row counts for 0 in the live token count), and setting the
    flags of a range a second time leaves the store unchanged. *)
Theorem trigger_check_idempotent (st : GraphState) (w : World) :
  storage_healthy ->
  exists st1 w1 w2,
    context_agent st w = (Ok st1, w1) /\
    context_agent st1 w1 = (Ok st1, w2) /\
    w_db w1 = w_db w /\ w_db w2 = w_db w /\
    (forall m, In m (messages st1) ->
       exists r, In r (messages_table (w_db w)) /\ m = row_to_message r /\
                 m_session_id r = session_id st /\ is_summarized r = false) /\
    total_tokens st1
    = Zsum (map (fun r => if in_session (session_id st) r && negb (is_summarized r)
                          then count_message_tokens (row_to_message r) else 0%Z)
                (messages_table (w_db w))) /\
    (forall sid from to,
       update_summarized sid from to (update_summarized sid from to (w_db w))
       = update_summarized sid from to (w_db w)).
Proof.
  intros healthy.
  rewrite (context_agent_healthy healthy).
  eexists. eexists. eexists.
  split; [reflexivity|]. split.
  { rewrite (context_agent_healthy healthy). reflexivity. }
  split; [reflexivity|]. split; [reflexivity|]. split.
  { cbn [messages set_context]. intros m Hm. rewrite in_map_iff in Hm.
    destruct Hm as [r [Hr Hin]]. apply select_unsummarized_In in Hin.
    destruct Hin as [Hin [Hsid Hflag]].
    exists r. split; [exact Hin|]. split; [now symmetry|]. split; assumption. }
  split.
  { cbn [total_tokens set_context]. apply live_tokens_over_table. }
  intros. apply update_summarized_idempotent.
Qed.

(** C2. When the summarizer runs on the non-empty list of the session's
    messages that are not archived, and the service answers, the range it
    persists starts at (number of messages stored for the session, archived
    or not) minus (number of messages just merged) and ends at (number of
    messages stored for the session) minus 1. *)
Theorem summary_range_from_full_log (st : GraphState) (w : World) (text : string) :
  storage_healthy ->
  let sid := session_id st in
  let total := Z.of_nat (List.length (filter (in_session sid) (messages_table (w_db w)))) in
  let merged := Z.of_nat (List.length (messages st)) in
  messages st = map row_to_message (select_messages sid None true (w_db w)) ->
  messages st <> [] ->
  llm (List.length (w_llm_calls w))
      (SummarizePrompt (option_map row_to_summary (select_latest_summary sid (w_db w)))
         (transcript (messages st))) = Content text ->
  exists out w',
    summarizer_agent st w = (Ok (set_session_summary out st), w') /\
    from_index (message_range_summarized out) = (total - merged)%Z /\
    to_index (message_range_summarized out) = (total - 1)%Z /\
    summaries_table (w_db w')
    = summaries_table (w_db w) ++ [summary_row (next_summary_id (w_db w)) sid out] /\
    from_message_index (summary_row (next_summary_id (w_db w)) sid out) = (total - merged)%Z /\
    to_message_index (summary_row (next_summary_id (w_db w)) sid out) = (total - 1)%Z.
Proof.
  intros healthy sid total merged Hmsgs Hne Hllm.
  assert (Hle : (merged <= total)%Z).
  { unfold merged, total. rewrite Hmsgs, length_map, select_unsummarized_length.
    apply Nat2Z.inj_le. apply filter_length_le. }
  assert (Hpos : (1 <= merged)%Z).
  { unfold merged. destruct (messages st); [congruence|]. cbn [List.length]. lia. }
  destruct (summarizer_agent_healthy st w text healthy Hne Hllm) as [w' [Hrun [Hdb _]]];
    [fold sid total merged; lia | fold sid total; lia |].
  fold sid total merged in Hrun, Hdb.
  eexists. exists w'. split; [exact Hrun|].
  rewrite Hdb. repeat split.
Qed.


(** C5, as amended.  For every query understanding, the response agent
    takes the hard stop if and only if the query is ambiguous, the rewritten
    query is absent or empty, and there is at least one clarifying question.
    Taking the hard stop means: no call to the generation service, and a
    final response that is the fixed heading "I need some clarification:",
    an empty line, and the clarifying questions numbered from 1, one per
    line, the rest of the state being as it was.  For one and for two
    questions the text is written out.  In every other case the agent makes
    exactly one generation call. *)
Theorem hard_stop_iff (st : GraphState) (qu : QueryUnderstanding) (w : World) :
  query_understanding st = Some qu ->
  let condition :=
    is_ambiguous qu = true /\
    (rewritten_query qu = None \/ rewritten_query qu = Some "") /\
    clarifying_questions qu <> [] in
  let newline := String (ascii_of_nat 10) EmptyString in
  let heading := ("I need some clarification:" ++ newline ++ newline)%string in
  (condition <->
   response_agent st w
   = (Ok (set_final_response
            (clarification_header ++ numbered_lines (clarifying_questions qu))%string st),
      w)) /\
  (condition <-> w_llm_calls (snd (response_agent st w)) = w_llm_calls w) /\
  (~ condition ->
   exists req, w_llm_calls (snd (response_agent st w)) = w_llm_calls w ++ [req]) /\
  (condition <->
   exists st' : GraphState,
     response_agent st w = (Ok st', w) /\
     final_response st'
     = (heading ++ spec_enumerated 1 (clarifying_questions qu))%string /\
     session_id st' = session_id st /\ user_query st' = user_query st /\
     messages st' = messages st /\ total_tokens st' = total_tokens st /\
     needs_summarization st' = needs_summarization st /\
     state_session_summary st' = state_session_summary st /\
     query_understanding st' = Some qu) /\
  (condition ->
   forall q, clarifying_questions qu = [q] ->
     exists st' : GraphState,
       response_agent st w = (Ok st', w) /\
       final_response st' = (heading ++ "1. " ++ q)%string) /\
  (condition ->
   forall q1 q2, clarifying_questions qu = [q1; q2] ->
     exists st' : GraphState,
       response_agent st w = (Ok st', w) /\
       final_response st'
       = (heading ++ "1. " ++ q1 ++ newline ++ "2. " ++ q2)%string).
Proof.
  intros Hqu condition newline heading.
  assert (Hcond : hard_stop qu = true <-> condition) by apply hard_stop_true.
  assert (Hcall : hard_stop qu = false ->
                  exists req, w_llm_calls (snd (response_agent st w)) = w_llm_calls w ++ [req]).
  { intros Hhs. unfold response_agent. rewrite Hqu, Hhs. unfold bind, llm_invoke.
    match goal with |- context [llm ?n ?r] => exists r; destruct (llm n r) end; reflexivity. }
  assert (Hneq : forall (l : list llm_request) x, l ++ [x] <> l).
  { intros l x H. apply (f_equal (@List.length _)) in H. rewrite length_app in H.
    cbn [List.length] in H. lia. }
  destruct (hard_stop qu) eqn:Hhs.
  - assert (Hc : condition) by (apply Hcond; reflexivity).
    assert (Hret : response_agent st w
                   = (Ok (set_final_response
                            (clarification_header
                             ++ numbered_lines (clarifying_questions qu))%string st), w)).
    { unfold response_agent. rewrite Hqu, Hhs. reflexivity. }
    assert (Htext : forall xs,
              final_response
                (set_final_response (clarification_header ++ numbered_lines xs)%string st)
              = (heading ++ spec_enumerated 1 xs)%string).
    { intros xs. cbn [final_response set_final_response]. apply hard_stop_text. }
    split; [split; [intros _; exact Hret|intros _; exact Hc]|].
    split; [rewrite Hret; cbn [snd]; split; [reflexivity|intros _; exact Hc]|].
    split; [intros Hn; now elim Hn|].
    split; [split; [intros _|intros _; exact Hc]|split].
    + eexists. split; [exact Hret|]. split; [apply Htext|].
      cbn [session_id user_query messages total_tokens needs_summarization
           state_session_summary query_understanding set_final_response].
      repeat (split; [reflexivity|]). exact Hqu.
    + intros _ q Hq. eexists. split; [exact Hret|]. rewrite Htext, Hq. reflexivity.
    + intros _ q1 q2 Hq. eexists. split; [exact Hret|]. rewrite Htext, Hq. reflexivity.
  - assert (Hc : ~ condition) by (intros Hc; apply Hcond in Hc; discriminate).
    destruct (Hcall eq_refl) as [req Hreq].
    split; [|split; [|split; [|split; [|split]]]].
    + split; [intros H; now elim Hc|]. intros Hret. rewrite Hret in Hreq. cbn [snd] in Hreq.
      symmetry in Hreq. now apply Hneq in Hreq.
    + split; [intros H; now elim Hc|]. intros Hsame. rewrite Hsame in Hreq.
      symmetry in Hreq. now apply Hneq in Hreq.
    + intros _. now exists req.
    + split; [intros H; now elim Hc|]. intros (st' & Hret & _).
      rewrite Hret in Hreq. cbn [snd] in Hreq. symmetry in Hreq. now apply Hneq in Hreq.
    + intros H. now elim Hc.
    + intros H. now elim Hc.
Qed.

(** C7. When the reply of the service to the query agent does not parse as
    a query understanding, the agent returns the fallback: not ambiguous,
    the original query kept, no rewritten query, every list empty, and the
    recent-window text built by the agent as augmented context.  The store
    is untouched, and the response agent then takes the best-effort branch
    and answers with what the service generates. *)
Theorem query_parse_failure_falls_back (st : GraphState) (w : World) (text : string) :
  storage_healthy ->
  let sid := session_id st in
  let recent_context :=
    recent_context_of (map row_to_message (select_recent_messages sid 10 (w_db w))) in
  let summary := option_map row_to_summary (select_latest_summary sid (w_db w)) in
  user_query st <> "" ->
  llm (List.length (w_llm_calls w)) (QueryPrompt recent_context summary (user_query st))
  = Content text ->
  parse_query_understanding text = None ->
  exists qu w',
    query_agent st w = (Ok (set_query_understanding qu st), w') /\
    w_db w' = w_db w /\
    original_query qu = user_query st /\
    is_ambiguous qu = false /\
    rewritten_query qu = None /\
    possible_interpretations qu = [] /\
    needed_context_from_memory qu = [] /\
    clarifying_questions qu = [] /\
    final_augmented_context qu = recent_context /\
    (forall reply,
       llm (S (List.length (w_llm_calls w)))
           (ResponsePrompt recent_context (user_query st) None) = Content reply ->
       exists w'',
         response_agent (set_query_understanding qu st) w'
         = (Ok (set_final_response reply (set_query_understanding qu st)), w'')).
Proof.
  intros healthy sid recent_context summary Hquery Hllm Hparse.
  exists (fallback_understanding (user_query st) recent_context).
  unfold query_agent.
  destruct (str_truthy (user_query st)) eqn:Htruthy;
    [|apply str_truthy_false in Htruthy; congruence].
  unfold bind. fold sid.
  rewrite (get_recent_messages_healthy healthy), (get_latest_summary_healthy healthy).
  unfold llm_invoke. cbn [w_db w_llm_calls skip_sql_ops].
  fold recent_context summary. rewrite Hllm, Hparse.
  eexists. split; [reflexivity|].
  cbn [w_db skip_sql_ops log_llm_call fallback_understanding original_query is_ambiguous
       rewritten_query possible_interpretations needed_context_from_memory
       clarifying_questions final_augmented_context].
  repeat (split; [reflexivity|]).
  intros reply Hreply.
  unfold response_agent, bind, llm_invoke.
  cbn [query_understanding set_query_understanding hard_stop fallback_understanding
       is_ambiguous rewritten_query clarifying_questions possible_interpretations
       original_query final_augmented_context andb negb List.length Nat.ltb Nat.leb
       w_llm_calls skip_sql_ops log_llm_call].
  rewrite length_app. cbn [List.length]. rewrite Nat.add_1_r, Hreply.
  eexists. reflexivity.
Qed.

(** C10. When the text of the query is empty, the query agent returns the
    state as it received it, without a query understanding, and the
    response agent answers with the fixed text, both without a call to the
    generation service: the turn ends in the world the compaction stages
    left, and the final state differs from theirs in its [final_response]
    alone, which is "I need a query to respond to.". *)
Theorem empty_query_fixed_response (sid : string) (w : World)
    (st2 : GraphState) (w2 : World) :
  compaction_stages sid "" w = (Ok st2, w2) ->
  query_agent st2 w2 = (Ok st2, w2) /\
  query_understanding st2 = None /\
  response_agent st2 w2 = (Ok (set_final_response "I need a query to respond to." st2), w2) /\
  run sid "" w = (Ok (set_final_response "I need a query to respond to." st2), w2) /\
  (forall st v, user_query st = "" -> query_agent st v = (Ok st, v)) /\
  (forall st v, query_understanding st = None ->
     response_agent st v = (Ok (set_final_response "I need a query to respond to." st), v)) /\
  (exists st3,
     run sid "" w = (Ok st3, w2) /\
     final_response st3 = "I need a query to respond to." /\
     query_understanding st3 = None /\
     session_id st3 = sid /\ user_query st3 = "" /\
     messages st3 = messages st2 /\ total_tokens st3 = total_tokens st2 /\
     needs_summarization st3 = needs_summarization st2 /\
     state_session_summary st3 = state_session_summary st2) /\
  (forall st v, query_understanding st = None ->
     exists st' : GraphState,
       response_agent st v = (Ok st', v) /\
       final_response st' = "I need a query to respond to." /\
       session_id st' = session_id st /\ user_query st' = user_query st /\
       messages st' = messages st /\ total_tokens st' = total_tokens st /\
       needs_summarization st' = needs_summarization st /\
       state_session_summary st' = state_session_summary st /\
       query_understanding st' = None).
Proof.
  intros Hstages.
  destruct (compaction_stages_fields _ _ _ _ _ Hstages) as [Hs [Hq Hu]].
  assert (Hqa : forall st v, user_query st = "" -> query_agent st v = (Ok st, v)).
  { intros st v H. unfold query_agent. rewrite H. reflexivity. }
  assert (Hra : forall st v, query_understanding st = None ->
            response_agent st v
            = (Ok (set_final_response "I need a query to respond to." st), v)).
  { intros st v H. unfold response_agent. rewrite H. reflexivity. }
  assert (Hrun : run sid "" w
                 = (Ok (set_final_response "I need a query to respond to." st2), w2)).
  { rewrite run_stages. unfold bind at 1. rewrite Hstages.
    unfold bind. rewrite (Hqa _ _ Hq). apply Hra. assumption. }
  split; [apply Hqa; exact Hq|]. split; [exact Hu|]. split; [apply Hra; exact Hu|].
  split; [exact Hrun|]. split; [exact Hqa|]. split; [exact Hra|]. split.
  - exists (set_final_response "I need a query to respond to." st2).
    split; [exact Hrun|].
    cbn [final_response query_understanding session_id user_query messages total_tokens
         needs_summarization state_session_summary set_final_response].
    split; [reflexivity|]. split; [exact Hu|]. split; [exact Hs|]. split; [exact Hq|].
    repeat split.
  - intros st v H. exists (set_final_response "I need a query to respond to." st).
    split; [apply Hra; exact H|].
    cbn [final_response query_understanding session_id user_query messages total_tokens
         needs_summarization state_session_summary set_final_response].
    split; [reflexivity|]. repeat (split; [reflexivity|]). exact H.
Qed.

(** C9, as amended.  An error raised by a call to the generation service
    is caught by no agent and is the outcome of [run].  The agent whose
    call raised writes nothing: when the call of the summarizer raises, the
    store is the one the turn started with; when the call of the query
    agent raises, the store is the one the compaction stages left, with the
    compaction they may have committed. *)
Theorem generation_failure_propagates :
  storage_healthy ->
  (forall st w,
     messages st <> [] ->
     llm (List.length (w_llm_calls w))
         (SummarizePrompt
            (option_map row_to_summary (select_latest_summary (session_id st) (w_db w)))
            (transcript (messages st))) = ServiceError ->
     exists w',
       summarizer_agent st w = (Raise GenerationServiceError, w') /\ w_db w' = w_db w) /\
  (forall st w,
     user_query st <> "" ->
     llm (List.length (w_llm_calls w))
         (QueryPrompt
            (recent_context_of
               (map row_to_message (select_recent_messages (session_id st) 10 (w_db w))))
            (option_map row_to_summary (select_latest_summary (session_id st) (w_db w)))
            (user_query st)) = ServiceError ->
     exists w',
       query_agent st w = (Raise GenerationServiceError, w') /\ w_db w' = w_db w) /\
  (forall sid query w,
     let unarchived := map row_to_message (select_messages sid None true (w_db w)) in
     unarchived <> [] ->
     (token_threshold < count_messages_tokens unarchived)%Z ->
     llm (List.length (w_llm_calls w))
         (SummarizePrompt (option_map row_to_summary (select_latest_summary sid (w_db w)))
            (transcript unarchived)) = ServiceError ->
     exists w',
       run sid query w = (Raise GenerationServiceError, w') /\ w_db w' = w_db w) /\
  (forall sid query w st2 w2,
     query <> "" ->
     compaction_stages sid query w = (Ok st2, w2) ->
     llm (List.length (w_llm_calls w2))
         (QueryPrompt
            (recent_context_of
               (map row_to_message (select_recent_messages sid 10 (w_db w2))))
            (option_map row_to_summary (select_latest_summary sid (w_db w2)))
            query) = ServiceError ->
     exists w',
       run sid query w = (Raise GenerationServiceError, w') /\ w_db w' = w_db w2).
Proof.
  intros healthy.
  assert (Hsum : forall st w,
     messages st <> [] ->
     llm (List.length (w_llm_calls w))
         (SummarizePrompt
            (option_map row_to_summary (select_latest_summary (session_id st) (w_db w)))
            (transcript (messages st))) = ServiceError ->
     exists w',
       summarizer_agent st w = (Raise GenerationServiceError, w') /\ w_db w' = w_db w).
  { intros st w Hne Hllm. unfold summarizer_agent.
    destruct (messages st) as [|m ms] eqn:Hmsgs; [congruence|].
    unfold bind. rewrite (get_latest_summary_healthy healthy).
    unfold llm_invoke. cbn [w_db w_llm_calls skip_sql_ops]. rewrite Hllm.
    eexists. split; reflexivity. }
  assert (Hqry : forall st w,
     user_query st <> "" ->
     llm (List.length (w_llm_calls w))
         (QueryPrompt
            (recent_context_of
               (map row_to_message (select_recent_messages (session_id st) 10 (w_db w))))
            (option_map row_to_summary (select_latest_summary (session_id st) (w_db w)))
            (user_query st)) = ServiceError ->
     exists w',
       query_agent st w = (Raise GenerationServiceError, w') /\ w_db w' = w_db w).
  { intros st w Hne Hllm. unfold query_agent.
    destruct (str_truthy (user_query st)) eqn:Htruthy;
      [|apply str_truthy_false in Htruthy; congruence].
    unfold bind.
    rewrite (get_recent_messages_healthy healthy), (get_latest_summary_healthy healthy).
    unfold llm_invoke. cbn [w_db w_llm_calls skip_sql_ops]. rewrite Hllm.
    eexists. split; reflexivity. }
  split; [exact Hsum|]. split; [exact Hqry|]. split.
  - intros sid query w unarchived Hne Hover Hllm.
    unfold run, bind. rewrite (context_agent_healthy healthy).
    cbv zeta. cbn [session_id initial_state]. fold unarchived.
    unfold should_summarize. cbn [needs_summarization set_context].
    replace (token_threshold <? count_messages_tokens unarchived)%Z with true
      by (symmetry; apply Z.ltb_lt; assumption).
    match goal with |- context [summarizer_agent ?s ?v] =>
      destruct (Hsum s v) as [w' [Hrun Hdb]]
    end.
    { cbn [messages set_context]. assumption. }
    { cbn [messages set_context session_id initial_state w_db w_llm_calls skip_sql_ops].
      exact Hllm. }
    rewrite Hrun. exists w'. split; [reflexivity|exact Hdb].
  - intros sid query w st2 w2 Hne Hstages Hllm.
    destruct (compaction_stages_fields _ _ _ _ _ Hstages) as [Hs [Hq _]].
    destruct (Hqry st2 w2) as [w' [Hrun Hdb]].
    { now rewrite Hq. }
    { now rewrite Hs, Hq. }
    rewrite run_stages. unfold bind at 1. rewrite Hstages.
    unfold bind. rewrite Hrun. exists w'. split; [reflexivity|exact Hdb].
Qed.

(** C3, as amended.  Whatever sequence of chat inputs and session
    deletions the application handles, one after the other, from the empty
    store, whatever the service replies and whichever storage operations
    fail: when the readings of the clock increase, any two consecutive summaries
    of a session, in the order [get_all_summaries] lists them, cover
    contiguous ranges, the later one starting right after the end of the
    earlier one; and no range ends before it starts, so that the ranges do
    not overlap. *)
Theorem summary_ranges_contiguous (events : list event) (sid : string) :
  clock_increasing ->
  let w := run_events events initial_world in
  (forall i s1 s2,
     nth_error (select_all_summaries sid (w_db w)) i = Some s1 ->
     nth_error (select_all_summaries sid (w_db w)) (S i) = Some s2 ->
     from_message_index s2 = (to_message_index s1 + 1)%Z) /\
  (forall i s,
     nth_error (select_all_summaries sid (w_db w)) i = Some s ->
     (0 <= from_message_index s <= to_message_index s)%Z) /\
  (forall sums w' i o1 o2,
     get_all_summaries sid w = (Ok sums, w') ->
     nth_error sums i = Some o1 -> nth_error sums (S i) = Some o2 ->
     from_index (message_range_summarized o2)
     = (to_index (message_range_summarized o1) + 1)%Z).
Proof.
  intros increasing w.
  destruct (store_inv_contiguous (w_db w) (w_clock_reads w) sid
              (reachable_store_inv increasing events)) as [Hc Hr].
  split; [|split].
  - intros i s1 s2. now apply contiguous_nth.
  - intros i s Hs. rewrite Forall_forall in Hr. apply Hr.
    eapply nth_error_In. exact Hs.
  - intros sums w' i o1 o2 Hget H1 H2.
    pose proof (get_all_summaries_outcome sid w) as Hout. unfold outcome in Hout.
    rewrite Hget in Hout. subst sums.
    rewrite nth_error_map in H1, H2.
    destruct (nth_error (select_all_summaries sid (w_db w)) i) as [s1|] eqn:E1;
      [|discriminate].
    destruct (nth_error (select_all_summaries sid (w_db w)) (S i)) as [s2|] eqn:E2;
      [|discriminate].
    cbn [option_map] in H1, H2. injection H1 as <-. injection H2 as <-.
    cbn [row_to_summary message_range_summarized from_index to_index].
    exact (contiguous_nth _ i s1 s2 Hc E1 E2).
Qed.

(** ** More properties: reading the store *)

Lemma insert_by_nondecreasing {A} (key : A -> Z) (x : A) (l : list A) :
  nondecreasing (map key l) -> nondecreasing (map key (insert_by key x l)).
Proof.
  induction l as [|y l IH]; simpl.
  - intros _. split; [constructor|exact I].
  - intros [Hy Hl]. destruct (key x <=? key y)%Z eqn:Hxy.
    + apply Z.leb_le in Hxy. simpl. split; [|split; assumption].
      constructor; [assumption|]. eapply Forall_impl; [|exact Hy]. cbv beta. intros; lia.
    + apply Z.leb_gt in Hxy. simpl. split; [|now apply IH].
      rewrite Forall_forall. intros t Ht. rewrite in_map_iff in Ht.
      destruct Ht as [r [<- Hr]]. apply insert_by_In in Hr. destruct Hr as [->|Hr].
      * lia.
      * rewrite Forall_forall in Hy. apply Hy. now apply in_map.
Qed.

Lemma order_by_nondecreasing {A} (key : A -> Z) (l : list A) :
  nondecreasing (map key (order_by key l)).
Proof.
  induction l as [|x l IH]; simpl; [exact I|]. now apply insert_by_nondecreasing.
Qed.

Lemma select_messages_all sid exclude db :
  select_messages sid None exclude db
  = order_by m_timestamp (filter (selected sid exclude) (messages_table db)).
Proof. reflexivity. Qed.

(** X1. [get_messages] without a limit returns the messages of the session
    (those not archived, when asked so) each exactly once and in
    non-decreasing order of timestamp, and leaves the store as it is. *)
Theorem get_messages_in_timestamp_order (sid : string) (exclude : bool) (w : World) :
  storage_healthy ->
  exists msgs w',
    get_messages sid None exclude w = (Ok msgs, w') /\
    w_db w' = w_db w /\
    nondecreasing (map msg_timestamp msgs) /\
    Permutation msgs
      (map row_to_message (filter (selected sid exclude) (messages_table (w_db w)))).
Proof.
  intros healthy. rewrite (get_messages_healthy healthy).
  eexists. eexists. split; [reflexivity|]. split; [reflexivity|].
  rewrite select_messages_all. split.
  - rewrite map_map. apply (order_by_nondecreasing m_timestamp).
  - apply Permutation_map. apply order_by_perm.
Qed.

(** X2. The limit of [get_messages], a signed 64-bit integer (beyond which
    SQLite refuses the statement), keeps the oldest messages: a positive
    limit [n] returns the first [n] messages of the chronological list, and
    a limit of 0, like a negative one, returns the whole list. *)
Theorem get_messages_limit_keeps_oldest (sid : string) (n : Z) (exclude : bool) (w : World) :
  storage_healthy ->
  (- 9223372036854775808 < n < 9223372036854775808)%Z ->
  exists every w1 limited w2,
    get_messages sid None exclude w = (Ok every, w1) /\
    get_messages sid (Some n) exclude w = (Ok limited, w2) /\
    limited = (if (0 <? n)%Z then firstn (Z.to_nat n) every else every).
Proof.
  intros healthy _. rewrite !(get_messages_healthy healthy).
  eexists. eexists. eexists. eexists. split; [reflexivity|]. split; [reflexivity|].
  unfold select_messages, limit_offset. cbn [Z.to_nat skipn].
  destruct (Z.eqb_spec n 0) as [->|Hn]; [reflexivity|].
  destruct (Z.ltb_spec n 0) as [Hneg|Hpos].
  - replace (0 <? n)%Z with false by (symmetry; apply Z.ltb_ge; lia). reflexivity.
  - replace (0 <? n)%Z with true by (symmetry; apply Z.ltb_lt; lia).
    now rewrite firstn_map.
Qed.

Lemma rev_firstn_rev {A} (k : nat) (l : list A) :
  rev (firstn k (rev l)) = skipn (List.length l - k) l.
Proof. now rewrite firstn_rev, rev_involutive. Qed.

(** X3. For a number [n] from 0 up that fits a signed 64-bit integer
    (beyond which the binding of the limit is refused),
    [get_recent_messages] returns the last [n] messages of the list
    [get_messages] returns for the whole session, archived ones included,
    in the same order; all of them when there are no more than [n]. *)
Theorem get_recent_messages_are_the_last (sid : string) (n : Z) (w : World) :
  storage_healthy -> (0 <= n < 9223372036854775808)%Z ->
  exists every w1 recent w2,
    get_messages sid None false w = (Ok every, w1) /\
    get_recent_messages sid n w = (Ok recent, w2) /\
    recent = skipn (List.length every - Z.to_nat n) every /\
    List.length recent = Nat.min (Z.to_nat n) (List.length every).
Proof.
  intros healthy [Hn _].
  rewrite (get_messages_healthy healthy), (get_recent_messages_healthy healthy).
  eexists. eexists. eexists. eexists. split; [reflexivity|]. split; [reflexivity|].
  assert (Hrows : select_recent_messages sid n (w_db w)
                  = skipn (List.length (select_messages sid None false (w_db w)) - Z.to_nat n)
                          (select_messages sid None false (w_db w))).
  { unfold select_recent_messages, limit_offset. cbn [Z.to_nat skipn].
    replace (n <? 0)%Z with false by (symmetry; apply Z.ltb_ge; lia).
    rewrite rev_firstn_rev. unfold session_messages, select_messages.
    cbn [negb orb]. f_equal.
    - f_equal. rewrite !order_by_length. f_equal. apply filter_ext.
      intros r. now rewrite andb_true_r.
    - f_equal. apply filter_ext. intros r. now rewrite andb_true_r. }
  rewrite Hrows, skipn_map, length_map. split; [reflexivity|].
  rewrite length_map, length_skipn. lia.
Qed.

(** ** More properties: writing messages *)



Lemma row_to_message_inserted sid m id :
  row_to_message
    {| m_id := id; m_session_id := sid; m_role := role m; m_content := content m;
       m_timestamp := msg_timestamp m; m_token_count := token_count m;
       m_metadata := metadata m; is_summarized := false |} = m.
Proof. destruct m. reflexivity. Qed.




(** X5. In every store the application reaches, whatever fails,
    [save_message] either raises and leaves the store as it is, or appends
    one row that is not archived, carries the message and the session as
    given, and has the id it returns, an id greater than the id of every row
    of the table. *)
Theorem save_message_gives_fresh_id (events : list event) (sid : string) (m : Message) :
  let w := run_events events initial_world in
  outcome (save_message sid m) w
    (fun id w1 =>
       (forall r, In r (messages_table (w_db w)) -> (m_id r < id)%Z) /\
       exists row,
         messages_table (w_db w1) = messages_table (w_db w) ++ [row] /\
         m_id row = id /\ m_session_id row = sid /\ row_to_message row = m /\
         is_summarized row = false /\
         summaries_table (w_db w1) = summaries_table (w_db w))
    (fun _ w1 => w_db w1 = w_db w).
Proof.
  intros w.
  assert (Hfresh : ids_fresh (w_db w)).
  { apply (ids_fresh_steps _ _ (run_events_steps events initial_world)).
    split; constructor. }
  pose proof (save_message_outcome sid m w) as H. unfold outcome in *.
  unfold save_message, with_connection, sql in *.
  destruct (storage_fails (w_sql_ops w)); cbn [w_db with_db count_sql_op w_sql_ops] in *;
    [reflexivity|].
  destruct (storage_fails (S (w_sql_ops w))); cbn [w_db with_db count_sql_op w_sql_ops] in *;
    [reflexivity|].
  split.
  - destruct Hfresh as [_ Hlt]. rewrite Forall_forall in Hlt. exact Hlt.
  - eexists. unfold insert_message. cbn [messages_table summaries_table].
    split; [reflexivity|]. cbn [m_id m_session_id is_summarized].
    split; [reflexivity|]. split; [reflexivity|].
    split; [apply row_to_message_inserted|]. split; reflexivity.
Qed.

(** ** More properties: archiving a range, deleting a session *)

Lemma Forall2_map_self {A} (R : A -> A -> Prop) (f : A -> A) (l : list A) :
  (forall x, R x (f x)) -> Forall2 R l (map f l).
Proof.
  intros H. induction l as [|x l IH]; simpl; constructor; [apply H|exact IH].
Qed.

Lemma set_summarized_same r : is_summarized r = true -> set_summarized r = r.
Proof. destruct r as [? ? ? ? ? ? ? flag]. cbn. now intros ->. Qed.

Lemma mark_row_cases sid ids r :
  mark_row sid ids r = r \/
  (m_session_id r = sid /\ is_summarized r = false /\ mark_row sid ids r = set_summarized r).
Proof.
  unfold mark_row. destruct (in_session sid r) eqn:Hs; cbn [andb]; [|now left].
  destruct (mem_id (m_id r) ids); [|now left].
  destruct (is_summarized r) eqn:Hf.
  - left. now apply set_summarized_same.
  - right. split; [|split; reflexivity]. now apply String.eqb_eq in Hs.
Qed.

(** X6. Marking a range as summarized, however it ends, does nothing but
    set flags: every row of the table is left as it is or, when it belongs
    to the session and was not archived, gets its flag set; no flag is ever
    cleared, no row of another session is touched, no row is added or
    removed, and the summaries stay as they are. *)
Theorem mark_only_sets_flags (sid : string) (from to : Z) (w : World) :
  let db := w_db w in
  let db1 := w_db (snd (mark_messages_as_summarized sid from to w)) in
  Forall2 (fun r r1 =>
             r1 = r \/
             (m_session_id r = sid /\ is_summarized r = false /\ r1 = set_summarized r))
          (messages_table db) (messages_table db1) /\
  summaries_table db1 = summaries_table db /\
  next_message_id db1 = next_message_id db.
Proof.
  intros db db1.
  assert (Hsame : Forall2 (fun r r1 =>
             r1 = r \/
             (m_session_id r = sid /\ is_summarized r = false /\ r1 = set_summarized r))
          (messages_table db) (messages_table db)).
  { rewrite <- (map_id (messages_table db)) at 2.
    apply Forall2_map_self. intros x. now left. }
  unfold db1, mark_messages_as_summarized, with_connection, sql.
  destruct (storage_fails (w_sql_ops w)); cbn [snd w_db with_db count_sql_op w_sql_ops];
    [split; [exact Hsame|split; reflexivity]|].
  destruct (storage_fails (S (w_sql_ops w))); cbn [snd w_db with_db count_sql_op w_sql_ops];
    [split; [exact Hsame|split; reflexivity]|].
  split; [|split; reflexivity].
  unfold update_summarized. cbn [messages_table].
  apply Forall2_map_self. intros r.
  destruct (mark_row_cases sid (range_ids sid from to (w_db w)) r) as [H|[H1 [H2 H3]]].
  - left. exact H.
  - right. split; [exact H1|]. split; [exact H2|exact H3].
Qed.

Lemma update_summarized_no_ids sid from to db :
  range_ids sid from to db = [] -> update_summarized sid from to db = db.
Proof.
  intros H. unfold update_summarized. rewrite H.
  rewrite (map_ext _ (fun r => r)), map_id; [now destruct db|].
  intros r. unfold mark_row. cbn [mem_id existsb]. now rewrite andb_false_r.
Qed.

(** X7. A range that is empty, or that starts past the end of the
    session's log, archives nothing and is no error: the store is left as
    it is. *)
Theorem mark_outside_the_log_changes_nothing (sid : string) (from to : Z) (w : World) :
  (0 <= from)%Z ->
  to = (from - 1)%Z \/
  (Z.of_nat (List.length (session_messages sid (w_db w))) <= from)%Z ->
  w_db (snd (mark_messages_as_summarized sid from to w)) = w_db w.
Proof.
  intros Hfrom Hcase.
  assert (Hids : range_ids sid from to (w_db w) = []).
  { unfold range_ids, limit_offset. destruct Hcase as [->|Hlen].
    - replace (from - 1 - from + 1)%Z with 0%Z by lia. reflexivity.
    - rewrite skipn_all2 by lia.
      destruct (to - from + 1 <? 0)%Z; [reflexivity|]. now rewrite firstn_nil. }
  unfold mark_messages_as_summarized, with_connection, sql.
  destruct (storage_fails (w_sql_ops w)); cbn [snd w_db with_db count_sql_op w_sql_ops];
    [reflexivity|].
  destruct (storage_fails (S (w_sql_ops w))); cbn [snd w_db with_db count_sql_op w_sql_ops];
    [reflexivity|].
  now apply update_summarized_no_ids.
Qed.



Lemma order_by_nil {A} (key : A -> Z) (l : list A) : l = [] -> order_by key l = [].
Proof. now intros ->. Qed.

(** X9. Deleting a session is all or nothing.  When it returns, the
    session has no message, no summary and no tokens left, and what the
    other sessions hold, and the next row ids, are as before; when it
    raises, whichever of the three DELETE statements or the commit failed,
    the store is as before. *)
Theorem clear_session_removes_the_session (sid : string) (w : World) :
  outcome (clear_session sid) w
    (fun _ w1 =>
       (forall limit exclude, select_messages sid limit exclude (w_db w1) = []) /\
       select_recent_messages sid 10 (w_db w1) = [] /\
       select_all_summaries sid (w_db w1) = [] /\
       select_latest_summary sid (w_db w1) = None /\
       select_total_tokens sid false (w_db w1) = 0%Z /\
       (forall s, s <> sid ->
          (forall limit exclude,
             select_messages s limit exclude (w_db w1)
             = select_messages s limit exclude (w_db w)) /\
          select_all_summaries s (w_db w1) = select_all_summaries s (w_db w) /\
          select_latest_summary s (w_db w1) = select_latest_summary s (w_db w)) /\
       next_message_id (w_db w1) = next_message_id (w_db w) /\
       next_summary_id (w_db w1) = next_summary_id (w_db w))
    (fun _ w1 => w_db w1 = w_db w).
Proof.
  pose proof (clear_session_outcome sid w) as H. unfold outcome in *.
  destruct (clear_session sid w) as [[u|e] w1]; [|apply H].
  destruct H as [-> _].
  unfold delete_query_analysis, delete_summaries, delete_messages.
  cbn [messages_table summaries_table next_message_id next_summary_id].
  assert (Hm : forall p : MessageRow -> bool,
             filter (fun r => in_session sid r && p r)
                    (filter (fun r => negb (in_session sid r)) (messages_table (w_db w))) = []).
  { intros p. induction (messages_table (w_db w)) as [|r l IH]; [reflexivity|].
    cbn [filter]. destruct (in_session sid r) eqn:Hr; cbn [negb]; [exact IH|].
    cbn [filter]. rewrite Hr. exact IH. }
  assert (Hm' : filter (in_session sid)
                  (filter (fun r => negb (in_session sid r)) (messages_table (w_db w))) = [])
    by apply filter_none.
  assert (Hs : filter (summary_in_session sid)
                 (filter (fun r => negb (summary_in_session sid r)) (summaries_table (w_db w)))
               = []) by apply filter_none.
  split.
  { intros limit exclude. unfold select_messages. cbn [messages_table].
    rewrite Hm. cbn [order_by]. destruct limit as [n|]; [|reflexivity].
    destruct (n =? 0)%Z; [reflexivity|]. unfold limit_offset. cbn [Z.to_nat skipn].
    destruct (n <? 0)%Z; [reflexivity|apply firstn_nil]. }
  split.
  { unfold select_recent_messages, session_messages. cbn [messages_table].
    rewrite Hm'. reflexivity. }
  split.
  { unfold select_all_summaries. cbn [summaries_table]. now rewrite Hs. }
  split.
  { unfold select_latest_summary. cbn [summaries_table]. now rewrite Hs. }
  split.
  { unfold select_total_tokens, selected. cbn [messages_table]. now rewrite Hm. }
  split; [|split; reflexivity].
  intros s Hne. split; [|split].
  - intros limit exclude. unfold select_messages. cbn [messages_table].
    rewrite (filter_disjoint _ (in_session sid)); [reflexivity|].
    intros r Hr. apply andb_true_iff in Hr. destruct Hr as [Hr _].
    eapply in_session_other; eassumption.
  - unfold select_all_summaries. cbn [summaries_table].
    rewrite (filter_disjoint _ (summary_in_session sid)); [reflexivity|].
    intros r Hr. eapply summary_in_session_other; eassumption.
  - unfold select_latest_summary. cbn [summaries_table].
    rewrite (filter_disjoint _ (summary_in_session sid)); [reflexivity|].
    intros r Hr. eapply summary_in_session_other; eassumption.
Qed.

(** ** More properties: summaries *)

Lemma hd_error_map {A B} (f : A -> B) (l : list A) :
  hd_error (map f l) = option_map f (hd_error l).
Proof. now destruct l. Qed.

Lemma select_latest_summary_newest sid db :
  match select_latest_summary sid db with
  | None => select_all_summaries sid db = []
  | Some r =>
      In r (select_all_summaries sid db) /\
      forall r', In r' (select_all_summaries sid db) -> (s_timestamp r' <= s_timestamp r)%Z
  end.
Proof.
  unfold select_latest_summary, select_all_summaries, order_by_desc.
  set (rows := filter (summary_in_session sid) (summaries_table db)).
  pose proof (order_by_nondecreasing (fun x => (- s_timestamp x)%Z) rows) as Hsorted.
  destruct (order_by (fun x => (- s_timestamp x)%Z) rows) as [|r rest]; cbn [hd_error].
  - reflexivity.
  - split.
    + apply (proj1 (in_rev _ _)). now left.
    + intros r' Hr'. apply (proj2 (in_rev _ _)) in Hr'.
      destruct Hr' as [<-|Hr']; [lia|].
      cbn [map nondecreasing] in Hsorted. destruct Hsorted as [Hr _].
      rewrite Forall_forall in Hr.
      specialize (Hr (- s_timestamp r')%Z (in_map (fun x => (- s_timestamp x)%Z) _ _ Hr')).
      lia.
Qed.

(** X10. [get_latest_summary] returns nothing exactly when the session has
    no summary; otherwise it returns one of the summaries
    [get_all_summaries] lists, and none of them has a later timestamp. *)
Theorem latest_summary_is_newest (sid : string) (w : World) :
  storage_healthy ->
  exists latest w1 every w2,
    get_latest_summary sid w = (Ok latest, w1) /\
    get_all_summaries sid w = (Ok every, w2) /\
    (latest = None <-> every = []) /\
    (forall s, latest = Some s ->
       In s every /\ forall s', In s' every -> (timestamp s' <= timestamp s)%Z).
Proof.
  intros healthy. rewrite (get_latest_summary_healthy healthy).
  assert (Hall : get_all_summaries sid w
                 = (Ok (map row_to_summary (select_all_summaries sid (w_db w))),
                    skip_sql_ops 2 w)).
  { unfold get_all_summaries, with_connection, bind, sql, ret.
    rewrite healthy. simpl. rewrite healthy. reflexivity. }
  rewrite Hall. eexists. eexists. eexists. eexists.
  split; [reflexivity|]. split; [reflexivity|].
  pose proof (select_latest_summary_newest sid (w_db w)) as H.
  destruct (select_latest_summary sid (w_db w)) as [r|]; cbn [option_map].
  - destruct H as [Hin Hmax]. split.
    + split; [discriminate|]. intros Hnil.
      destruct (select_all_summaries sid (w_db w)); [contradiction|discriminate].
    + intros s Hs. injection Hs as <-. split; [now apply in_map|].
      intros s' Hs'. apply in_map_iff in Hs'. destruct Hs' as [r' [<- Hr']].
      cbn [row_to_summary timestamp]. now apply Hmax.
  - rewrite H. split; [split; reflexivity|]. intros s Hs. discriminate.
Qed.

Lemma insert_by_after_head {A} (key : A -> Z) (a x : A) (s : list A) :
  (key x < key a)%Z -> insert_by key a (x :: s) = x :: insert_by key a s.
Proof.
  intros H. cbn [insert_by].
  replace (key a <=? key x)%Z with false by (symmetry; apply Z.leb_gt; assumption).
  reflexivity.
Qed.

(** A row with the least key comes first. *)
Lemma order_by_least_last {A} (key : A -> Z) (x : A) (l : list A) :
  Forall (fun y => (key x < key y)%Z) l ->
  order_by key (l ++ [x]) = x :: order_by key l.
Proof.
  induction l as [|a l IH]; intros H; [reflexivity|].
  inversion H as [|? ? Ha Hl]; subst. simpl.
  rewrite (IH Hl). now apply insert_by_after_head.
Qed.

Lemma row_to_summary_row id sid s : row_to_summary (summary_row id sid s) = s.
Proof. destruct s as [summary [f t] ts]. reflexivity. Qed.

Lemma all_strings_of_strings (l : list string) : all_strings (map JStr l) = Some l.
Proof. induction l as [|x l IH]; cbn; [reflexivity|]. now rewrite IH. Qed.

(** X11. A summary with a valid range (both ends from 0 up, as every
    [MessageRange] has) that is saved with a timestamp later than those of
    the session's summaries is what [get_latest_summary] returns next.  The
    row it selects is the one just inserted, under the id [save_summary]
    returned, and read as the code reads it, it gives the summary back: the
    dictionary dumped from its content is accepted by the [SessionSummary]
    constructor with the same content, its two indices pass the validation
    of [MessageRange] with the same range, and its timestamp is the same. *)
Theorem saved_summary_is_latest (sid : string) (s : SessionMemoryOutput) (w : World) :
  storage_healthy ->
  (0 <= from_index (message_range_summarized s))%Z ->
  (0 <= to_index (message_range_summarized s))%Z ->
  (forall r, In r (summaries_table (w_db w)) -> s_session_id r = sid ->
             (s_timestamp r < timestamp s)%Z) ->
  exists id w1 w2 row,
    save_summary sid s w = (Ok id, w1) /\
    get_latest_summary sid w1 = (Ok (Some s), w2) /\
    select_latest_summary sid (w_db w1) = Some row /\
    id = next_summary_id (w_db w) /\
    s_id row = id /\
    s_session_id row = sid /\
    validate_SessionSummary (dump_SessionSummary (summary_json row))
    = Some (session_summary s) /\
    validate_MessageRange (from_message_index row) (to_message_index row)
    = Some (message_range_summarized s) /\
    s_timestamp row = timestamp s.
Proof.
  intros healthy Hfrom Hto Hts. rewrite (save_summary_healthy healthy).
  assert (Hrow : select_latest_summary sid
                   (update_summarized sid (from_index (message_range_summarized s))
                      (to_index (message_range_summarized s)) (insert_summary sid s (w_db w)))
                 = Some (summary_row (next_summary_id (w_db w)) sid s)).
  { unfold select_latest_summary, order_by_desc, update_summarized, insert_summary.
    cbn [summaries_table]. rewrite filter_app. cbn [filter].
    unfold summary_in_session at 2. cbn [s_session_id summary_row].
    rewrite String.eqb_refl, order_by_least_last; [reflexivity|].
    rewrite Forall_forall. intros r Hr. apply filter_In in Hr. destruct Hr as [Hin Hs].
    cbn [s_timestamp summary_row].
    assert ((s_timestamp r < timestamp s)%Z); [|lia].
    apply Hts; [assumption|]. now apply String.eqb_eq in Hs. }
  eexists. eexists. eexists. exists (summary_row (next_summary_id (w_db w)) sid s).
  split; [reflexivity|].
  rewrite (get_latest_summary_healthy healthy). cbn [w_db with_db skip_sql_ops].
  rewrite Hrow. cbn [option_map]. rewrite row_to_summary_row.
  split; [reflexivity|]. split; [reflexivity|]. split; [reflexivity|].
  split; [reflexivity|]. split; [reflexivity|].
  cbn [summary_json from_message_index to_message_index s_timestamp summary_row].
  split; [|split; [|reflexivity]].
  - destruct (session_summary s) as [[prefs cons] facts decs questions tds].
    unfold validate_SessionSummary, dump_SessionSummary, dump_UserProfile,
      validate_UserProfile, field_str_list, validate_str_list, str_list_json.
    cbn [dict_get String.eqb Ascii.eqb Bool.eqb user_profile preferences constraints
         key_facts decisions open_questions todos].
    now rewrite !all_strings_of_strings.
  - unfold validate_MessageRange.
    replace (0 <=? from_index (message_range_summarized s))%Z with true
      by (symmetry; now apply Z.leb_le).
    replace (0 <=? to_index (message_range_summarized s))%Z with true
      by (symmetry; now apply Z.leb_le).
    cbn [andb]. now destruct (message_range_summarized s).
Qed.

(** X12. A summary survives the store: the dictionary [model_dump] makes
    of a session summary, which [save_summary] writes, is accepted by the
    [SessionSummary] constructor, with which [get_latest_summary] and
    [get_all_summaries] read it, and gives the same summary back. *)
Theorem summary_dump_round_trip (s : SessionSummary) :
  validate_SessionSummary (dump_SessionSummary s) = Some s.
Proof.
  destruct s as [[prefs cons] facts decs questions tds].
  unfold validate_SessionSummary, dump_SessionSummary, dump_UserProfile, validate_UserProfile,
    field_str_list, validate_str_list, str_list_json.
  cbn [dict_get String.eqb Ascii.eqb Bool.eqb user_profile preferences constraints key_facts
       decisions open_questions todos].
  now rewrite !all_strings_of_strings.
Qed.

(** ** More properties: what the pipeline and the chat handler change *)

Lemma validate_MessageRange_valid (f t : Z) (r : MessageRange) :
  validate_MessageRange f t = Some r ->
  validate_MessageRange (from_index r) (to_index r) = Some r.
Proof.
  unfold validate_MessageRange.
  destruct ((0 <=? f)%Z && (0 <=? t)%Z) eqn:E; [|discriminate].
  intros H. injection H as <-. cbn [from_index to_index]. now rewrite E.
Qed.

(** A property of the store that compactions of a session keep is kept by
    the summarizer, however its calls end.  The summaries it inserts carry
    a range that has passed the validation of [MessageRange]. *)
Lemma summarizer_agent_preserves_valid (P : Database -> Prop) st w :
  (forall db s,
     validate_MessageRange (from_index (message_range_summarized s))
       (to_index (message_range_summarized s)) = Some (message_range_summarized s) ->
     P db -> P (insert_summary (session_id st) s db)) ->
  (forall db f t, P db -> P (update_summarized (session_id st) f t db)) ->
  P (w_db w) -> P (w_db (snd (summarizer_agent st w))).
Proof.
  intros Hins Hupd HP. unfold summarizer_agent.
  destruct (messages st) as [|m ms]; [exact HP|].
  unfold bind.
  pose proof (get_latest_summary_outcome (session_id st) w) as H1. unfold outcome in H1.
  destruct (get_latest_summary (session_id st) w) as [[prev|e] w1]; cbn [snd];
    [|destruct H1 as [-> _]; exact HP].
  destruct H1 as [Hdb1 _].
  match goal with |- context [llm_invoke ?r w1] =>
    pose proof (llm_invoke_outcome r w1) as H2; unfold outcome in H2;
    destruct (llm_invoke r w1) as [[response|e] w2]
  end; cbn [snd]; [|destruct H2 as [-> _]; now rewrite Hdb1].
  destruct H2 as [Hdb2 _].
  pose proof (get_messages_outcome (session_id st) None false w2) as H3. unfold outcome in H3.
  destruct (get_messages (session_id st) None false w2) as [[every|e] w3]; cbn [snd];
    [|destruct H3 as [-> _]; now rewrite Hdb2, Hdb1].
  destruct H3 as [[Hdb3 _] _].
  assert (HP3 : P (w_db w3)) by now rewrite Hdb3, Hdb2, Hdb1.
  destruct (validate_MessageRange _ _) as [range|] eqn:Hrange; [|exact HP3].
  apply validate_MessageRange_valid in Hrange.
  unfold now.
  match goal with |- context [save_summary ?sid ?out ?v] =>
    pose proof (save_summary_outcome sid out v) as H5; unfold outcome in H5;
    destruct (save_summary sid out v) as [[id|e] w5]
  end; cbn [snd];
    [|destruct H5 as [Hdb5 _]; cbn [w_db count_clock_read] in Hdb5; rewrite Hdb5; exact HP3].
  destruct H5 as [Hdb5 _]. cbn [w_db count_clock_read] in Hdb5.
  assert (HP5 : P (w_db w5)).
  { rewrite Hdb5. apply Hupd, Hins; [exact Hrange|exact HP3]. }
  match goal with |- context [mark_messages_as_summarized ?sid ?f ?t w5] =>
    pose proof (mark_messages_as_summarized_outcome sid f t w5) as H6; unfold outcome in H6;
    destruct (mark_messages_as_summarized sid f t w5) as [[u|e] w6]
  end; unfold ret; cbn [snd].
  - destruct H6 as [-> _]. now apply Hupd.
  - destruct H6 as [-> _]. exact HP5.
Qed.

Lemma run_preserves_valid (P : Database -> Prop) sid query w :
  (forall db s,
     validate_MessageRange (from_index (message_range_summarized s))
       (to_index (message_range_summarized s)) = Some (message_range_summarized s) ->
     P db -> P (insert_summary sid s db)) ->
  (forall db f t, P db -> P (update_summarized sid f t db)) ->
  P (w_db w) -> P (w_db (snd (run sid query w))).
Proof.
  intros Hins Hupd HP. unfold run, bind.
  pose proof (context_agent_outcome (initial_state sid query) w) as H1. unfold outcome in H1.
  destruct (context_agent (initial_state sid query) w) as [[st1|e] w1]; cbn [snd];
    [|destruct H1 as [-> _]; exact HP].
  destruct H1 as [[Hdb1 _] [Hsid _]]. cbn [session_id initial_state] in Hsid.
  assert (H2 : P (w_db (snd ((if should_summarize st1 then summarizer_agent st1 else ret st1)
                                w1)))).
  { destruct (should_summarize st1); [|cbn [snd ret]; now rewrite Hdb1].
    apply summarizer_agent_preserves_valid; rewrite ?Hsid; try assumption.
    now rewrite Hdb1. }
  destruct ((if should_summarize st1 then summarizer_agent st1 else ret st1) w1)
    as [[st2|e] w2]; [|exact H2].
  cbn [snd] in H2.
  pose proof (query_agent_same_store st2 w2) as H3.
  destruct (query_agent st2 w2) as [[st3|e] w3]; cbn [snd] in *;
    [|destruct H3 as [-> _]; exact H2].
  destruct (response_agent_same_store st3 w3) as [-> _].
  destruct H3 as [-> _]. exact H2.
Qed.

Lemma on_chat_input_preserves_valid (P : Database -> Prop) sid prompt w :
  (forall db s,
     validate_MessageRange (from_index (message_range_summarized s))
       (to_index (message_range_summarized s)) = Some (message_range_summarized s) ->
     P db -> P (insert_summary sid s db)) ->
  (forall db f t, P db -> P (update_summarized sid f t db)) ->
  (forall db r c ts md, r = "user" \/ r = "assistant" ->
     P db -> P (insert_message sid (new_message r c ts md) db)) ->
  P (w_db w) -> P (w_db (snd (on_chat_input sid prompt w))).
Proof.
  intros Hins Hupd Hmsg HP. unfold on_chat_input.
  destruct (str_truthy prompt); [|exact HP].
  unfold bind at 1.
  pose proof (run_preserves_valid P sid prompt w Hins Hupd HP) as H1.
  destruct (run sid prompt w) as [[result|e] w1]; cbn [snd] in H1; [|exact H1].
  unfold bind, now.
  match goal with |- context [save_message sid ?m ?v] =>
    pose proof (save_message_outcome sid m v) as H2; unfold outcome in H2;
    destruct (save_message sid m v) as [[id|e] w2]
  end; cbn [w_db w_clock_reads count_clock_read] in H2; cbn [snd];
    [|destruct H2 as [-> _]; exact H1].
  destruct H2 as [Hdb2 _].
  assert (HP2 : P (w_db w2)) by (rewrite Hdb2; apply Hmsg; [now left|exact H1]).
  match goal with |- context [save_message sid ?m ?v] =>
    pose proof (save_message_outcome sid m v) as H3; unfold outcome in H3;
    destruct (save_message sid m v) as [[id2|e] w3]
  end; cbn [w_db w_clock_reads count_clock_read] in H3; unfold ret; cbn [snd].
  - destruct H3 as [-> _]. apply Hmsg; [now right|exact HP2].
  - destruct H3 as [-> _]. exact HP2.
Qed.

(** A property of the store that every write of the application keeps holds
    in every store the application reaches. *)
Lemma run_events_preserves_valid (P : Database -> Prop) :
  (forall sid db s,
     validate_MessageRange (from_index (message_range_summarized s))
       (to_index (message_range_summarized s)) = Some (message_range_summarized s) ->
     P db -> P (insert_summary sid s db)) ->
  (forall sid db f t, P db -> P (update_summarized sid f t db)) ->
  (forall sid db r c ts md, r = "user" \/ r = "assistant" ->
     P db -> P (insert_message sid (new_message r c ts md) db)) ->
  (forall sid db,
     P db -> P (delete_query_analysis sid (delete_summaries sid (delete_messages sid db)))) ->
  forall events w, P (w_db w) -> P (w_db (run_events events w)).
Proof.
  intros Hins Hupd Hmsg Hdel events.
  induction events as [|e events IH]; intros w HP; [exact HP|].
  cbn [run_events]. apply IH.
  assert (Hclear : forall sid, P (w_db (snd (clear_session sid w)))).
  { intros sid. pose proof (clear_session_outcome sid w) as H. unfold outcome in H.
    destruct (clear_session sid w) as [[u|err] w1]; cbn [snd]; destruct H as [-> _];
      [now apply Hdel|exact HP]. }
  destruct e as [sid prompt|sid|sid]; cbn [handle_event].
  - apply on_chat_input_preserves_valid; [apply Hins|apply Hupd|apply Hmsg|exact HP].
  - apply Hclear.
  - apply Hclear.
Qed.

(** The same for a property that the insertion of any summary keeps. *)
Lemma summarizer_agent_preserves (P : Database -> Prop) st w :
  (forall db s, P db -> P (insert_summary (session_id st) s db)) ->
  (forall db f t, P db -> P (update_summarized (session_id st) f t db)) ->
  P (w_db w) -> P (w_db (snd (summarizer_agent st w))).
Proof.
  intros Hins Hupd. apply summarizer_agent_preserves_valid; [|exact Hupd].
  intros db s _. apply Hins.
Qed.

Lemma run_preserves (P : Database -> Prop) sid query w :
  (forall db s, P db -> P (insert_summary sid s db)) ->
  (forall db f t, P db -> P (update_summarized sid f t db)) ->
  P (w_db w) -> P (w_db (snd (run sid query w))).
Proof.
  intros Hins Hupd. apply run_preserves_valid; [|exact Hupd].
  intros db s _. apply Hins.
Qed.

Lemma on_chat_input_preserves (P : Database -> Prop) sid prompt w :
  (forall db s, P db -> P (insert_summary sid s db)) ->
  (forall db f t, P db -> P (update_summarized sid f t db)) ->
  (forall db r c ts md, r = "user" \/ r = "assistant" ->
     P db -> P (insert_message sid (new_message r c ts md) db)) ->
  P (w_db w) -> P (w_db (snd (on_chat_input sid prompt w))).
Proof.
  intros Hins Hupd Hmsg. apply on_chat_input_preserves_valid; [|exact Hupd|exact Hmsg].
  intros db s _. apply Hins.
Qed.

Lemma run_events_preserves (P : Database -> Prop) :
  (forall sid db s, P db -> P (insert_summary sid s db)) ->
  (forall sid db f t, P db -> P (update_summarized sid f t db)) ->
  (forall sid db r c ts md, r = "user" \/ r = "assistant" ->
     P db -> P (insert_message sid (new_message r c ts md) db)) ->
  (forall sid db,
     P db -> P (delete_query_analysis sid (delete_summaries sid (delete_messages sid db)))) ->
  forall events w, P (w_db w) -> P (w_db (run_events events w)).
Proof.
  intros Hins Hupd Hmsg Hdel. apply run_events_preserves_valid; [|exact Hupd|exact Hmsg|exact Hdel].
  intros sid db s _. apply Hins.
Qed.

(** Every summary row of a store the application reaches carries a range
    that passes the validation of [MessageRange]: the readers, which build
    a [MessageRange] from the two indices of a row, never fail on it. *)
Lemma reachable_ranges_valid events :
  Forall (fun r => validate_MessageRange (from_message_index r) (to_message_index r)
                   = Some (message_range_summarized (row_to_summary r)))
         (summaries_table (w_db (run_events events initial_world))).
Proof.
  apply (run_events_preserves_valid
           (fun db =>
              Forall (fun r => validate_MessageRange (from_message_index r)
                                 (to_message_index r)
                               = Some (message_range_summarized (row_to_summary r)))
                     (summaries_table db))).
  - intros sid db s Hs H. cbn [insert_summary summaries_table].
    apply Forall_app. split; [exact H|]. constructor; [|constructor].
    rewrite row_to_summary_row. exact Hs.
  - intros sid db f t H. exact H.
  - intros sid db r c ts md _ H. exact H.
  - intros sid db H.
    cbn [delete_query_analysis delete_summaries delete_messages summaries_table].
    apply Forall_forall. intros r Hr. apply filter_In in Hr.
    rewrite Forall_forall in H. apply H, Hr.
  - constructor.
Qed.

(** ** More properties: the token totals of the store *)

Lemma count_total_tokens_outcome sid exclude w :
  outcome (count_total_tokens sid exclude) w
    (fun n w' => same_store w w' /\ n = select_total_tokens sid exclude (w_db w))
    (fun _ w' => same_store w w').
Proof.
  unfold outcome, count_total_tokens, with_connection, bind, sql, ret, same_store.
  fault_cases; cbn [w_db w_clock_reads with_db count_sql_op]; repeat split.
Qed.

(** Every row the chat handler has stored carries the count the token
    counter gives for its role and content. *)
Lemma reachable_rows_counted events :
  Forall (fun r => m_token_count r = Some (count_message_tokens (row_to_message r)))
         (messages_table (w_db (run_events events initial_world))).
Proof.
  apply (run_events_preserves
           (fun db => Forall (fun r => m_token_count r
                                       = Some (count_message_tokens (row_to_message r)))
                             (messages_table db))).
  - intros sid db s H. exact H.
  - intros sid db f t H. cbn [update_summarized messages_table].
    apply Forall_map. apply (Forall_impl _ (P := fun r => m_token_count r
                                       = Some (count_message_tokens (row_to_message r))));
      [|exact H].
    intros r Hr.
    destruct (mark_row_cases sid (range_ids sid f t db) r) as [->|(_ & _ & ->)];
      [exact Hr|].
    destruct r; exact Hr.
  - intros sid db r c ts md _ H. cbn [insert_message messages_table].
    apply Forall_app. split; [exact H|]. constructor; [|constructor]. reflexivity.
  - intros sid db H. cbn [delete_query_analysis delete_summaries delete_messages messages_table].
    apply Forall_forall. intros r Hr. apply filter_In in Hr.
    rewrite Forall_forall in H. apply H, Hr.
  - constructor.
Qed.

Lemma recorded_total_is_counted sid exclude db :
  Forall (fun r => m_token_count r = Some (count_message_tokens (row_to_message r)))
         (messages_table db) ->
  select_total_tokens sid exclude db
  = count_messages_tokens (map row_to_message (select_messages sid None exclude db)).
Proof.
  intros H. rewrite count_messages_tokens_sum, map_map, select_messages_all.
  rewrite (Zsum_perm _ _ (Permutation_map _ (order_by_perm _ _))).
  unfold select_total_tokens. change (fold_right Z.add 0%Z) with Zsum. f_equal.
  apply map_ext_in. intros r Hr. apply filter_In in Hr. destruct Hr as [Hr _].
  rewrite Forall_forall in H. unfold token_count_or_zero. now rewrite (H r Hr).
Qed.

(** X13. In every store the application reaches (whatever calls failed on
    the way), the total [count_total_tokens] reads from the [token_count]
    column is the total the token counter gives for the messages
    [get_messages] returns with the same flag: for the live context it is the
    number the trigger check compares with the threshold. *)
Theorem count_total_tokens_matches_counter
    (events : list event) (sid : string) (exclude : bool)
    (n : Z) (msgs : list Message) (w1 w2 : World) :
  let w := run_events events initial_world in
  count_total_tokens sid exclude w = (Ok n, w1) ->
  get_messages sid None exclude w = (Ok msgs, w2) ->
  n = count_messages_tokens msgs.
Proof.
  intros w Hn Hm.
  pose proof (count_total_tokens_outcome sid exclude w) as H1. unfold outcome in H1.
  rewrite Hn in H1. destruct H1 as [_ ->].
  pose proof (get_messages_outcome sid None exclude w) as H2. unfold outcome in H2.
  rewrite Hm in H2. destruct H2 as [_ ->].
  apply recorded_total_is_counted, reachable_rows_counted.
Qed.

(** X14. With healthy storage [get_session_stats] returns, leaves the store
    as it is, and its three numbers are the number of messages
    [get_messages] returns for the whole session, the number of summaries
    [get_all_summaries] returns, and the total [count_total_tokens] gives
    with archived messages included. *)
Theorem get_session_stats_consistent (sid : string) (w : World) :
  storage_healthy ->
  exists stats w1 msgs w2 sums w3 n w4,
    get_session_stats sid w = (Ok stats, w1) /\
    w_db w1 = w_db w /\
    get_messages sid None false w = (Ok msgs, w2) /\
    get_all_summaries sid w = (Ok sums, w3) /\
    count_total_tokens sid false w = (Ok n, w4) /\
    message_count stats = List.length msgs /\
    summary_count stats = List.length sums /\
    stats_total_tokens stats = n.
Proof.
  intros healthy.
  unfold get_session_stats, get_all_summaries, count_total_tokens, with_connection, bind,
    sql, ret.
  rewrite (get_messages_healthy healthy).
  repeat (rewrite healthy; cbn [w_db w_sql_ops with_db count_sql_op]).
  do 8 eexists. split; [reflexivity|]. split; [reflexivity|].
  split; [reflexivity|]. split; [reflexivity|]. split; [reflexivity|].
  split; [|split; [|reflexivity]].
  - cbn [message_count]. rewrite length_map, select_all_length. reflexivity.
  - cbn [summary_count]. rewrite length_map. unfold select_all_summaries, order_by_desc.
    rewrite length_rev, order_by_length. reflexivity.
Qed.

(** ** More properties: what a run of the graph returns *)

Lemma context_agent_result st w st' w' :
  context_agent st w = (Ok st', w') ->
  let msgs := map row_to_message (select_messages (session_id st) None true (w_db w)) in
  same_store w w' /\
  st' = set_context msgs (count_messages_tokens msgs)
          (token_threshold <? count_messages_tokens msgs)%Z st.
Proof.
  intros H msgs. unfold context_agent, bind, ret in H.
  pose proof (get_messages_outcome (session_id st) None true w) as H1. unfold outcome in H1.
  destruct (get_messages (session_id st) None true w) as [[got|e] w1]; [|discriminate].
  destruct H1 as [Hs ->]. injection H as <- <-. split; [exact Hs|reflexivity].
Qed.

(** The summarizer returns either at once, its state and the world as they
    were, or after it has committed the summary it returns. *)
Lemma summarizer_agent_result st w st' w' :
  summarizer_agent st w = (Ok st', w') ->
  let sid := session_id st in
  let stored := Z.of_nat (List.length (filter (in_session sid) (messages_table (w_db w)))) in
  let merged := Z.of_nat (List.length (messages st)) in
  (messages st = [] /\ st' = st /\ w' = w) \/
  (messages st <> [] /\
   exists out,
     st' = set_session_summary out st /\
     from_index (message_range_summarized out) = (stored - merged)%Z /\
     to_index (message_range_summarized out) = (stored - 1)%Z /\
     timestamp out = clock (w_clock_reads w) /\
     w_db w' = update_summarized sid (stored - merged) (stored - 1)
                 (insert_summary sid out (w_db w)) /\
     w_clock_reads w' = S (w_clock_reads w)).
Proof.
  intros H sid stored merged. unfold merged. clear merged. unfold summarizer_agent in H.
  destruct (messages st) as [|m ms] eqn:Hst.
  { left. unfold ret in H. injection H as <- <-. repeat split. }
  right. split; [discriminate|]. rewrite <- Hst in H |- *.
  set (merged := Z.of_nat (List.length (messages st))) in *.
  fold sid in H. unfold bind in H.
  pose proof (get_latest_summary_outcome sid w) as H1. unfold outcome in H1.
  destruct (get_latest_summary sid w) as [[prev|e] w1]; [|discriminate].
  destruct H1 as [Hdb1 Hk1].
  match type of H with context [llm_invoke ?r w1] =>
    pose proof (llm_invoke_outcome r w1) as H2; unfold outcome in H2;
    destruct (llm_invoke r w1) as [[response|e] w2]
  end; [|discriminate].
  destruct H2 as [Hdb2 Hk2].
  pose proof (get_messages_outcome sid None false w2) as H3. unfold outcome in H3.
  destruct (get_messages sid None false w2) as [[every|e] w3]; [|discriminate].
  destruct H3 as [[Hdb3 Hk3] Hevery].
  assert (Hlen : Z.of_nat (List.length every) = stored).
  { rewrite Hevery, length_map, select_all_length, Hdb2, Hdb1. reflexivity. }
  rewrite Hlen in H.
  unfold validate_MessageRange in H.
  destruct ((0 <=? stored - merged)%Z && (0 <=? stored - 1)%Z);
    [|unfold raise in H; discriminate].
  unfold now in H.
  match type of H with context [save_summary sid ?o ?v] =>
    set (out := o) in H;
    pose proof (save_summary_outcome sid out v) as H5; unfold outcome in H5;
    destruct (save_summary sid out v) as [[id|e] w5]
  end; [|discriminate].
  destruct H5 as [Hdb5 Hk5]. cbn [w_db w_clock_reads count_clock_read] in Hdb5, Hk5.
  pose proof (mark_messages_as_summarized_outcome sid (stored - merged) (stored - 1) w5)
    as H6. unfold outcome in H6.
  destruct (mark_messages_as_summarized sid (stored - merged) (stored - 1) w5)
    as [[u|e] w6]; [|discriminate].
  destruct H6 as [Hdb6 Hk6]. unfold ret in H. injection H as <- <-.
  exists out. split; [reflexivity|]. split; [reflexivity|]. split; [reflexivity|].
  split; [cbn [out timestamp]; now rewrite Hk3, Hk2, Hk1|].
  split.
  - rewrite Hdb6, Hdb5. cbn [out message_range_summarized from_index to_index].
    rewrite update_summarized_idempotent. now rewrite Hdb3, Hdb2, Hdb1.
  - now rewrite Hk6, Hk5, Hk3, Hk2, Hk1.
Qed.

Lemma query_agent_keeps st w st' w' :
  query_agent st w = (Ok st', w') ->
  session_id st' = session_id st /\ user_query st' = user_query st /\
  state_session_summary st' = state_session_summary st.
Proof.
  unfold query_agent, bind, ret.
  destruct (str_truthy (user_query st)).
  - destruct (get_recent_messages (session_id st) 10 w) as [[recent|e] w1]; [|discriminate].
    destruct (get_latest_summary (session_id st) w1) as [[summary|e] w2]; [|discriminate].
    destruct (llm_invoke _ w2) as [[response|e] w3]; [|discriminate].
    intros H. injection H as <- _. repeat split.
  - intros H. injection H as <- _. repeat split.
Qed.

Lemma response_agent_keeps st w st' w' :
  response_agent st w = (Ok st', w') ->
  session_id st' = session_id st /\ user_query st' = user_query st /\
  state_session_summary st' = state_session_summary st /\
  query_understanding st' = query_understanding st.
Proof.
  unfold response_agent, bind, ret.
  destruct (query_understanding st) as [qu|] eqn:Hqu.
  - destruct (hard_stop qu).
    + intros H. injection H as <- _. repeat split. exact Hqu.
    + destruct (llm_invoke _ w) as [[response|e] w3]; [|discriminate].
      intros H. injection H as <- _. repeat split. exact Hqu.
  - intros H. injection H as <- _. repeat split. exact Hqu.
Qed.

(** What a run that returns has done to the store, read off the summary in
    its final state. *)
Lemma run_result sid query w st' w' :
  run sid query w = (Ok st', w') ->
  let db := w_db w in
  let stored := Z.of_nat (List.length (filter (in_session sid) (messages_table db))) in
  let live := select_messages sid None true db in
  let merged := Z.of_nat (List.length live) in
  session_id st' = sid /\ user_query st' = query /\
  match state_session_summary st' with
  | None =>
      ((count_messages_tokens (map row_to_message live) <= token_threshold)%Z \/ live = []) /\
      same_store w w'
  | Some out =>
      (token_threshold < count_messages_tokens (map row_to_message live))%Z /\
      (1 <= merged)%Z /\
      from_index (message_range_summarized out) = (stored - merged)%Z /\
      to_index (message_range_summarized out) = (stored - 1)%Z /\
      timestamp out = clock (w_clock_reads w) /\
      w_db w' = update_summarized sid (from_index (message_range_summarized out))
                  (to_index (message_range_summarized out)) (insert_summary sid out db) /\
      w_clock_reads w' = S (w_clock_reads w)
  end.
Proof.
  intros H db stored live merged. unfold run, bind in H.
  destruct (context_agent (initial_state sid query) w) as [[st1|e] w1] eqn:H1; [|discriminate].
  apply context_agent_result in H1. cbn [session_id initial_state] in H1.
  fold db in H1. fold live in H1. destruct H1 as [[Hdb1 Hk1] Hst1].
  destruct ((if should_summarize st1 then summarizer_agent st1 else ret st1) w1)
    as [[st2|e] w2] eqn:H2; [|discriminate].
  destruct (query_agent st2 w2) as [[st3|e] w3] eqn:H3; [|discriminate].
  pose proof (query_agent_same_store st2 w2) as Hs3. rewrite H3 in Hs3. cbn [snd] in Hs3.
  pose proof (response_agent_same_store st3 w3) as Hs4. rewrite H in Hs4. cbn [snd] in Hs4.
  apply query_agent_keeps in H3. apply response_agent_keeps in H.
  destruct H3 as (Hsid3 & Hq3 & Hsum3). destruct H as (Hsid4 & Hq4 & Hsum4 & _).
  destruct Hs3 as [Hdb3 Hk3]. destruct Hs4 as [Hdb4 Hk4].
  assert (Hsid1 : session_id st1 = sid) by now rewrite Hst1.
  assert (Hq1 : user_query st1 = query) by now rewrite Hst1.
  assert (Hsum1 : state_session_summary st1 = None) by now rewrite Hst1.
  assert (Hmsgs1 : messages st1 = map row_to_message live) by now rewrite Hst1.
  assert (Hneeds : should_summarize st1
                   = (token_threshold <? count_messages_tokens (map row_to_message live))%Z)
    by now rewrite Hst1.
  rewrite Hsum4, Hsum3, Hsid4, Hsid3, Hq4, Hq3.
  rewrite Hneeds in H2.
  destruct (token_threshold <? count_messages_tokens (map row_to_message live))%Z eqn:Hlt.
  - apply summarizer_agent_result in H2.
    destruct H2 as [(Hnil & -> & ->)|(Hne & out & -> & Hfrom & Hto & Hts & Hdb2 & Hk2)].
    + split; [exact Hsid1|]. split; [exact Hq1|]. rewrite Hsum1. split.
      * right. rewrite Hmsgs1 in Hnil. now apply map_eq_nil in Hnil.
      * split; [now rewrite Hdb4, Hdb3|now rewrite Hk4, Hk3].
    + cbn [session_id user_query state_session_summary set_session_summary].
      split; [exact Hsid1|]. split; [exact Hq1|].
      rewrite Hsid1, Hdb1, Hmsgs1, length_map in *. fold db stored merged in Hfrom, Hto, Hdb2.
      split; [now apply Z.ltb_lt|].
      split.
      { assert (Hlen : List.length live <> 0%nat).
        { intros E. apply Hne. apply length_zero_iff_nil in E. now rewrite E. }
        unfold merged. lia. }
      split; [exact Hfrom|]. split; [exact Hto|].
      split; [now rewrite Hts, Hk1|].
      split; [now rewrite Hdb4, Hdb3, Hdb2, Hfrom, Hto|now rewrite Hk4, Hk3, Hk2, Hk1].
  - unfold ret in H2. injection H2 as <- <-.
    split; [exact Hsid1|]. split; [exact Hq1|]. rewrite Hsum1. split.
    + left. now apply Z.ltb_ge.
    + split; [now rewrite Hdb4, Hdb3|now rewrite Hk4, Hk3].
Qed.

(** X15. A run writes only through a compaction: when the live context is
    within the threshold, or the session has no live message, the run
    leaves the store and the clock as they were, whichever of its calls to
    the storage or to the generation service fail. *)
Theorem run_without_compaction_writes_nothing (sid query : string) (w : World) :
  let live := map row_to_message (select_messages sid None true (w_db w)) in
  (count_messages_tokens live <= token_threshold)%Z \/ live = [] ->
  w_db (snd (run sid query w)) = w_db w /\
  w_clock_reads (snd (run sid query w)) = w_clock_reads w.
Proof.
  intros live Hlive. change (same_store w (snd (run sid query w))).
  unfold run, bind.
  pose proof (context_agent_outcome (initial_state sid query) w) as Hout.
  unfold outcome in Hout.
  destruct (context_agent (initial_state sid query) w) as [[st1|e] w1] eqn:H1;
    [|exact Hout].
  clear Hout. apply context_agent_result in H1. cbn [session_id initial_state] in H1.
  fold live in H1. destruct H1 as [Hs1 Hst1].
  assert (H2 : (if should_summarize st1 then summarizer_agent st1 else ret st1) w1
               = (Ok st1, w1)).
  { destruct Hlive as [Hle|Hnil].
    - replace (should_summarize st1) with false; [reflexivity|].
      rewrite Hst1. cbn [should_summarize needs_summarization set_context].
      symmetry. now apply Z.ltb_ge.
    - assert (Hmsgs : messages st1 = []) by (rewrite Hst1; exact Hnil).
      destruct (should_summarize st1); [|reflexivity].
      unfold summarizer_agent. now rewrite Hmsgs. }
  rewrite H2.
  pose proof (query_agent_same_store st1 w1) as H3.
  destruct (query_agent st1 w1) as [[st3|e] w3]; cbn [snd] in *.
  - apply (same_store_trans w w1); [exact Hs1|].
    apply (same_store_trans w1 w3); [exact H3|]. apply response_agent_same_store.
  - apply (same_store_trans w w1); assumption.
Qed.

(** X16. The final state of a run that returns tells what the run did to
    the store: it carries no summary exactly when no compaction was due (the
    live context within the threshold, or no live message), and then the
    store is as it was; otherwise the summary it carries is the one row the
    run has appended to the summaries, under the next id. *)
Theorem run_reports_the_summary_it_stored
    (sid query : string) (w : World) (st' : GraphState) (w' : World) :
  run sid query w = (Ok st', w') ->
  let live := map row_to_message (select_messages sid None true (w_db w)) in
  (state_session_summary st' = None <->
   (count_messages_tokens live <= token_threshold)%Z \/ live = []) /\
  (state_session_summary st' = None -> w_db w' = w_db w) /\
  (forall out, state_session_summary st' = Some out ->
     summaries_table (w_db w')
     = summaries_table (w_db w) ++ [summary_row (next_summary_id (w_db w)) sid out]).
Proof.
  intros H live. apply run_result in H. destruct H as (_ & _ & H).
  destruct (state_session_summary st') as [out|].
  - destruct H as (Hlt & Hmerged & _ & _ & _ & Hdb & _).
    split; [split; [discriminate|]|split; [discriminate|]].
    + intros [Hle|Hnil]; [unfold live in Hle; lia|].
      apply map_eq_nil in Hnil. rewrite Hnil in Hmerged. cbn in Hmerged. lia.
    + intros out' Hout. injection Hout as <-. rewrite Hdb. reflexivity.
  - destruct H as [Hno [Hdb _]].
    split; [split; [intros _|reflexivity]|split; [intros _; exact Hdb|discriminate]].
    destruct Hno as [Hle|Hnil]; [now left|right]. unfold live. now rewrite Hnil.
Qed.

Lemma Forall2_map_right {A} (R : A -> A -> Prop) (f : A -> A) (l0 l : list A) :
  (forall x y, R x y -> R x (f y)) -> Forall2 R l0 l -> Forall2 R l0 (map f l).
Proof.
  intros Hf H. induction H as [|x y l0 l Hxy _ IH]; cbn [map]; constructor;
    [now apply Hf|exact IH].
Qed.

Lemma set_summarized_twice r : set_summarized (set_summarized r) = set_summarized r.
Proof. reflexivity. Qed.

Lemma Forall2_refl_left {A} (R : A -> A -> Prop) (l : list A) :
  (forall x, R x x) -> Forall2 R l l.
Proof. intros H. induction l; constructor; [apply H|assumption]. Qed.

(** X17. Whatever fails on the way, all a run of the graph for a session
    can do to the store is archive messages of that session and append
    summaries of that session: every message row is left as it was or,
    being of the session and live, has its flag set; none is added, removed,
    reordered or unarchived; the earlier summaries stay, in their order; no
    message id is used up. *)
Theorem run_only_archives_its_session (sid query : string) (w : World) :
  let db := w_db w in
  let db' := w_db (snd (run sid query w)) in
  Forall2 (fun r r' =>
             r' = r \/
             (m_session_id r = sid /\ is_summarized r = false /\ r' = set_summarized r))
          (messages_table db) (messages_table db') /\
  (exists added,
     summaries_table db' = summaries_table db ++ added /\
     Forall (fun s => s_session_id s = sid) added) /\
  next_message_id db' = next_message_id db.
Proof.
  intros db db'. unfold db'.
  apply (run_preserves
           (fun d =>
              Forall2 (fun r r' =>
                         r' = r \/
                         (m_session_id r = sid /\ is_summarized r = false /\
                          r' = set_summarized r))
                      (messages_table db) (messages_table d) /\
              (exists added,
                 summaries_table d = summaries_table db ++ added /\
                 Forall (fun s => s_session_id s = sid) added) /\
              next_message_id d = next_message_id db)).
  - intros d s (Hm & (added & Hs & Hadded) & Hid).
    cbn [insert_summary messages_table summaries_table next_message_id].
    split; [exact Hm|]. split; [|exact Hid].
    exists (added ++ [summary_row (next_summary_id d) sid s]).
    split; [rewrite Hs; symmetry; apply app_assoc|].
    apply Forall_app. split; [exact Hadded|]. constructor; [reflexivity|constructor].
  - intros d f t (Hm & Hs & Hid).
    cbn [update_summarized messages_table summaries_table next_message_id].
    split; [|split; assumption].
    apply Forall2_map_right; [|exact Hm].
    intros x y [->|(Hsid & Hflag & ->)].
    + destruct (mark_row_cases sid (range_ids sid f t d) x) as [->|(H1 & H2 & ->)];
        [now left|right; repeat split; assumption].
    + right. split; [exact Hsid|]. split; [exact Hflag|].
      destruct (mark_row_cases sid (range_ids sid f t d) (set_summarized x))
        as [->|(_ & _ & ->)]; reflexivity.
  - split; [|split].
    + apply Forall2_refl_left. intros x. now left.
    + exists []. split; [symmetry; apply app_nil_r|constructor].
    + reflexivity.
Qed.

Lemma all_flags_set (l : list MessageRow) (a : nat) :
  map is_summarized l = repeat true a ->
  filter (fun r => negb (is_summarized r)) l = [].
Proof.
  revert a. induction l as [|r l IH]; intros a H; [reflexivity|].
  destruct a as [|a]; [discriminate|]. cbn [map repeat] in H. injection H as Hr Hl.
  cbn [filter]. rewrite Hr. cbn [negb]. now apply (IH a).
Qed.

(** X18. In the stores the application reaches, with a clock whose readings
    increase, a run that returns a summary has archived the whole session:
    no live message is left, the range of the summary ends at the last
    message of the log, and the summary is the one [get_latest_summary]
    selects from then on. *)
Theorem compaction_leaves_no_live_message
    (events : list event) (sid query : string)
    (st' : GraphState) (w' : World) (out : SessionMemoryOutput) :
  clock_increasing ->
  let w := run_events events initial_world in
  run sid query w = (Ok st', w') ->
  state_session_summary st' = Some out ->
  select_messages sid None true (w_db w') = [] /\
  (to_index (message_range_summarized out) + 1
   = Z.of_nat (List.length (select_messages sid None false (w_db w'))))%Z /\
  option_map row_to_summary (select_latest_summary sid (w_db w')) = Some out.
Proof.
  intros increasing w Hrun Hsum.
  pose proof (reachable_store_inv increasing events) as Hinv. cbv zeta in Hinv. fold w in Hinv.
  apply run_result in Hrun. destruct Hrun as (_ & _ & Hrun). rewrite Hsum in Hrun.
  destruct Hrun as (_ & Hmerged & Hfrom & Hto & Hts & Hdb & _).
  pose proof (store_inv_compaction increasing (w_db w) (w_clock_reads w) sid out Hinv
                Hmerged Hfrom Hto Hts) as Hinv'.
  rewrite <- Hdb in Hinv'.
  destruct Hinv as (_ & _ & _ & Hbefore & _).
  destruct Hinv' as (_ & _ & _ & _ & Hok).
  destruct (Hok sid) as (_ & _ & a & b & Hflags & Ha).
  assert (Hsums : filter (summary_in_session sid) (summaries_table (w_db w'))
                  = filter (summary_in_session sid) (summaries_table (w_db w))
                    ++ [summary_row (next_summary_id (w_db w)) sid out]).
  { rewrite Hdb. cbn [update_summarized insert_summary summaries_table].
    rewrite filter_app. cbn [filter]. unfold summary_in_session at 2.
    cbn [s_session_id summary_row]. now rewrite String.eqb_refl. }
  assert (Hrows : List.length (filter (in_session sid) (messages_table (w_db w')))
                  = List.length (filter (in_session sid) (messages_table (w_db w)))).
  { rewrite Hdb. cbn [update_summarized insert_summary messages_table].
    rewrite filter_map_commute by (intros; apply mark_row_in_session).
    apply length_map. }
  rewrite Hsums, next_from_snoc in Ha. cbn [to_message_index summary_row] in Ha.
  assert (Hlen : List.length (map is_summarized
                                (filter (in_session sid) (messages_table (w_db w'))))
                 = (a + b)%nat)
    by (rewrite Hflags, length_app, !repeat_length; reflexivity).
  rewrite length_map, Hrows in Hlen.
  assert (Hb : b = 0%nat) by lia. subst b. cbn [repeat] in Hflags.
  rewrite app_nil_r in Hflags.
  split; [|split].
  - apply length_zero_iff_nil. rewrite select_unsummarized_length.
    now rewrite (all_flags_set _ a Hflags).
  - rewrite select_all_length, Hrows. lia.
  - unfold select_latest_summary, order_by_desc. rewrite Hsums.
    rewrite order_by_least_last.
    + cbn [hd_error option_map]. now rewrite row_to_summary_row.
    + rewrite Forall_forall. intros r Hr. apply filter_In in Hr. destruct Hr as [Hin _].
      rewrite Forall_forall in Hbefore. specialize (Hbefore r Hin).
      cbn [s_timestamp summary_row]. lia.
Qed.

(** ** More properties: the exceptions that escape *)

Lemma get_messages_raises sid limit exclude w :
  outcome (get_messages sid limit exclude) w (fun _ _ => True) (fun e _ => e = StorageError).
Proof.
  unfold outcome, get_messages, with_connection, bind, sql, ret.
  fault_cases; first [exact I|reflexivity].
Qed.

Lemma get_recent_messages_raises sid n w :
  outcome (get_recent_messages sid n) w (fun _ _ => True) (fun e _ => e = StorageError).
Proof.
  unfold outcome, get_recent_messages, with_connection, bind, sql, ret.
  fault_cases; first [exact I|reflexivity].
Qed.

Lemma get_latest_summary_raises sid w :
  outcome (get_latest_summary sid) w (fun _ _ => True) (fun e _ => e = StorageError).
Proof.
  unfold outcome, get_latest_summary, with_connection, bind, sql, ret.
  fault_cases; first [exact I|reflexivity].
Qed.

Lemma save_summary_raises sid s w :
  outcome (save_summary sid s) w (fun _ _ => True) (fun e _ => e = StorageError).
Proof.
  unfold outcome, save_summary, with_connection, bind, sql, ret.
  fault_cases; first [exact I|reflexivity].
Qed.

Lemma mark_messages_as_summarized_raises sid from to w :
  outcome (mark_messages_as_summarized sid from to) w
    (fun _ _ => True) (fun e _ => e = StorageError).
Proof.
  unfold outcome, mark_messages_as_summarized, with_connection, sql.
  fault_cases; first [exact I|reflexivity].
Qed.

Lemma save_message_raises sid m w :
  outcome (save_message sid m) w (fun _ _ => True) (fun e _ => e = StorageError).
Proof.
  unfold outcome, save_message, with_connection, sql.
  fault_cases; first [exact I|reflexivity].
Qed.

Lemma clear_session_raises sid w :
  outcome (clear_session sid) w (fun _ _ => True) (fun e _ => e = StorageError).
Proof.
  unfold outcome, clear_session, with_connection, bind, sql.
  fault_cases; first [exact I|reflexivity].
Qed.

Lemma llm_invoke_raises req w :
  outcome (llm_invoke req) w (fun _ _ => True) (fun e _ => e = GenerationServiceError).
Proof.
  unfold outcome, llm_invoke. destruct (llm _ req); [exact I|reflexivity].
Qed.

(** The range the summarizer computes from the live messages of the
    session is never refused. *)
Lemma summarizer_range_is_valid sid db :
  let stored := Z.of_nat (List.length (filter (in_session sid) (messages_table db))) in
  let merged := Z.of_nat (List.length (select_messages sid None true db)) in
  (1 <= merged)%Z ->
  validate_MessageRange (stored - merged) (stored - 1)
  = Some {| from_index := stored - merged; to_index := stored - 1 |}.
Proof.
  intros stored merged Hmerged. unfold validate_MessageRange.
  assert (Hle : (merged <= stored)%Z).
  { unfold merged, stored. rewrite select_unsummarized_length.
    apply inj_le, filter_length_le. }
  replace (0 <=? stored - merged)%Z with true by (symmetry; apply Z.leb_le; lia).
  replace (0 <=? stored - 1)%Z with true by (symmetry; apply Z.leb_le; lia).
  reflexivity.
Qed.

Lemma summarizer_agent_raises st w :
  messages st = map row_to_message (select_messages (session_id st) None true (w_db w)) ->
  outcome (summarizer_agent st) w
    (fun _ _ => True) (fun e _ => e = StorageError \/ e = GenerationServiceError).
Proof.
  intros Hmsgs. unfold outcome, summarizer_agent.
  destruct (messages st) as [|m ms] eqn:Hst; [exact I|].
  rewrite <- Hst. unfold bind.
  pose proof (get_latest_summary_outcome (session_id st) w) as H1. unfold outcome in H1.
  pose proof (get_latest_summary_raises (session_id st) w) as E1. unfold outcome in E1.
  destruct (get_latest_summary (session_id st) w) as [[prev|e] w1]; [|now left].
  destruct H1 as [Hdb1 _].
  match goal with |- context [llm_invoke ?r w1] =>
    pose proof (llm_invoke_outcome r w1) as H2; unfold outcome in H2;
    pose proof (llm_invoke_raises r w1) as E2; unfold outcome in E2;
    destruct (llm_invoke r w1) as [[response|e] w2]
  end; [|now right].
  destruct H2 as [Hdb2 _].
  pose proof (get_messages_outcome (session_id st) None false w2) as H3. unfold outcome in H3.
  pose proof (get_messages_raises (session_id st) None false w2) as E3. unfold outcome in E3.
  destruct (get_messages (session_id st) None false w2) as [[every|e] w3]; [|now left].
  destruct H3 as [_ Hevery].
  rewrite Hevery, length_map, select_all_length, Hdb2, Hdb1.
  rewrite Hst, Hmsgs, length_map.
  rewrite summarizer_range_is_valid
    by (rewrite <- (length_map row_to_message), <- Hmsgs; cbn [List.length]; lia).
  unfold now.
  match goal with |- context [save_summary ?sid ?o ?v] =>
    pose proof (save_summary_raises sid o v) as E5; unfold outcome in E5;
    destruct (save_summary sid o v) as [[id|e] w5]
  end; [|now left].
  match goal with |- context [mark_messages_as_summarized ?sid ?f ?t w5] =>
    pose proof (mark_messages_as_summarized_raises sid f t w5) as E6; unfold outcome in E6;
    destruct (mark_messages_as_summarized sid f t w5) as [[u|e] w6]
  end; [exact I|now left].
Qed.

Lemma query_agent_raises st w :
  outcome (query_agent st) w
    (fun _ _ => True) (fun e _ => e = StorageError \/ e = GenerationServiceError).
Proof.
  unfold outcome, query_agent. destruct (str_truthy (user_query st)); [|exact I].
  unfold bind.
  pose proof (get_recent_messages_raises (session_id st) 10 w) as E1. unfold outcome in E1.
  destruct (get_recent_messages (session_id st) 10 w) as [[recent|e] w1]; [|now left].
  pose proof (get_latest_summary_raises (session_id st) w1) as E2. unfold outcome in E2.
  destruct (get_latest_summary (session_id st) w1) as [[summary|e] w2]; [|now left].
  match goal with |- context [llm_invoke ?r w2] =>
    pose proof (llm_invoke_raises r w2) as E3; unfold outcome in E3;
    destruct (llm_invoke r w2) as [[response|e] w3]
  end; [exact I|now right].
Qed.

Lemma response_agent_raises st w :
  outcome (response_agent st) w
    (fun _ _ => True) (fun e _ => e = StorageError \/ e = GenerationServiceError).
Proof.
  unfold outcome, response_agent.
  destruct (query_understanding st) as [qu|]; [|exact I].
  destruct (hard_stop qu); [exact I|].
  unfold bind.
  match goal with |- context [llm_invoke ?r w] =>
    pose proof (llm_invoke_raises r w) as E3; unfold outcome in E3;
    destruct (llm_invoke r w) as [[response|e] w3]
  end; [exact I|now right].
Qed.

Lemma run_raises sid query w :
  outcome (run sid query) w
    (fun _ _ => True) (fun e _ => e = StorageError \/ e = GenerationServiceError).
Proof.
  unfold outcome, run, bind.
  pose proof (get_messages_raises sid None true w) as E1.
  destruct (context_agent (initial_state sid query) w) as [[st1|e] w1] eqn:H1.
  2: { unfold context_agent, bind, outcome in *. cbn [session_id initial_state] in H1.
       destruct (get_messages sid None true w) as [[msgs|e1] w0]; [discriminate|].
       injection H1 as <- _. now left. }
  clear E1. apply context_agent_result in H1. cbn [session_id initial_state] in H1.
  destruct H1 as [[Hdb1 _] Hst1].
  assert (E2 : outcome (if should_summarize st1 then summarizer_agent st1 else ret st1) w1
                 (fun _ _ => True)
                 (fun e _ => e = StorageError \/ e = GenerationServiceError)).
  { destruct (should_summarize st1); [|exact I].
    apply summarizer_agent_raises. rewrite Hst1, Hdb1. reflexivity. }
  unfold outcome in E2.
  destruct ((if should_summarize st1 then summarizer_agent st1 else ret st1) w1)
    as [[st2|e] w2]; [|exact E2].
  pose proof (query_agent_raises st2 w2) as E3. unfold outcome in E3.
  destruct (query_agent st2 w2) as [[st3|e] w3]; [|exact E3].
  apply response_agent_raises.
Qed.

(** X19. In every store the application reaches, whatever failed on the
    way, every summary row carries two indices that pass the validation of
    [MessageRange] (both from 0 up), so that the range [get_latest_summary]
    and [get_all_summaries] build from a row is accepted and is the range
    read here; the same holds of the store a run of the graph leaves.  From
    such a store the only exceptions a run of the graph or a handler of the
    application lets escape are those of the storage and of the generation
    service: the range the summarizer builds from the live messages always
    passes the validation too, so that a validation error is never
    raised. *)
Theorem only_storage_and_service_errors_escape (events : list event) :
  let w := run_events events initial_world in
  let valid (r : SummaryRow) :=
    validate_MessageRange (from_message_index r) (to_message_index r)
    = Some (message_range_summarized (row_to_summary r)) in
  Forall valid (summaries_table (w_db w)) /\
  (forall sid query, Forall valid (summaries_table (w_db (snd (run sid query w))))) /\
  (forall sid query,
     outcome (run sid query) w
       (fun _ _ => True) (fun e _ => e = StorageError \/ e = GenerationServiceError)) /\
  (forall ev,
     outcome (handle_event ev) w
       (fun _ _ => True) (fun e _ => e = StorageError \/ e = GenerationServiceError)).
Proof.
  intros w valid.
  assert (Hvalid : Forall valid (summaries_table (w_db w)))
    by apply reachable_ranges_valid.
  split; [exact Hvalid|]. split.
  { intros sid query.
    apply (run_preserves_valid (fun db => Forall valid (summaries_table db)));
      [| |exact Hvalid].
    - intros db s Hs H. cbn [insert_summary summaries_table].
      apply Forall_app. split; [exact H|]. constructor; [|constructor].
      unfold valid. rewrite row_to_summary_row. exact Hs.
    - intros db f t H. exact H. }
  split; [intros sid query; apply run_raises|].
  assert (Hclear : forall sid,
            outcome (clear_session sid) w
              (fun _ _ => True) (fun e _ => e = StorageError \/ e = GenerationServiceError)).
  { intros sid. pose proof (clear_session_raises sid w) as E. unfold outcome in *.
    destruct (clear_session sid w) as [[u|e] w1]; [exact I|now left]. }
  intros [sid prompt|sid|sid]; cbn [handle_event]; [|apply Hclear|apply Hclear].
  unfold outcome, on_chat_input. destruct (str_truthy prompt); [|exact I].
  unfold bind at 1.
  pose proof (run_raises sid prompt w) as E1. unfold outcome in E1.
  destruct (run sid prompt w) as [[result|e] w1]; [|exact E1].
  unfold bind, now.
  match goal with |- context [save_message sid ?m ?v] =>
    pose proof (save_message_raises sid m v) as E2; unfold outcome in E2;
    destruct (save_message sid m v) as [[id|e] w2]
  end; [|now left].
  match goal with |- context [save_message sid ?m ?v] =>
    pose proof (save_message_raises sid m v) as E3; unfold outcome in E3;
    destruct (save_message sid m v) as [[id2|e] w3]
  end; [exact I|now left].
Qed.

(** ** More properties: a turn of the chat *)

Lemma summarizer_agent_returns st w :
  storage_healthy -> service_answers ->
  messages st = map row_to_message (select_messages (session_id st) None true (w_db w)) ->
  exists st' w', summarizer_agent st w = (Ok st', w').
Proof.
  intros healthy answers Hmsgs.
  destruct (messages st) as [|m ms] eqn:Hst.
  { unfold summarizer_agent. rewrite Hst. unfold ret. eexists. eexists. reflexivity. }
  assert (Hlen : (1 <= List.length (select_messages (session_id st) None true (w_db w)))%nat).
  { rewrite <- (length_map row_to_message), <- Hmsgs. cbn [List.length]. lia. }
  assert (Hle : (List.length (select_messages (session_id st) None true (w_db w))
                 <= List.length (filter (in_session (session_id st))
                                        (messages_table (w_db w))))%nat).
  { rewrite select_unsummarized_length. apply filter_length_le. }
  destruct (llm (List.length (w_llm_calls w))
              (SummarizePrompt
                 (option_map row_to_summary (select_latest_summary (session_id st) (w_db w)))
                 (transcript (messages st)))) as [text|] eqn:Hllm.
  - pose proof (summarizer_agent_healthy st w text healthy) as H. cbv zeta in H.
    destruct H as (w' & Hrun & _).
    + rewrite Hst. discriminate.
    + exact Hllm.
    + rewrite Hst, Hmsgs, length_map. lia.
    + lia.
    + exists (set_session_summary
                {| session_summary :=
                     match parse_session_summary text with
                     | Some s => s
                     | None => empty_summary
                     end;
                   message_range_summarized :=
                     {| from_index :=
                          Z.of_nat (List.length (filter (in_session (session_id st))
                                                        (messages_table (w_db w))))
                          - Z.of_nat (List.length (messages st));
                        to_index :=
                          Z.of_nat (List.length (filter (in_session (session_id st))
                                                        (messages_table (w_db w)))) - 1 |};
                   timestamp := clock (w_clock_reads w) |} st), w'.
      exact Hrun.
  - exfalso. exact (answers _ _ Hllm).
Qed.

(** With healthy storage and a generation service that answers, a run of
    the graph returns. *)
Lemma run_healthy_returns sid query w :
  storage_healthy -> service_answers -> exists st w', run sid query w = (Ok st, w').
Proof.
  intros healthy answers. unfold run, bind.
  rewrite (context_agent_healthy healthy). cbv zeta. cbn [session_id initial_state].
  match goal with
  | |- context [(if should_summarize ?s then summarizer_agent ?s else ret ?s) ?v] =>
      assert (H2 : exists st2 w2,
                 (if should_summarize s then summarizer_agent s else ret s) v = (Ok st2, w2))
  end.
  { destruct (should_summarize _).
    - apply summarizer_agent_returns; [exact healthy|exact answers|reflexivity].
    - unfold ret. eexists. eexists. reflexivity. }
  destruct H2 as (st2 & w2 & ->).
  destruct (query_agent_healthy st2 w2 healthy answers) as (st3 & w3 & -> & _).
  destruct (response_agent_healthy st3 w3 answers) as (st4 & w4 & H4 & _).
  exists st4, w4. exact H4.
Qed.

Lemma str_truthy_true s : s <> "" -> str_truthy s = true.
Proof.
  intros H. destruct (str_truthy s) eqn:E; [reflexivity|].
  apply str_truthy_false in E. contradiction.
Qed.

(** X20. With healthy storage and a generation service that answers, the
    handler of a non-empty chat input returns, and what it adds to the
    messages, after the run of the graph, is the exchange: the prompt as a
    user message and the final response of the run as an assistant message,
    in this order, under the next two ids, live, stamped with two successive
    readings of the clock taken after the run, each with the token count of
    its role and content; the summaries are those the run has left. *)
Theorem chat_turn_stores_the_exchange (sid prompt : string) (w : World) :
  storage_healthy -> service_answers -> prompt <> "" ->
  exists result w1 w2 u a,
    run sid prompt w = (Ok result, w1) /\
    on_chat_input sid prompt w = (Ok tt, w2) /\
    messages_table (w_db w2) = messages_table (w_db w1) ++ [u; a] /\
    summaries_table (w_db w2) = summaries_table (w_db w1) /\
    m_session_id u = sid /\ m_session_id a = sid /\
    m_id u = next_message_id (w_db w) /\ m_id a = (next_message_id (w_db w) + 1)%Z /\
    m_role u = "user" /\ m_content u = prompt /\
    m_role a = "assistant" /\ m_content a = final_response result /\
    m_timestamp u = clock (w_clock_reads w1) /\
    m_timestamp a = clock (S (w_clock_reads w1)) /\
    is_summarized u = false /\ is_summarized a = false /\
    m_token_count u = Some (count_message_tokens (row_to_message u)) /\
    m_token_count a = Some (count_message_tokens (row_to_message a)).
Proof.
  intros healthy answers Hprompt.
  destruct (run_healthy_returns sid prompt w healthy answers) as (result & w1 & Hrun).
  assert (Hid : next_message_id (w_db w1) = next_message_id (w_db w)).
  { pose proof (run_preserves (fun d => next_message_id d = next_message_id (w_db w))
                  sid prompt w) as H.
    rewrite Hrun in H. cbn [snd] in H. apply H; [intros d s Hd; exact Hd| |reflexivity].
    intros d f t Hd. exact Hd. }
  exists result, w1. unfold on_chat_input. rewrite (str_truthy_true prompt Hprompt).
  unfold bind at 1. rewrite Hrun. unfold bind, now.
  rewrite !(save_message_healthy healthy). unfold ret.
  cbn [w_db w_clock_reads with_db skip_sql_ops count_clock_read insert_message
       messages_table summaries_table next_message_id].
  eexists. eexists. eexists.
  split; [reflexivity|]. split; [reflexivity|].
  cbn [w_db w_clock_reads with_db skip_sql_ops count_clock_read insert_message
       messages_table summaries_table next_message_id].
  split; [rewrite <- app_assoc; reflexivity|].
  split; [reflexivity|]. split; [reflexivity|]. split; [reflexivity|].
  split; [exact Hid|]. split; [cbn [m_id]; now rewrite Hid|].
  repeat (split; [reflexivity|]). reflexivity.
Qed.

(** X21. Whatever fails, the handler of a chat input leaves the messages
    that were there as they were (archive flags apart) and adds at most the
    exchange.  When it returns it has stored nothing, the prompt being
    empty, or the user message and then the assistant message.  When it
    raises it has stored no message, or the user message alone: the
    assistant message is never stored without the user message before it,
    and a failure of the run of the graph stores no message at all, the
    prompt included. *)
Theorem chat_turn_stores_at_most_the_exchange (sid prompt : string) (w : World) :
  let before := map row_to_message (messages_table (w_db w)) in
  outcome (on_chat_input sid prompt) w
    (fun _ w' =>
       (prompt = "" /\ w_db w' = w_db w) \/
       (exists u a,
          map row_to_message (messages_table (w_db w')) = before ++ [u; a] /\
          role u = "user" /\ content u = prompt /\ role a = "assistant"))
    (fun _ w' =>
       map row_to_message (messages_table (w_db w')) = before \/
       (exists result w1 u,
          run sid prompt w = (Ok result, w1) /\
          map row_to_message (messages_table (w_db w')) = before ++ [u] /\
          role u = "user" /\ content u = prompt)).
Proof.
  intros before. unfold outcome, on_chat_input.
  destruct (str_truthy prompt) eqn:Hprompt.
  2: { unfold ret. left. split; [now apply str_truthy_false|reflexivity]. }
  unfold bind at 1.
  pose proof (run_preserves
                (fun d => map row_to_message (messages_table d) = before) sid prompt w) as H1.
  destruct (run sid prompt w) as [[result|e] w1]; cbn [snd] in H1.
  2: { left. apply H1; [intros d s Hd; exact Hd| |reflexivity].
       intros d f t Hd. cbn [update_summarized messages_table].
       rewrite map_map. rewrite <- Hd. apply map_ext. intros r. apply mark_row_message. }
  assert (Hrun : map row_to_message (messages_table (w_db w1)) = before).
  { apply H1; [intros d s Hd; exact Hd| |reflexivity].
    intros d f t Hd. cbn [update_summarized messages_table].
    rewrite map_map. rewrite <- Hd. apply map_ext. intros r. apply mark_row_message. }
  clear H1. unfold bind, now.
  match goal with |- context [save_message sid ?m ?v] =>
    pose proof (save_message_outcome sid m v) as H2; unfold outcome, same_store in H2;
    destruct (save_message sid m v) as [[id|e] w2]
  end; cbn [w_db w_clock_reads count_clock_read] in H2.
  2: { left. destruct H2 as [-> _]. exact Hrun. }
  destruct H2 as [Hdb2 _].
  match goal with |- context [save_message sid ?m ?v] =>
    pose proof (save_message_outcome sid m v) as H3; unfold outcome, same_store in H3;
    destruct (save_message sid m v) as [[id2|e] w3]
  end; cbn [w_db w_clock_reads count_clock_read] in H3; unfold ret.
  - right. destruct H3 as [-> _]. rewrite Hdb2.
    cbn [insert_message messages_table]. rewrite !map_app, Hrun, <- app_assoc.
    eexists. eexists. split; [reflexivity|]. repeat split.
  - right. destruct H3 as [-> _]. rewrite Hdb2.
    cbn [insert_message messages_table]. rewrite map_app, Hrun.
    exists result, w1. eexists. split; [reflexivity|]. split; [reflexivity|]. repeat split.
Qed.

(** X22. The warning of the sidebar is truthful.  With healthy storage, a
    generation service that answers and a threshold above 0, the sidebar
    shows "Summary on next message!" exactly when the next run of the graph
    for the session, the store being as the sidebar saw it, stores a
    summary; the number of tokens it shows is the one against which that
    run checks the threshold. *)
Theorem sidebar_warning_is_truthful (sid query : string) (w : World) :
  storage_healthy -> service_answers -> (0 < token_threshold)%Z ->
  exists tokens warn w1 result w2,
    sidebar_context sid w = (Ok (tokens, warn), w1) /\
    w_db w1 = w_db w /\
    tokens = count_messages_tokens
               (map row_to_message (select_messages sid None true (w_db w))) /\
    run sid query w1 = (Ok result, w2) /\
    (warn = true <-> exists out, state_session_summary result = Some out).
Proof.
  intros healthy answers Hthreshold. unfold sidebar_context, bind.
  rewrite (get_messages_healthy healthy). unfold ret.
  destruct (run_healthy_returns sid query (skip_sql_ops 2 w) healthy answers)
    as (result & w2 & Hrun).
  eexists. eexists. eexists. exists result, w2.
  split; [reflexivity|]. split; [reflexivity|]. split; [reflexivity|].
  split; [exact Hrun|].
  apply run_result in Hrun. cbn [w_db skip_sql_ops] in Hrun. destruct Hrun as (_ & _ & Hrun).
  destruct (state_session_summary result) as [out|].
  - destruct Hrun as (Hlt & _). split; [intros _; now exists out|intros _].
    now apply Z.ltb_lt.
  - destruct Hrun as [[Hle|Hnil] _].
    + split; [intros Hwarn; apply Z.ltb_lt in Hwarn; lia|intros [out Hout]; discriminate].
    + rewrite Hnil. cbn [map]. split; [|intros [out Hout]; discriminate].
      intros Hwarn. apply Z.ltb_lt in Hwarn.
      change (count_messages_tokens []) with 0%Z in Hwarn. lia.
Qed.

Lemma count_messages_tokens_at_least (msgs : list Message) :
  (4 * Z.of_nat (List.length msgs) <= count_messages_tokens msgs)%Z.
Proof.
  rewrite count_messages_tokens_sum. unfold Zsum.
  induction msgs as [|m msgs IH]; [cbn; lia|].
  cbn [List.length map fold_right]. unfold count_message_tokens at 1. lia.
Qed.

(** X23. Whatever the tokenizer counts, every message weighs at least 4
    tokens: a session with more than a quarter of the threshold in live
    messages is due for a compaction at its next trigger check. *)
Theorem many_live_messages_trigger_compaction (st st' : GraphState) (w w' : World) :
  context_agent st w = (Ok st', w') ->
  (token_threshold
   < 4 * Z.of_nat (List.length (select_messages (session_id st) None true (w_db w))))%Z ->
  needs_summarization st' = true /\
  (4 * Z.of_nat (List.length (messages st')) <= total_tokens st')%Z.
Proof.
  intros H Hmany. apply context_agent_result in H. destruct H as [_ ->].
  cbn [needs_summarization total_tokens messages set_context].
  pose proof (count_messages_tokens_at_least
                (map row_to_message (select_messages (session_id st) None true (w_db w))))
    as Hbound.
  split; [|exact Hbound].
  rewrite length_map in Hbound. apply Z.ltb_lt. lia.
Qed.

(** ** More properties: the reply of the query agent's request *)

Lemma dict_get_set_same k v d : dict_get k (dict_set k v d) = Some v.
Proof.
  induction d as [|[k' v'] d IH]; cbn [dict_set dict_get].
  - now rewrite String.eqb_refl.
  - destruct (String.eqb k k') eqn:E; cbn [dict_get]; [now rewrite String.eqb_refl|].
    now rewrite E.
Qed.

Lemma dict_get_set_other k k' v d :
  String.eqb k' k = false -> dict_get k' (dict_set k v d) = dict_get k' d.
Proof.
  intros Hne. induction d as [|[k0 v0] d IH]; cbn [dict_set dict_get].
  - now rewrite Hne.
  - destruct (String.eqb k k0) eqn:E; cbn [dict_get].
    + apply String.eqb_eq in E. subst k0. now rewrite Hne.
    + now rewrite IH.
Qed.

(** What a key reads after [if d.get(k) is None: d[k] = []]. *)
Lemma dict_get_none_to_empty k k' d :
  dict_get k' (none_to_empty_list k d)
  = if String.eqb k' k
    then match dict_get k d with
         | None | Some JNull => Some (JArr [])
         | Some v => Some v
         end
    else dict_get k' d.
Proof.
  unfold none_to_empty_list.
  destruct (String.eqb k' k) eqn:E.
  - apply String.eqb_eq in E. subst k'.
    destruct (dict_get k d) as [[]|] eqn:Hk; try exact Hk; apply dict_get_set_same.
  - destruct (dict_get k d) as [[]|]; try reflexivity; now apply dict_get_set_other.
Qed.

(** X24. In the reply to the query agent's request the three lists may be
    null or missing: a reply that parses to a JSON object is read as the
    [QueryUnderstanding] constructor would read it if each of
    [possible_interpretations], [needed_context_from_memory] and
    [clarifying_questions] that is null or absent were the empty list, the
    other fields being read as they are.  The constructor alone refuses a
    null list, which without this step would send the reply to the
    fallback. *)
Theorem null_lists_read_as_empty (text : string) (d : list (string * json)) :
  json_loads (strip_fences text) = Some (JObj d) ->
  let list_or_empty k :=
    match dict_get k d with
    | None | Some JNull => Some []
    | Some v => validate_str_list v
    end in
  parse_query_understanding text
  = match field_str_required "original_query" d,
          match dict_get "is_ambiguous" d with Some v => validate_bool v | None => None end,
          field_str_optional "rewritten_query" d,
          list_or_empty "possible_interpretations",
          list_or_empty "needed_context_from_memory",
          list_or_empty "clarifying_questions",
          field_str_default "final_augmented_context" d with
    | Some oq, Some amb, Some rq, Some pi, Some nc, Some cq, Some ctx =>
        Some {| original_query := oq; is_ambiguous := amb; rewritten_query := rq;
                possible_interpretations := pi; needed_context_from_memory := nc;
                clarifying_questions := cq; final_augmented_context := ctx |}
    | _, _, _, _, _, _, _ => None
    end /\
  (forall k,
     In k ["possible_interpretations"; "needed_context_from_memory"; "clarifying_questions"] ->
     dict_get k d = Some JNull -> validate_QueryUnderstanding d = None).
Proof.
  intros Hjson list_or_empty. split.
  - unfold parse_query_understanding. rewrite Hjson.
    set (d' := none_to_empty_list "clarifying_questions"
                 (none_to_empty_list "needed_context_from_memory"
                    (none_to_empty_list "possible_interpretations" d))).
    assert (Hother : forall k,
              String.eqb k "clarifying_questions" = false ->
              String.eqb k "needed_context_from_memory" = false ->
              String.eqb k "possible_interpretations" = false ->
              dict_get k d' = dict_get k d).
    { intros k H1 H2 H3. unfold d'.
      now rewrite !dict_get_none_to_empty, H1, H2, H3. }
    assert (Hpi : field_str_list "possible_interpretations" d'
                  = list_or_empty "possible_interpretations").
    { unfold field_str_list, d', list_or_empty. rewrite !dict_get_none_to_empty.
      cbn [String.eqb Ascii.eqb Bool.eqb andb].
      destruct (dict_get "possible_interpretations" d) as [[]|]; reflexivity. }
    assert (Hnc : field_str_list "needed_context_from_memory" d'
                  = list_or_empty "needed_context_from_memory").
    { unfold field_str_list, d', list_or_empty. rewrite !dict_get_none_to_empty.
      cbn [String.eqb Ascii.eqb Bool.eqb andb].
      destruct (dict_get "needed_context_from_memory" d) as [[]|]; reflexivity. }
    assert (Hcq : field_str_list "clarifying_questions" d'
                  = list_or_empty "clarifying_questions").
    { unfold field_str_list, d', list_or_empty. rewrite !dict_get_none_to_empty.
      cbn [String.eqb Ascii.eqb Bool.eqb andb].
      destruct (dict_get "clarifying_questions" d) as [[]|]; reflexivity. }
    unfold validate_QueryUnderstanding. rewrite Hpi, Hnc, Hcq.
    unfold field_str_required, field_str_optional, field_str_default.
    rewrite !Hother by reflexivity. reflexivity.
  - intros k Hk Hnull. unfold validate_QueryUnderstanding.
    destruct (field_str_required "original_query" d); [|reflexivity].
    destruct (match dict_get "is_ambiguous" d with
              | Some v => validate_bool v
              | None => None
              end); [|reflexivity].
    destruct (field_str_optional "rewritten_query" d); [|reflexivity].
    unfold field_str_list.
    destruct Hk as [<-|[<-|[<-|[]]]]; rewrite Hnull; cbn [validate_str_list].
    + reflexivity.
    + destruct (dict_get "possible_interpretations" d) as [v|];
        [destruct (validate_str_list v)|]; reflexivity.
    + destruct (dict_get "possible_interpretations" d) as [v|];
        [destruct (validate_str_list v); [|reflexivity]|];
        (destruct (dict_get "needed_context_from_memory" d) as [v'|];
         [destruct (validate_str_list v')|]; reflexivity).
Qed.

(** ** More properties: the requests sent to the generation service *)

Lemma get_messages_keeps_calls sid limit exclude w :
  w_llm_calls (snd (get_messages sid limit exclude w)) = w_llm_calls w.
Proof.
  unfold get_messages, with_connection, bind, sql, ret. fault_cases; reflexivity.
Qed.

Lemma get_recent_messages_keeps_calls sid n w :
  w_llm_calls (snd (get_recent_messages sid n w)) = w_llm_calls w.
Proof.
  unfold get_recent_messages, with_connection, bind, sql, ret. fault_cases; reflexivity.
Qed.

Lemma get_latest_summary_keeps_calls sid w :
  w_llm_calls (snd (get_latest_summary sid w)) = w_llm_calls w.
Proof.
  unfold get_latest_summary, with_connection, bind, sql, ret. fault_cases; reflexivity.
Qed.

Lemma save_summary_keeps_calls sid s w :
  w_llm_calls (snd (save_summary sid s w)) = w_llm_calls w.
Proof.
  unfold save_summary, with_connection, bind, sql, ret. fault_cases; reflexivity.
Qed.

Lemma mark_messages_as_summarized_keeps_calls sid from to w :
  w_llm_calls (snd (mark_messages_as_summarized sid from to w)) = w_llm_calls w.
Proof.
  unfold mark_messages_as_summarized, with_connection, sql. fault_cases; reflexivity.
Qed.

Lemma llm_invoke_calls req w :
  w_llm_calls (snd (llm_invoke req w)) = w_llm_calls w ++ [req].
Proof. unfold llm_invoke. destruct (llm _ req); reflexivity. Qed.

Lemma get_recent_messages_value sid n w :
  outcome (get_recent_messages sid n) w
    (fun r _ => r = map row_to_message (select_recent_messages sid n (w_db w)))
    (fun _ _ => True).
Proof.
  unfold outcome, get_recent_messages, with_connection, bind, sql, ret.
  fault_cases; first [exact I|reflexivity].
Qed.

Lemma get_latest_summary_value sid w :
  outcome (get_latest_summary sid) w
    (fun r _ => r = option_map row_to_summary (select_latest_summary sid (w_db w)))
    (fun _ _ => True).
Proof.
  unfold outcome, get_latest_summary, with_connection, bind, sql, ret.
  fault_cases; first [exact I|reflexivity].
Qed.

Lemma context_agent_keeps_calls st w :
  w_llm_calls (snd (context_agent st w)) = w_llm_calls w.
Proof.
  unfold context_agent, bind, ret.
  pose proof (get_messages_keeps_calls (session_id st) None true w) as H.
  destruct (get_messages (session_id st) None true w) as [[msgs|e] w1]; exact H.
Qed.

(** The summarizer sends at most one request: the latest summary of the
    session and the transcript of the messages in its state. *)
Lemma summarizer_agent_calls st w :
  exists s,
    w_llm_calls (snd (summarizer_agent st w)) = w_llm_calls w ++ s /\
    (s = [] \/
     s = [SummarizePrompt
            (option_map row_to_summary (select_latest_summary (session_id st) (w_db w)))
            (transcript (messages st))]).
Proof.
  unfold summarizer_agent.
  destruct (messages st) as [|m ms] eqn:Hst.
  { exists []. split; [symmetry; apply app_nil_r|now left]. }
  rewrite <- Hst. unfold bind.
  pose proof (get_latest_summary_keeps_calls (session_id st) w) as C1.
  pose proof (get_latest_summary_value (session_id st) w) as V1. unfold outcome in V1.
  destruct (get_latest_summary (session_id st) w) as [[prev|e] w1]; cbn [snd] in *.
  2: { exists []. split; [rewrite app_nil_r; exact C1|now left]. }
  subst prev.
  match goal with |- context [llm_invoke ?r w1] =>
    exists [r]; split; [|now right];
    pose proof (llm_invoke_calls r w1) as C2; rewrite C1 in C2;
    destruct (llm_invoke r w1) as [[response|e] w2]
  end; cbn [snd] in *; [|exact C2].
  pose proof (get_messages_keeps_calls (session_id st) None false w2) as C3.
  destruct (get_messages (session_id st) None false w2) as [[every|e] w3]; cbn [snd] in *;
    [|now rewrite C3].
  destruct (validate_MessageRange _ _) as [range|]; [|unfold raise; cbn [snd]; now rewrite C3].
  unfold now.
  match goal with |- context [save_summary ?sid ?o ?v] =>
    pose proof (save_summary_keeps_calls sid o v) as C5;
    destruct (save_summary sid o v) as [[id|e] w5]
  end; cbn [snd w_llm_calls count_clock_read] in *; [|now rewrite C5, C3].
  match goal with |- context [mark_messages_as_summarized ?sid ?f ?t w5] =>
    pose proof (mark_messages_as_summarized_keeps_calls sid f t w5) as C6;
    destruct (mark_messages_as_summarized sid f t w5) as [[u|e] w6]
  end; unfold ret; cbn [snd] in *; now rewrite C6, C5, C3.
Qed.

(** The query agent sends at most one request, built from the last ten
    messages of the whole log and the latest summary. *)
Lemma query_agent_calls st w :
  exists q,
    w_llm_calls (snd (query_agent st w)) = w_llm_calls w ++ q /\
    (q = [] \/
     q = [QueryPrompt
            (recent_context_of
               (map row_to_message (select_recent_messages (session_id st) 10 (w_db w))))
            (option_map row_to_summary (select_latest_summary (session_id st) (w_db w)))
            (user_query st)]).
Proof.
  unfold query_agent.
  destruct (str_truthy (user_query st)).
  2: { exists []. split; [symmetry; apply app_nil_r|now left]. }
  unfold bind.
  pose proof (get_recent_messages_keeps_calls (session_id st) 10 w) as C1.
  pose proof (get_recent_messages_value (session_id st) 10 w) as V1. unfold outcome in V1.
  pose proof (get_recent_messages_outcome (session_id st) 10 w) as S1. unfold outcome in S1.
  destruct (get_recent_messages (session_id st) 10 w) as [[recent|e] w1]; cbn [snd] in *.
  2: { exists []. split; [rewrite app_nil_r; exact C1|now left]. }
  subst recent. destruct S1 as [Hdb1 _].
  pose proof (get_latest_summary_keeps_calls (session_id st) w1) as C2.
  pose proof (get_latest_summary_value (session_id st) w1) as V2. unfold outcome in V2.
  destruct (get_latest_summary (session_id st) w1) as [[summary|e] w2]; cbn [snd] in *.
  2: { exists []. split; [rewrite app_nil_r, C2; exact C1|now left]. }
  subst summary. rewrite Hdb1.
  match goal with |- context [llm_invoke ?r w2] =>
    exists [r]; split; [|now right];
    pose proof (llm_invoke_calls r w2) as C3; rewrite C2, C1 in C3;
    destruct (llm_invoke r w2) as [[response|e] w3]
  end; cbn [snd] in *; exact C3.
Qed.

Lemma response_agent_calls st w :
  exists r,
    w_llm_calls (snd (response_agent st w)) = w_llm_calls w ++ r /\
    (r = [] \/ exists context effective_query interpretations,
                 r = [ResponsePrompt context effective_query interpretations]).
Proof.
  unfold response_agent.
  destruct (query_understanding st) as [qu|];
    [|exists []; split; [symmetry; apply app_nil_r|now left]].
  destruct (hard_stop qu); [exists []; split; [symmetry; apply app_nil_r|now left]|].
  unfold bind.
  match goal with |- context [llm_invoke ?r w] =>
    exists [r]; split;
      [|right; match r with ResponsePrompt ?c ?e ?i => exists c, e, i end; reflexivity];
    pose proof (llm_invoke_calls r w) as C3;
    destruct (llm_invoke r w) as [[response|e] w3]
  end; cbn [snd] in *; exact C3.
Qed.

(** X25. Whatever fails, a run of the graph sends the generation service
    at most three requests, in this order: one to summarize, with the
    latest summary stored for the session and the transcript of all its live
    messages; one to understand the query, built from the store as the
    compaction has left it (the last ten messages of the whole log, archived
    or not, and the latest summary, which is the new one after a compaction)
    and the query of the user; one to respond. *)
Theorem run_requests_in_order (sid query : string) (w : World) :
  let db := w_db w in
  let w' := snd (run sid query w) in
  exists s q r,
    w_llm_calls w' = w_llm_calls w ++ s ++ q ++ r /\
    (s = [] \/
     s = [SummarizePrompt
            (option_map row_to_summary (select_latest_summary sid db))
            (transcript (map row_to_message (select_messages sid None true db)))]) /\
    (q = [] \/
     q = [QueryPrompt
            (recent_context_of
               (map row_to_message (select_recent_messages sid 10 (w_db w'))))
            (option_map row_to_summary (select_latest_summary sid (w_db w')))
            query]) /\
    (r = [] \/ exists context effective_query interpretations,
                 r = [ResponsePrompt context effective_query interpretations]).
Proof.
  intros db w'. unfold w', db. clear w' db. unfold run, bind.
  pose proof (context_agent_keeps_calls (initial_state sid query) w) as C1.
  destruct (context_agent (initial_state sid query) w) as [[st1|e] w1] eqn:H1; cbn [snd] in *.
  2: { exists [], [], []. cbn [app]. rewrite app_nil_r.
       split; [exact C1|]. split; [now left|]. split; now left. }
  apply context_agent_result in H1. cbn [session_id initial_state] in H1.
  destruct H1 as [[Hdb1 _] Hst1].
  assert (Hsid1 : session_id st1 = sid) by now rewrite Hst1.
  assert (Hq1 : user_query st1 = query) by now rewrite Hst1.
  assert (Hmsgs1 : messages st1
                   = map row_to_message (select_messages sid None true (w_db w)))
    by now rewrite Hst1.
  assert (C2 : exists s,
             w_llm_calls (snd ((if should_summarize st1 then summarizer_agent st1
                                else ret st1) w1)) = w_llm_calls w ++ s /\
             (s = [] \/
              s = [SummarizePrompt
                     (option_map row_to_summary (select_latest_summary sid (w_db w)))
                     (transcript (map row_to_message
                                    (select_messages sid None true (w_db w))))])).
  { destruct (should_summarize st1).
    - destruct (summarizer_agent_calls st1 w1) as (s & Hs & Hs').
      exists s. rewrite Hs, C1. split; [reflexivity|].
      now rewrite Hsid1, Hdb1, Hmsgs1 in Hs'.
    - exists []. cbn [ret snd]. rewrite app_nil_r. split; [exact C1|now left]. }
  destruct C2 as (s & C2 & Hs). exists s.
  destruct ((if should_summarize st1 then summarizer_agent st1 else ret st1) w1)
    as [[st2|e] w2] eqn:H2; cbn [snd] in *.
  2: { exists [], []. cbn [app]. rewrite app_nil_r.
       split; [exact C2|]. split; [exact Hs|]. split; now left. }
  assert (Hfields : session_id st2 = sid /\ user_query st2 = query).
  { destruct (should_summarize st1).
    - apply summarizer_agent_fields in H2. destruct H2 as (-> & -> & _). now split.
    - unfold ret in H2. injection H2 as <- _. now split. }
  destruct Hfields as [Hsid2 Hq2].
  destruct (query_agent_calls st2 w2) as (q & C3 & Hq).
  rewrite Hsid2, Hq2 in Hq.
  pose proof (query_agent_same_store st2 w2) as S3.
  destruct (query_agent st2 w2) as [[st3|e] w3]; cbn [snd] in *.
  2: { exists q, []. rewrite app_nil_r. destruct S3 as [-> _].
       split; [now rewrite C3, C2, app_assoc|]. split; [exact Hs|]. split; [exact Hq|now left]. }
  destruct (response_agent_calls st3 w3) as (r & C4 & Hr).
  destruct (response_agent_same_store st3 w3) as [Hdb4 _].
  exists q, r. rewrite Hdb4. destruct S3 as [-> _].
  split; [now rewrite C4, C3, C2, <- !app_assoc|]. split; [exact Hs|]. split; [exact Hq|exact Hr].
Qed.

(** ** More properties: sessions do not interfere *)

Lemma filter_andb {A} (p q : A -> bool) (l : list A) :
  filter (fun x => p x && q x) l = filter q (filter p l).
Proof.
  induction l as [|a l IH]; simpl; [reflexivity|].
  destruct (p a); simpl; [destruct (q a); now rewrite IH|assumption].
Qed.

Lemma mark_row_other_session s sid ids r :
  s <> sid -> in_session s r = true -> mark_row sid ids r = r.
Proof.
  intros Hne H. unfold mark_row. now rewrite (in_session_other s sid r Hne H).
Qed.

Lemma filter_map_fixed {A} (p : A -> bool) (g : A -> A) (l : list A) :
  (forall a, p (g a) = p a) -> (forall a, p a = true -> g a = a) ->
  filter p (map g l) = filter p l.
Proof.
  intros H1 H2. rewrite filter_map_commute by assumption.
  induction l as [|a l IH]; simpl; [reflexivity|].
  destruct (p a) eqn:E; simpl; [now rewrite (H2 a E), IH|assumption].
Qed.

(** The rows of a session other than the one of the event are left as they
    are. *)
Lemma handle_event_other_session ev s w :
  s <> event_session ev ->
  filter (in_session s) (messages_table (w_db (snd (handle_event ev w))))
  = filter (in_session s) (messages_table (w_db w)) /\
  filter (summary_in_session s) (summaries_table (w_db (snd (handle_event ev w))))
  = filter (summary_in_session s) (summaries_table (w_db w)).
Proof.
  intros Hne.
  assert (Hdel : forall sid d,
            s <> sid ->
            filter (in_session s)
              (messages_table
                 (delete_query_analysis sid (delete_summaries sid (delete_messages sid d))))
            = filter (in_session s) (messages_table d) /\
            filter (summary_in_session s)
              (summaries_table
                 (delete_query_analysis sid (delete_summaries sid (delete_messages sid d))))
            = filter (summary_in_session s) (summaries_table d)).
  { intros sid d Hs.
    cbn [delete_query_analysis delete_summaries delete_messages messages_table
         summaries_table].
    split.
    - apply filter_disjoint. intros r. now apply in_session_other.
    - apply filter_disjoint. intros r. now apply summary_in_session_other. }
  assert (Hclear : forall sid,
            s <> sid ->
            filter (in_session s) (messages_table (w_db (snd (clear_session sid w))))
            = filter (in_session s) (messages_table (w_db w)) /\
            filter (summary_in_session s)
              (summaries_table (w_db (snd (clear_session sid w))))
            = filter (summary_in_session s) (summaries_table (w_db w))).
  { intros sid Hs. pose proof (clear_session_outcome sid w) as H.
    unfold outcome, same_store in H.
    destruct (clear_session sid w) as [[u|e] w1]; cbn [snd]; destruct H as [-> _];
      [now apply Hdel|split; reflexivity]. }
  destruct ev as [sid prompt|sid|sid]; cbn [event_session handle_event] in *;
    [|now apply Hclear|now apply Hclear].
  assert (Hrow : String.eqb sid s = false) by (apply String.eqb_neq; congruence).
  apply (on_chat_input_preserves
           (fun d =>
              filter (in_session s) (messages_table d)
              = filter (in_session s) (messages_table (w_db w)) /\
              filter (summary_in_session s) (summaries_table d)
              = filter (summary_in_session s) (summaries_table (w_db w)))).
  - intros d x [Hm Hs]. cbn [insert_summary messages_table summaries_table].
    split; [exact Hm|]. rewrite filter_app. cbn [filter].
    unfold summary_in_session at 2. cbn [s_session_id summary_row].
    rewrite Hrow, app_nil_r. exact Hs.
  - intros d f t [Hm Hs]. cbn [update_summarized messages_table summaries_table].
    split; [|exact Hs]. rewrite <- Hm. apply filter_map_fixed.
    + intros r. apply mark_row_in_session.
    + intros r Hr. now apply (mark_row_other_session s).
  - intros d r c ts md _ [Hm Hs]. cbn [insert_message messages_table summaries_table].
    split; [|exact Hs]. rewrite filter_app. cbn [filter].
    unfold in_session at 2. cbn [m_session_id]. rewrite Hrow, app_nil_r. exact Hm.
  - split; reflexivity.
Qed.

Lemma select_messages_rows s limit exclude db1 db2 :
  filter (in_session s) (messages_table db1) = filter (in_session s) (messages_table db2) ->
  select_messages s limit exclude db1 = select_messages s limit exclude db2.
Proof.
  intros H. unfold select_messages.
  assert (E : forall d,
            filter (fun r => in_session s r && (negb exclude || negb (is_summarized r)))
                   (messages_table d)
            = filter (fun r => negb exclude || negb (is_summarized r))
                     (filter (in_session s) (messages_table d)))
    by (intros d; apply filter_andb).
  now rewrite !E, H.
Qed.

(** X26. Sessions do not interfere.  Whatever an event of the application
    about one session does, and however it ends, every reader of the store
    returns for any other session what it returned before: its messages,
    with any limit and either filter, its recent window, its summaries, its
    latest summary and its token totals. *)
Theorem sessions_are_isolated (ev : event) (s : string) (w : World) :
  s <> event_session ev ->
  let db := w_db w in
  let db' := w_db (snd (handle_event ev w)) in
  (forall limit exclude,
     select_messages s limit exclude db' = select_messages s limit exclude db) /\
  (forall n, select_recent_messages s n db' = select_recent_messages s n db) /\
  select_all_summaries s db' = select_all_summaries s db /\
  select_latest_summary s db' = select_latest_summary s db /\
  (forall exclude, select_total_tokens s exclude db' = select_total_tokens s exclude db).
Proof.
  intros Hne db db'. destruct (handle_event_other_session ev s w Hne) as [Hm Hs].
  fold db' in Hm, Hs. fold db in Hm, Hs.
  split; [intros limit exclude; now apply select_messages_rows|].
  split; [intros n; unfold select_recent_messages, session_messages; now rewrite Hm|].
  split; [unfold select_all_summaries; now rewrite Hs|].
  split; [unfold select_latest_summary; now rewrite Hs|].
  intros exclude. unfold select_total_tokens.
  assert (E : forall d,
            filter (selected s exclude) (messages_table d)
            = filter (fun r => negb exclude || negb (is_summarized r))
                     (filter (in_session s) (messages_table d)))
    by (intros d; apply (filter_andb (in_session s))).
  now rewrite !E, Hm.
Qed.

End Pipeline.

(** ** Examples: the statements above at the sample store *)

Lemma never_fails_healthy : storage_healthy never_fails.
Proof. intros n. reflexivity. Defined.

Lemma always_answers_answers text : service_answers (always_answers text).
Proof. intros n req. discriminate. Defined.

Lemma sample_clock_increasing : clock_increasing sample_clock.
Proof. intros i j H. unfold sample_clock. lia. Defined.

(** In the sample store the live count is 34 tokens: over a threshold of 10
    the check asks for a compaction. *)
Lemma compaction_trigger_threshold_witness :
  storage_healthy never_fails /\
  exists st' w',
    context_agent sample_count_tokens never_fails 10 (initial_state "s" "and now?") sample_world
    = (Ok st', w') /\
    total_tokens st' = 34%Z /\ needs_summarization st' = true.
Proof.
  split; [exact never_fails_healthy|].
  destruct (compaction_trigger_threshold sample_count_tokens never_fails 10
              (initial_state "s" "and now?") sample_world never_fails_healthy)
    as (st' & w' & Hrun & _ & _ & Htotal & Hneeds & _).
  exists st', w'. split; [exact Hrun|]. split.
  - rewrite Htotal. reflexivity.
  - apply Hneeds. reflexivity.
Defined.

(** The two messages of the sample store are merged into the range 0 to 1. *)
Lemma summary_range_from_full_log_witness :
  storage_healthy never_fails /\
  messages sample_loaded_state
  = map row_to_message (select_messages "s" None true sample_store) /\
  messages sample_loaded_state <> [] /\
  exists out w',
    summarizer_agent sample_strip sample_upper sample_json_loads
      (always_answers "no json") sample_clock never_fails sample_loaded_state sample_world
    = (Ok (set_session_summary out sample_loaded_state), w') /\
    from_index (message_range_summarized out) = 0%Z /\
    to_index (message_range_summarized out) = 1%Z.
Proof.
  assert (Hmsgs : messages sample_loaded_state
                  = map row_to_message (select_messages "s" None true sample_store))
    by reflexivity.
  assert (Hne : messages sample_loaded_state <> []) by discriminate.
  split; [exact never_fails_healthy|]. split; [exact Hmsgs|]. split; [exact Hne|].
  destruct (summary_range_from_full_log sample_strip sample_upper sample_json_loads
              (always_answers "no json") sample_clock never_fails
              sample_loaded_state sample_world "no json"
              never_fails_healthy Hmsgs Hne eq_refl)
    as (out & w' & Hrun & Hfrom & Hto & _).
  exists out, w'. split; [exact Hrun|]. split; [exact Hfrom|exact Hto].
Defined.

(** Three chat inputs with a threshold of 1: the second and the third
    trigger a compaction, of the ranges 0 to 1 and 2 to 3. *)
Lemma summary_ranges_contiguous_witness :
  clock_increasing sample_clock /\
  let w := run_events sample_count_tokens sample_strip sample_upper sample_json_loads
             sample_lax_bool (always_answers "no json") sample_clock never_fails 1
             [ChatInput "s" "a"; ChatInput "s" "b"; ChatInput "s" "c"] initial_world in
  exists s1 s2,
    nth_error (select_all_summaries "s" (w_db w)) 0 = Some s1 /\
    nth_error (select_all_summaries "s" (w_db w)) 1 = Some s2 /\
    to_message_index s1 = 1%Z /\
    from_message_index s2 = 2%Z.
Proof.
  split; [exact sample_clock_increasing|].
  intros w.
  destruct (nth_error (select_all_summaries "s" (w_db w)) 0) as [s1|] eqn:E1;
    [|vm_compute in E1; discriminate].
  destruct (nth_error (select_all_summaries "s" (w_db w)) 1) as [s2|] eqn:E2;
    [|vm_compute in E2; discriminate].
  exists s1, s2. split; [reflexivity|]. split; [reflexivity|].
  assert (Hto : to_message_index s1 = 1%Z).
  { vm_compute in E1. injection E1 as <-. reflexivity. }
  split; [exact Hto|].
  rewrite (proj1 (summary_ranges_contiguous sample_count_tokens sample_strip sample_upper
                    sample_json_loads sample_lax_bool (always_answers "no json")
                    sample_clock never_fails 1
                    [ChatInput "s" "a"; ChatInput "s" "b"; ChatInput "s" "c"] "s"
                    sample_clock_increasing) 0%nat s1 s2 E1 E2).
  rewrite Hto. reflexivity.
Defined.

(** Four chat inputs with a threshold of 1 and a clock that is set back
    after the second turn.  The three compactions store the ranges 0 to 1,
    2 to 3 and 4 to 5, stamped 1002, 5 and 8; the log, read in the order of
    its timestamps, has then changed order, so that the third compaction
    archives the wrong rows.  [get_all_summaries] lists the summaries by
    timestamp: 2 to 3, 4 to 5, 0 to 1.  The range 0 to 1 follows the
    range 4 to 5. *)
Lemma consecutive_summaries_contiguous_counterexample :
  ~ consecutive_summaries_contiguous sample_count_tokens sample_strip sample_upper
      sample_json_loads sample_lax_bool (always_answers "no json") clock_set_back
      never_fails 1.
Proof.
  intros H.
  specialize (H [ChatInput "s" "a"; ChatInput "s" "b"; ChatInput "s" "c"; ChatInput "s" "d"]
                "s" 1%nat
                {| s_id := 3; s_session_id := "s"; summary_json := empty_summary;
                   from_message_index := 4; to_message_index := 5; s_timestamp := 8 |}
                {| s_id := 1; s_session_id := "s"; summary_json := empty_summary;
                   from_message_index := 0; to_message_index := 1; s_timestamp := 1002 |}
                eq_refl eq_refl).
  discriminate H.
Qed.


(** An ambiguous query with two clarifying questions and no rewriting. *)
Lemma hard_stop_iff_witness :
  let st := set_query_understanding sample_unclear (initial_state "s" "asdkjh") in
  let newline := String (ascii_of_nat 10) EmptyString in
  query_understanding st = Some sample_unclear /\
  exists st',
    response_agent (always_answers "an answer") st sample_world = (Ok st', sample_world) /\
    final_response st'
    = ("I need some clarification:" ++ newline ++ newline
       ++ "1. What do you mean?" ++ newline ++ "2. Which project?")%string.
Proof.
  intros st newline. split; [reflexivity|].
  destruct (hard_stop_iff (always_answers "an answer") st sample_unclear sample_world eq_refl)
    as (_ & _ & _ & _ & _ & Htwo).
  apply (Htwo (conj eq_refl (conj (or_introl eq_refl)
                               (fun H => nil_cons (eq_sym H))))).
  reflexivity.
Defined.

(** The same query: the response begins with the heading, which is none of
    the questions. *)
Lemma hard_stop_answers_with_questions_only_counterexample :
  ~ hard_stop_answers_with_questions_only (always_answers "an answer").
Proof.
  intros H.
  destruct (H (set_query_understanding sample_unclear (initial_state "s" "asdkjh"))
              sample_unclear sample_world eq_refl eq_refl (or_introl eq_refl)
              (fun E => nil_cons (eq_sym E))) as (st' & Hrun & Htext).
  vm_compute in Hrun. injection Hrun as <-. vm_compute in Htext. discriminate Htext.
Qed.


(** A reply that is no JSON: the query agent falls back on the text of the
    recent window. *)
Lemma query_parse_failure_falls_back_witness :
  storage_healthy never_fails /\
  user_query sample_loaded_state <> "" /\
  parse_query_understanding sample_strip sample_json_loads sample_lax_bool "no json" = None /\
  exists qu w',
    query_agent sample_strip sample_upper sample_json_loads sample_lax_bool
      (always_answers "no json") never_fails sample_loaded_state sample_world
    = (Ok (set_query_understanding qu sample_loaded_state), w') /\
    is_ambiguous qu = false /\
    final_augmented_context qu = ("user: hello" ++ nl ++ "assistant: hi there")%string.
Proof.
  assert (Hq : user_query sample_loaded_state <> "") by discriminate.
  assert (Hparse : parse_query_understanding sample_strip sample_json_loads sample_lax_bool
                     "no json" = None) by reflexivity.
  split; [exact never_fails_healthy|]. split; [exact Hq|]. split; [exact Hparse|].
  destruct (query_parse_failure_falls_back sample_strip sample_upper sample_json_loads
              sample_lax_bool (always_answers "no json") never_fails
              sample_loaded_state sample_world "no json"
              never_fails_healthy Hq eq_refl Hparse)
    as (qu & w' & Hrun & _ & _ & Hamb & _ & _ & _ & _ & Hctx & _).
  exists qu, w'. split; [exact Hrun|]. split; [exact Hamb|].
  rewrite Hctx. reflexivity.
Defined.

(** Two checks in a row on the sample store. *)
Lemma trigger_check_idempotent_witness :
  storage_healthy never_fails /\
  exists st1 w1 w2,
    context_agent sample_count_tokens never_fails 10 (initial_state "s" "and now?") sample_world
    = (Ok st1, w1) /\
    context_agent sample_count_tokens never_fails 10 st1 w1 = (Ok st1, w2) /\
    w_db w2 = sample_store.
Proof.
  split; [exact never_fails_healthy|].
  destruct (trigger_check_idempotent sample_count_tokens never_fails 10
              (initial_state "s" "and now?") sample_world never_fails_healthy)
    as (st1 & w1 & w2 & H1 & H2 & _ & Hdb & _).
  exists st1, w1, w2. split; [exact H1|]. split; [exact H2|exact Hdb].
Defined.

(** The summarizer compacts the sample store, then the call of the query
    agent fails: [run] raises, and the summary has been stored. *)
Lemma failed_generation_writes_nothing_counterexample :
  ~ failed_generation_writes_nothing sample_count_tokens sample_strip sample_upper
      sample_json_loads sample_lax_bool (answers_first 1 "no json") sample_clock
      never_fails 10.
Proof.
  intros H. specialize (H "s" "and now?" sample_world eq_refl).
  apply (f_equal summaries_table) in H. vm_compute in H. discriminate H.
Qed.

(** A service that fails at once: the summarizer raises, [run] raises, the
    sample store is as it was. *)
Lemma generation_failure_propagates_witness :
  storage_healthy never_fails /\
  exists w',
    run sample_count_tokens sample_strip sample_upper sample_json_loads sample_lax_bool
      (answers_first 0 "no json") sample_clock never_fails 10 "s" "and now?" sample_world
    = (Raise GenerationServiceError, w') /\
    w_db w' = sample_store.
Proof.
  split; [exact never_fails_healthy|].
  destruct (generation_failure_propagates sample_count_tokens sample_strip sample_upper
              sample_json_loads sample_lax_bool (answers_first 0 "no json") sample_clock
              never_fails 10 never_fails_healthy) as (_ & _ & Hrun & _).
  apply (Hrun "s" "and now?" sample_world).
  - discriminate.
  - reflexivity.
  - reflexivity.
Defined.

(** An empty query on the empty store. *)
Lemma empty_query_fixed_response_witness :
  let st2 := set_context [] 0 false (initial_state "s" "") in
  let w2 := skip_sql_ops 2 initial_world in
  compaction_stages sample_count_tokens sample_strip sample_upper sample_json_loads
    (always_answers "no json") sample_clock never_fails 10 "s" "" initial_world
  = (Ok st2, w2) /\
  exists st3,
    run sample_count_tokens sample_strip sample_upper sample_json_loads sample_lax_bool
      (always_answers "no json") sample_clock never_fails 10 "s" "" initial_world
    = (Ok st3, w2) /\
    final_response st3 = "I need a query to respond to." /\
    query_understanding st3 = None /\
    w_llm_calls w2 = [].
Proof.
  intros st2 w2.
  assert (Hstages : compaction_stages sample_count_tokens sample_strip sample_upper
                      sample_json_loads (always_answers "no json") sample_clock never_fails
                      10 "s" "" initial_world = (Ok st2, w2)) by reflexivity.
  split; [exact Hstages|].
  destruct (empty_query_fixed_response sample_count_tokens sample_strip sample_upper
              sample_json_loads sample_lax_bool (always_answers "no json") sample_clock
              never_fails 10 "s" initial_world st2 w2 Hstages)
    as (_ & _ & _ & _ & _ & _ & (st3 & Hrun & Htext & Hnone & _) & _).
  exists st3. split; [exact Hrun|]. split; [exact Htext|]. split; [exact Hnone|reflexivity].
Defined.

(** ** Examples for the further properties *)

Lemma get_messages_in_timestamp_order_witness :
  storage_healthy never_fails /\
  exists msgs w',
    get_messages never_fails "s" None false sample_world = (Ok msgs, w') /\
    map msg_timestamp msgs = [0%Z; 1%Z].
Proof.
  split; [exact never_fails_healthy|].
  destruct (get_messages_in_timestamp_order never_fails "s" false sample_world
              never_fails_healthy) as (msgs & w' & Hget & _).
  exists msgs, w'. split; [exact Hget|].
  injection Hget as <- _. reflexivity.
Defined.

Lemma get_messages_limit_keeps_oldest_witness :
  storage_healthy never_fails /\
  (- 9223372036854775808 < 1 < 9223372036854775808)%Z /\
  exists limited w2,
    get_messages never_fails "s" (Some 1%Z) false sample_world = (Ok limited, w2) /\
    map content limited = ["hello"].
Proof.
  assert (H1 : (- 9223372036854775808 < 1 < 9223372036854775808)%Z)
    by (split; reflexivity).
  split; [exact never_fails_healthy|]. split; [exact H1|].
  destruct (get_messages_limit_keeps_oldest never_fails "s" 1 false sample_world
              never_fails_healthy H1) as (every & w1 & limited & w2 & Hall & Hlim & Heq).
  exists limited, w2. split; [exact Hlim|].
  rewrite Heq. injection Hall as <- _. reflexivity.
Defined.

Lemma get_recent_messages_are_the_last_witness :
  storage_healthy never_fails /\ (0 <= 1 < 9223372036854775808)%Z /\
  exists recent w2,
    get_recent_messages never_fails "s" 1 sample_world = (Ok recent, w2) /\
    map content recent = ["hi there"].
Proof.
  assert (H1 : (0 <= 1 < 9223372036854775808)%Z) by (split; [discriminate|reflexivity]).
  split; [exact never_fails_healthy|]. split; [exact H1|].
  destruct (get_recent_messages_are_the_last never_fails "s" 1 sample_world
              never_fails_healthy H1) as (every & w1 & recent & w2 & Hall & Hrec & Heq & _).
  exists recent, w2. split; [exact Hrec|].
  rewrite Heq. injection Hall as <- _. reflexivity.
Defined.





Lemma mark_outside_the_log_changes_nothing_witness :
  (0 <= 2)%Z /\
  (Z.of_nat (List.length (session_messages "s" sample_store)) <= 2)%Z /\
  w_db (snd (mark_messages_as_summarized never_fails "s" 2 5 sample_world)) = sample_store.
Proof.
  assert (H0 : (0 <= 2)%Z) by discriminate.
  assert (H1 : (Z.of_nat (List.length (session_messages "s" (w_db sample_world))) <= 2)%Z)
    by discriminate.
  split; [exact H0|]. split; [exact H1|].
  exact (mark_outside_the_log_changes_nothing never_fails "s" 2 5 sample_world H0
           (or_intror H1)).
Defined.



Lemma latest_summary_is_newest_witness :
  storage_healthy never_fails /\
  exists latest w1,
    get_latest_summary never_fails "s" sample_world = (Ok latest, w1) /\ latest = None.
Proof.
  split; [exact never_fails_healthy|].
  destruct (latest_summary_is_newest never_fails "s" sample_world never_fails_healthy)
    as (latest & w1 & every & w2 & Hlatest & Hall & Hnone & _).
  exists latest, w1. split; [exact Hlatest|].
  apply Hnone. injection Hall as <- _. reflexivity.
Defined.

(** In the store that holds the summary of the range 0 to 1, stamped 2, a
    summary of the range 2 to 3 stamped 5 is saved and read back. *)
Lemma saved_summary_is_latest_witness :
  let s := {| session_summary :=
                {| user_profile := {| preferences := ["short answers"]; constraints := [] |};
                   key_facts := ["greeted"]; decisions := []; open_questions := [];
                   todos := [] |};
              message_range_summarized := {| from_index := 2; to_index := 3 |};
              timestamp := 5 |} in
  storage_healthy never_fails /\
  (0 <= 2)%Z /\ (0 <= 3)%Z /\
  In {| s_id := 1; s_session_id := "s"; summary_json := empty_summary;
        from_message_index := 0; to_message_index := 1; s_timestamp := 2 |}
     (summaries_table sample_compacted_store) /\
  (forall r, In r (summaries_table sample_compacted_store) -> s_session_id r = "s" ->
             (s_timestamp r < timestamp s)%Z) /\
  exists w1 w2,
    save_summary never_fails "s" s sample_compacted_world = (Ok 2%Z, w1) /\
    get_latest_summary never_fails "s" w1 = (Ok (Some s), w2) /\
    List.length (summaries_table (w_db w1)) = 2%nat.
Proof.
  intros s.
  assert (H2 : (0 <= 2)%Z) by discriminate.
  assert (H3 : (0 <= 3)%Z) by discriminate.
  assert (Hts : forall r, In r (summaries_table (w_db sample_compacted_world)) ->
                          s_session_id r = "s" -> (s_timestamp r < timestamp s)%Z).
  { intros r [<-|[]] _. reflexivity. }
  split; [exact never_fails_healthy|]. split; [exact H2|]. split; [exact H3|].
  split; [left; reflexivity|]. split; [exact Hts|].
  destruct (saved_summary_is_latest never_fails "s" s sample_compacted_world
              never_fails_healthy H2 H3 Hts)
    as (id & w1 & w2 & row & Hsave & Hlatest & _ & Hid & _).
  assert (Htwo : id = 2%Z) by (rewrite Hid; reflexivity).
  rewrite Htwo in Hsave.
  exists w1, w2. split; [exact Hsave|]. split; [exact Hlatest|].
  injection Hsave as <-. reflexivity.
Defined.

(** After one exchange the column and the token counter agree on 34
    tokens. *)
Lemma count_total_tokens_matches_counter_witness :
  let w := run_events sample_count_tokens sample_strip sample_upper sample_json_loads
             sample_lax_bool (always_answers "hi there") sample_clock never_fails 100
             [ChatInput "s" "hello"] initial_world in
  exists n w1 msgs w2,
    count_total_tokens never_fails "s" true w = (Ok n, w1) /\
    get_messages never_fails "s" None true w = (Ok msgs, w2) /\
    n = count_messages_tokens sample_count_tokens msgs /\
    n = 34%Z.
Proof.
  intros w.
  destruct (count_total_tokens never_fails "s" true w) as [[n|e] w1] eqn:Hn;
    [|vm_compute in Hn; discriminate].
  destruct (get_messages never_fails "s" None true w) as [[msgs|e] w2] eqn:Hm;
    [|vm_compute in Hm; discriminate].
  exists n, w1, msgs, w2. split; [reflexivity|]. split; [reflexivity|].
  split.
  - exact (count_total_tokens_matches_counter sample_count_tokens sample_strip sample_upper
             sample_json_loads sample_lax_bool (always_answers "hi there") sample_clock
             never_fails 100 [ChatInput "s" "hello"] "s" true n msgs w1 w2 Hn Hm).
  - vm_compute in Hn. injection Hn as <- _. reflexivity.
Defined.

Lemma get_session_stats_consistent_witness :
  storage_healthy never_fails /\
  exists stats w1,
    get_session_stats never_fails "s" sample_world = (Ok stats, w1) /\
    message_count stats = 2%nat /\ summary_count stats = 0%nat /\
    stats_total_tokens stats = 34%Z.
Proof.
  split; [exact never_fails_healthy|].
  destruct (get_session_stats_consistent never_fails "s" sample_world never_fails_healthy)
    as (stats & w1 & msgs & w2 & sums & w3 & n & w4
        & Hstats & _ & Hmsgs & Hsums & Hn & H1 & H2 & H3).
  exists stats, w1. split; [exact Hstats|].
  rewrite H1, H2, H3.
  injection Hmsgs as <- _. injection Hsums as <- _. injection Hn as <- _.
  repeat split.
Defined.

(** The 34 live tokens of the sample store are within a threshold of 100. *)
Lemma run_without_compaction_writes_nothing_witness :
  (count_messages_tokens sample_count_tokens
     (map row_to_message (select_messages "s" None true sample_store)) <= 100)%Z /\
  w_db (snd (run sample_count_tokens sample_strip sample_upper sample_json_loads
               sample_lax_bool (answers_first 1 "no json") sample_clock never_fails 100
               "s" "and now?" sample_world)) = sample_store.
Proof.
  assert (H : (count_messages_tokens sample_count_tokens
                 (map row_to_message (select_messages "s" None true (w_db sample_world)))
               <= 100)%Z) by (vm_compute; discriminate).
  split; [exact H|].
  exact (proj1 (run_without_compaction_writes_nothing sample_count_tokens sample_strip
                  sample_upper sample_json_loads sample_lax_bool (answers_first 1 "no json")
                  sample_clock never_fails 100 "s" "and now?" sample_world
                  (or_introl H))).
Defined.

(** Over a threshold of 10 the run compacts the sample store and returns the
    summary it has stored under the id 1. *)
Lemma run_reports_the_summary_it_stored_witness :
  exists st' w' out,
    run sample_count_tokens sample_strip sample_upper sample_json_loads sample_lax_bool
      (always_answers "no json") sample_clock never_fails 10 "s" "and now?" sample_world
    = (Ok st', w') /\
    state_session_summary st' = Some out /\
    summaries_table (w_db w') = [summary_row 1 "s" out].
Proof.
  assert (Hex : exists st' w' out,
            run sample_count_tokens sample_strip sample_upper sample_json_loads
              sample_lax_bool (always_answers "no json") sample_clock never_fails 10
              "s" "and now?" sample_world = (Ok st', w') /\
            state_session_summary st' = Some out).
  { vm_compute. eexists. eexists. eexists. split; reflexivity. }
  destruct Hex as (st' & w' & out & Hrun & Hsum).
  exists st', w', out. split; [exact Hrun|]. split; [exact Hsum|].
  destruct (run_reports_the_summary_it_stored sample_count_tokens sample_strip sample_upper
              sample_json_loads sample_lax_bool (always_answers "no json") sample_clock
              never_fails 10 "s" "and now?" sample_world st' w' Hrun) as (_ & _ & Hrows).
  exact (Hrows out Hsum).
Defined.

Lemma chat_turn_stores_the_exchange_witness :
  storage_healthy never_fails /\
  service_answers (always_answers "no json") /\
  "and now?" <> "" /\
  exists w2,
    on_chat_input sample_count_tokens sample_strip sample_upper sample_json_loads
      sample_lax_bool (always_answers "no json") sample_clock never_fails 100
      "s" "and now?" sample_world = (Ok tt, w2) /\
    map m_content (messages_table (w_db w2)) = ["hello"; "hi there"; "and now?"; "no json"] /\
    map m_id (messages_table (w_db w2)) = [1%Z; 2%Z; 3%Z; 4%Z].
Proof.
  assert (Hprompt : "and now?" <> "") by discriminate.
  split; [exact never_fails_healthy|].
  split; [exact (always_answers_answers "no json")|].
  split; [exact Hprompt|].
  destruct (chat_turn_stores_the_exchange sample_count_tokens sample_strip sample_upper
              sample_json_loads sample_lax_bool (always_answers "no json") sample_clock
              never_fails 100 "s" "and now?" sample_world never_fails_healthy
              (always_answers_answers "no json") Hprompt)
    as (result & w1 & w2 & u & a & Hrun & Hchat & Hrows & _ & _ & _ & Hidu & Hida
        & _ & Hcu & _ & Hca & _).
  exists w2. split; [exact Hchat|].
  rewrite Hrows, !map_app. cbn [map]. rewrite Hcu, Hca, Hidu, Hida.
  vm_compute in Hrun. injection Hrun as <- <-. split; reflexivity.
Defined.

(** After one exchange of 33 tokens, over a threshold of 10, the next run
    compacts: no live message is left. *)
Lemma compaction_leaves_no_live_message_witness :
  clock_increasing sample_clock /\
  let w := run_events sample_count_tokens sample_strip sample_upper sample_json_loads
             sample_lax_bool (always_answers "no json") sample_clock never_fails 10
             [ChatInput "s" "hello"] initial_world in
  exists st' w' out,
    run sample_count_tokens sample_strip sample_upper sample_json_loads sample_lax_bool
      (always_answers "no json") sample_clock never_fails 10 "s" "and now?" w
    = (Ok st', w') /\
    state_session_summary st' = Some out /\
    select_messages "s" None true (w_db w') = [] /\
    option_map row_to_summary (select_latest_summary "s" (w_db w')) = Some out.
Proof.
  split; [exact sample_clock_increasing|]. intros w.
  assert (Hex : exists st' w' out,
            run sample_count_tokens sample_strip sample_upper sample_json_loads
              sample_lax_bool (always_answers "no json") sample_clock never_fails 10
              "s" "and now?" w = (Ok st', w') /\
            state_session_summary st' = Some out).
  { vm_compute. eexists. eexists. eexists. split; reflexivity. }
  destruct Hex as (st' & w' & out & Hrun & Hsum).
  exists st', w', out. split; [exact Hrun|]. split; [exact Hsum|].
  destruct (compaction_leaves_no_live_message sample_count_tokens sample_strip sample_upper
              sample_json_loads sample_lax_bool (always_answers "no json") sample_clock
              never_fails 10 [ChatInput "s" "hello"] "s" "and now?" st' w' out
              sample_clock_increasing Hrun Hsum) as (Hlive & _ & Hlatest).
  split; [exact Hlive|exact Hlatest].
Defined.

(** Over a threshold of 10 the sidebar shows 34 tokens and the warning, and
    the next run stores a summary. *)
Lemma sidebar_warning_is_truthful_witness :
  storage_healthy never_fails /\
  service_answers (always_answers "no json") /\
  (0 < 10)%Z /\
  exists w1 result w2 out,
    sidebar_context sample_count_tokens never_fails 10 "s" sample_world
    = (Ok (34%Z, true), w1) /\
    run sample_count_tokens sample_strip sample_upper sample_json_loads sample_lax_bool
      (always_answers "no json") sample_clock never_fails 10 "s" "and now?" w1
    = (Ok result, w2) /\
    state_session_summary result = Some out.
Proof.
  assert (H10 : (0 < 10)%Z) by reflexivity.
  split; [exact never_fails_healthy|].
  split; [exact (always_answers_answers "no json")|].
  split; [exact H10|].
  destruct (sidebar_warning_is_truthful sample_count_tokens sample_strip sample_upper
              sample_json_loads sample_lax_bool (always_answers "no json") sample_clock
              never_fails 10 "s" "and now?" sample_world never_fails_healthy
              (always_answers_answers "no json") H10)
    as (tokens & warn & w1 & result & w2 & Hside & _ & _ & Hrun & Hiff).
  assert (Hshown : tokens = 34%Z /\ warn = true).
  { pose proof Hside as H. vm_compute in H. injection H as <- <- _. split; reflexivity. }
  destruct Hshown as [-> ->].
  destruct (proj1 Hiff eq_refl) as [out Hout].
  exists w1, result, w2, out. split; [exact Hside|]. split; [exact Hrun|exact Hout].
Defined.

(** Two live messages weigh at least 8 tokens: over a threshold of 7 the
    check asks for a compaction, whatever the tokenizer. *)
Lemma many_live_messages_trigger_compaction_witness :
  (7 < 4 * Z.of_nat (List.length (select_messages "s" None true sample_store)))%Z /\
  exists st' w',
    context_agent sample_count_tokens never_fails 7 (initial_state "s" "and now?")
      sample_world = (Ok st', w') /\
    needs_summarization st' = true.
Proof.
  assert (H : (7 < 4 * Z.of_nat (List.length
                                   (select_messages
                                      (session_id (initial_state "s" "and now?"))
                                      None true (w_db sample_world))))%Z) by reflexivity.
  split; [exact H|].
  destruct (context_agent sample_count_tokens never_fails 7 (initial_state "s" "and now?")
              sample_world) as [[st'|e] w'] eqn:Hrun; [|vm_compute in Hrun; discriminate].
  exists st', w'. split; [reflexivity|].
  exact (proj1 (many_live_messages_trigger_compaction sample_count_tokens never_fails 7
                  (initial_state "s" "and now?") st' sample_world w' Hrun H)).
Defined.

(** The reply with two null lists and one list missing is read with three
    empty lists; the constructor alone refuses it. *)
Lemma null_lists_read_as_empty_witness :
  sample_reply_loads (strip_fences sample_strip "reply") = Some (JObj sample_query_reply) /\
  parse_query_understanding sample_strip sample_reply_loads sample_lax_bool "reply"
  = Some {| original_query := "and now?"; is_ambiguous := false; rewritten_query := None;
            possible_interpretations := []; needed_context_from_memory := [];
            clarifying_questions := []; final_augmented_context := "" |} /\
  validate_QueryUnderstanding sample_lax_bool sample_query_reply = None.
Proof.
  assert (H : sample_reply_loads (strip_fences sample_strip "reply")
              = Some (JObj sample_query_reply)) by reflexivity.
  split; [exact H|].
  destruct (null_lists_read_as_empty sample_strip sample_reply_loads sample_lax_bool
              "reply" sample_query_reply H) as [Hparse Hnull].
  split.
  - rewrite Hparse. reflexivity.
  - apply (Hnull "clarifying_questions"); [right; right; left; reflexivity|reflexivity].
Defined.

(** A turn of session ["t"], which compacts nothing of session ["s"] and
    stores its two messages, leaves the readers of session ["s"] as they
    were. *)
Lemma sessions_are_isolated_witness :
  "s" <> event_session (ChatInput "t" "hi") /\
  let w' := snd (handle_event sample_count_tokens sample_strip sample_upper
                   sample_json_loads sample_lax_bool (always_answers "no json")
                   sample_clock never_fails 0 (ChatInput "t" "hi") sample_world) in
  List.length (messages_table (w_db w')) = 4%nat /\
  select_messages "s" None true (w_db w') = select_messages "s" None true sample_store /\
  select_total_tokens "s" true (w_db w') = 34%Z.
Proof.
  assert (Hne : "s" <> event_session (ChatInput "t" "hi")) by discriminate.
  split; [exact Hne|]. intros w'.
  destruct (sessions_are_isolated sample_count_tokens sample_strip sample_upper
              sample_json_loads sample_lax_bool (always_answers "no json") sample_clock
              never_fails 0 (ChatInput "t" "hi") "s" sample_world Hne)
    as (Hmsgs & _ & _ & _ & Htokens).
  split; [reflexivity|]. split; [exact (Hmsgs None true)|].
  unfold w'. rewrite (Htokens true). reflexivity.
Defined.
